(** * Job aggregator core: storage, analytics, merge and rate limiter

    A shallow embedding of the Go packages [models], [storage] and [scraper]
    (the in-memory job store, its search filters and analytics, the merge of
    scraping results and the token-bucket rate limiter), followed by the
    properties proved about them.

    Conventions of the embedding:
    - Go [int] and [time.Duration] are 64-bit: values are [Z], and the
      arithmetic on caller-supplied values goes through [wrap64];
    - a Go [string] is a sequence of bytes: [string];
    - a [map[string]bool] / [map[string]int] is a [gmap]; reading a missing
      key gives the zero value ([lookup_bool], [lookup_int]);
    - a nil slice or map and an empty one are both the empty list or map;
    - [time.Time] is the instant as a number of nanoseconds;
    - [float64] arithmetic is a parameter ([Float64]) with two instances,
      exact rationals and IEEE 754 binary64;
    - a run-time panic is the [Panicked] result;
    - what Go leaves open (the order of [range] over a map, the order
      [sort.Slice] gives to elements that compare equal, which ready case a
      [select] takes) is an explicit [GoRuntime] argument. *)

From Stdlib Require Import ZArith QArith Qcanon Qround Lia String Ascii List.
From Stdlib Require Import Floats.PrimFloat Floats.FloatOps Floats.SpecFloat.
From Stdlib Require Import Numbers.Cyclic.Int63.Uint63.
From stdpp Require Import gmap strings list fin_maps sorting.

Local Open Scope string_scope.
Local Open Scope Z_scope.
Local Open Scope list_scope.

(** ** Go runtime values *)

Inductive panic : Set :=
| SliceBoundsOutOfRange
| IntegerDivideByZero.

Inductive result (A : Type) : Type :=
| Ok (a : A)
| Panicked (p : panic).
Arguments Ok {A} a.
Arguments Panicked {A} p.

#[export] Instance result_bind : MBind result := λ A B k r,
  match r with
  | Ok a => k a
  | Panicked p => Panicked p
  end.

(** A Go [error]: [None] is [nil]. *)
Definition error : Type := option string.

(** Two's-complement wrap-around of 64-bit signed arithmetic. *)
Definition wrap64 (z : Z) : Z := (z + 2 ^ 63) `mod` 2 ^ 64 - 2 ^ 63.

(** Go's integer division truncates toward zero and panics on a zero
    divisor. *)
Definition go_div (a b : Z) : result Z :=
  if b =? 0 then Panicked IntegerDivideByZero else Ok (wrap64 (a ÷ b)).

(** [s[lo:hi]] on a slice whose capacity is not below its length and with
    [hi] already known to be at most the length. *)
Definition slice {A} (s : list A) (lo hi : Z) : result (list A) :=
  if (0 <=? lo) && (lo <=? hi) && (hi <=? Z.of_nat (length s))
  then Ok (take (Z.to_nat (hi - lo)) (drop (Z.to_nat lo) s))
  else Panicked SliceBoundsOutOfRange.

Definition lookup_bool (m : gmap string bool) (k : string) : bool :=
  default false (m !! k).

Definition lookup_int (m : gmap string Z) (k : string) : Z :=
  default 0 (m !! k).

(** [m[k]++] *)
Definition incr (m : gmap string Z) (k : string) : gmap string Z :=
  <[k := lookup_int m k + 1]> m.

(** *** Package [strings], on ASCII text

    [ToLower] lower-cases the bytes [A]..[Z] and leaves every other byte
    alone, which is what [strings.ToLower] does on ASCII input;
    [EqualFold] is equality after that folding. *)

Definition lower_byte (c : ascii) : ascii :=
  let n := nat_of_ascii c in
  if ((65 <=? n) && (n <=? 90))%nat then ascii_of_nat (n + 32) else c.

Fixpoint ToLower (s : string) : string :=
  match s with
  | EmptyString => EmptyString
  | String c s' => String (lower_byte c) (ToLower s')
  end.

Fixpoint Contains (s substr : string) : bool :=
  if String.prefix substr s then true
  else match s with
       | EmptyString => false
       | String _ s' => Contains s' substr
       end.

Fixpoint Join (elems : list string) (sep : string) : string :=
  match elems with
  | [] => ""
  | [x] => x
  | x :: rest => x +:+ sep +:+ Join rest sep
  end.

Definition EqualFold (s t : string) : bool := String.eqb (ToLower s) (ToLower t).

(** *** What the runtime chooses *)

Inductive select_case : Set := TimerFired | CtxDone.

Record GoRuntime : Type := {
  (** [sort.Slice] with the given [less], as a function of the slice *)
  sort_Slice : ∀ A : Type, (A → A → bool) → list A → list A;
  (** the order in which a [range] loop visits the entries of a map *)
  map_range : gmap string Z → list (string * Z);
  (** the case a [select] takes when both are ready at the same instant *)
  select_tie : select_case
}.
Arguments sort_Slice _ {A} _ _.

(** [less] orders its arguments the way [sort] needs: it is asymmetric and
    incomparability is transitive. *)
Definition strict_weak {A} (less : A → A → bool) : Prop :=
  (∀ a b, less a b = true → less b a = false) ∧
  (∀ a b c, less a b = false → less b c = false → less a c = false).

(** No later element is [less] than an earlier one. *)
Definition sorted_by {A} (less : A → A → bool) (l : list A) : Prop :=
  StronglySorted (λ a b, less b a = false) l.

(** The documented behaviour of the runtime: sorting permutes the slice into
    [less]-order, and [range] visits every entry of the map once. *)
Definition runtime_ok (rt : GoRuntime) : Prop :=
  (∀ (A : Type) (less : A → A → bool) (l : list A),
      sort_Slice rt less l ≡ₚ l ∧
      (strict_weak less → sorted_by less (sort_Slice rt less l))) ∧
  (∀ m : gmap string Z, map_range rt m ≡ₚ map_to_list m).

(** The insertion sort that package [sort] runs on slices of at most twelve
    elements: each element moves left while it is [less] than its left
    neighbour.  The sorted prefix is kept reversed. *)
Fixpoint insert_back {A} (less : A → A → bool) (x : A) (rev_prefix : list A) : list A :=
  match rev_prefix with
  | [] => [x]
  | y :: rest => if less x y then y :: insert_back less x rest else x :: y :: rest
  end.

Definition insertionSort {A} (less : A → A → bool) (data : list A) : list A :=
  reverse (foldl (λ acc x, insert_back less x acc) [] data).

(** ** Package [models] *)

Module Job.
Record t : Type := {
  ID : string;
  Title : string;
  Company : string;
  Location : string;
  Description : string;
  Requirements : list string;
  Skills : list string;
  SalaryMin : Z;
  SalaryMax : Z;
  SalaryCurrency : string;
  DegreeRequired : bool;
  ExperienceLevel : string;
  RemoteOption : string;
  PostedDate : Z;
  URL : string;
  Source : string;
  CompanySize : string;
  Industry : string;
  Benefits : list string
}.
End Job.

Module SearchFilters.
Record t : Type := {
  JobTitle : string;
  Keywords : list string;
  Location : string;
  Locations : list string;
  RemoteOnly : bool;
  MinSalary : Z;
  MaxSalary : Z;
  ExperienceLevel : string;
  DegreeRequired : option bool;
  Skills : list string;
  CompanySize : string;
  Industry : string;
  JobCategory : string;
  JobSites : list string;
  Limit : Z;
  Offset : Z
}.
End SearchFilters.

Module SalaryRange.
Record t (F : Type) : Type := {
  Min : Z;
  Max : Z;
  Median : F;
  P25 : F;
  P75 : F
}.
Arguments Min {F} _.
Arguments Max {F} _.
Arguments Median {F} _.
Arguments P25 {F} _.
Arguments P75 {F} _.
End SalaryRange.

Module SkillCount.
Record t : Type := { Skill : string; Count : Z }.
End SkillCount.

Module CompanyCount.
Record t : Type := { Company : string; Count : Z }.
End CompanyCount.

Module JobAnalytics.
Record t (F : Type) : Type := {
  TotalJobs : Z;
  AverageSalary : F;
  SalaryRange : SalaryRange.t F;
  TopSkills : list SkillCount.t;
  TopCompanies : list CompanyCount.t;
  ExperienceLevels : gmap string Z;
  RemoteOptions : gmap string Z;
  DegreeRequirements : gmap string Z;
  LocationDistribution : gmap string Z;
  IndustryDistribution : gmap string Z
}.
Arguments TotalJobs {F} _.
Arguments AverageSalary {F} _.
Arguments SalaryRange {F} _.
Arguments TopSkills {F} _.
Arguments TopCompanies {F} _.
Arguments ExperienceLevels {F} _.
Arguments RemoteOptions {F} _.
Arguments DegreeRequirements {F} _.
Arguments LocationDistribution {F} _.
Arguments IndustryDistribution {F} _.
End JobAnalytics.

Module SearchResponse.
Record t (F : Type) : Type := {
  Jobs : list Job.t;
  Total : Z;
  Analytics : JobAnalytics.t F;
  Filters : SearchFilters.t
}.
Arguments Jobs {F} _.
Arguments Total {F} _.
Arguments Analytics {F} _.
Arguments Filters {F} _.
End SearchResponse.

Module ScrapingResult.
Record t : Type := {
  Jobs : list Job.t;
  Source : string;
  Error : error
}.
End ScrapingResult.

(** ** [float64]

    The operations the analytics code applies to [float64] values:
    conversion from and to [int], the four arithmetic operations and [<]. *)

Class Float64 (F : Type) : Type := {
  f_of_int : Z → F;
  f_to_int : F → Z;
  f_add : F → F → F;
  f_sub : F → F → F;
  f_mul : F → F → F;
  f_div : F → F → F;
  f_ltb : F → F → bool
}.


(** IEEE 754 binary64 with round-to-nearest-even, the arithmetic of the
    hardware: Rocq's primitive floats. *)
Definition float_of_Z (z : Z) : float :=
  if z <? 0 then PrimFloat.opp (PrimFloat.of_uint63 (Uint63.of_Z (- z)))
  else PrimFloat.of_uint63 (Uint63.of_Z z).

Definition float_to_Z (x : float) : Z :=
  match Prim2SF x with
  | S754_finite s m e =>
      let v := if 0 <=? e then Z.pos m * 2 ^ e else Z.pos m ÷ 2 ^ (- e) in
      if s then - v else v
  | _ => 0
  end.

#[export] Instance ieee_float64 : Float64 float := {|
  f_of_int := float_of_Z;
  f_to_int := float_to_Z;
  f_add := PrimFloat.add;
  f_sub := PrimFloat.sub;
  f_mul := PrimFloat.mul;
  f_div := PrimFloat.div;
  f_ltb := PrimFloat.ltb
|}.

(** ** Package [storage] *)

Record InMemoryStorage : Type := { jobs : list Job.t }.

Definition NewInMemoryStorage : InMemoryStorage := {| jobs := [] |}.

(** The second loop of [Store]: [existingURLs] and [s.jobs] are updated
    together, one incoming job at a time. *)
Fixpoint Store_loop (existingURLs : gmap string bool) (sjobs : list Job.t)
    (incoming : list Job.t) : list Job.t :=
  match incoming with
  | [] => sjobs
  | job :: rest =>
      if negb (lookup_bool existingURLs (Job.URL job))
      then Store_loop (<[Job.URL job := true]> existingURLs) (sjobs ++ [job]) rest
      else Store_loop existingURLs sjobs rest
  end.

Definition Store (s : InMemoryStorage) (incoming : list Job.t) : InMemoryStorage * error :=
  let existingURLs :=
    foldl (λ m job, <[Job.URL job := true]> m) (∅ : gmap string bool) (jobs s) in
  ({| jobs := Store_loop existingURLs (jobs s) incoming |}, None).

Definition Clear (s : InMemoryStorage) : InMemoryStorage * error :=
  ({| jobs := [] |}, None).

(** A run of [Store] calls, one per batch. *)
Definition StoreAll (s : InMemoryStorage) (batches : list (list Job.t)) : InMemoryStorage :=
  foldl (λ st batch, (Store st batch).1) s batches.

Definition nonempty_string (s : string) : bool := negb (String.eqb s "").

Definition matchesFilters (job : Job.t) (filters : SearchFilters.t) : bool :=
  (* Job title filter *)
  if nonempty_string (SearchFilters.JobTitle filters)
     && negb (Contains (ToLower (Job.Title job)) (ToLower (SearchFilters.JobTitle filters)))
  then false else
  (* Keywords filter *)
  if (0 <? Z.of_nat (length (SearchFilters.Keywords filters)))
     && negb (let jobText := ToLower (Job.Title job +:+ " " +:+ Job.Description job
                                      +:+ " " +:+ Join (Job.Skills job) " ") in
              existsb (λ keyword, Contains jobText (ToLower keyword))
                      (SearchFilters.Keywords filters))
  then false else
  (* Location filter (single location) *)
  if nonempty_string (SearchFilters.Location filters)
     && negb (Contains (ToLower (Job.Location job)) (ToLower (SearchFilters.Location filters)))
  then false else
  (* Multiple locations filter *)
  if (0 <? Z.of_nat (length (SearchFilters.Locations filters)))
     && negb (existsb (λ filterLocation,
                         Contains (ToLower (Job.Location job)) (ToLower filterLocation))
                      (SearchFilters.Locations filters))
  then false else
  (* Remote filter *)
  if SearchFilters.RemoteOnly filters
     && negb (Contains (ToLower (Job.RemoteOption job)) "remote")
  then false else
  (* Salary filters *)
  if (SearchFilters.MinSalary filters >? 0)
     && ((Job.SalaryMin job =? 0) || (Job.SalaryMin job <? SearchFilters.MinSalary filters))
  then false else
  if (SearchFilters.MaxSalary filters >? 0)
     && ((Job.SalaryMax job =? 0) || (Job.SalaryMax job >? SearchFilters.MaxSalary filters))
  then false else
  (* Experience level filter *)
  if nonempty_string (SearchFilters.ExperienceLevel filters)
     && negb (EqualFold (Job.ExperienceLevel job) (SearchFilters.ExperienceLevel filters))
  then false else
  (* Degree requirement filter *)
  if match SearchFilters.DegreeRequired filters with
     | Some wanted => negb (Bool.eqb (Job.DegreeRequired job) wanted)
     | None => false
     end
  then false else
  (* Skills filter *)
  if (0 <? Z.of_nat (length (SearchFilters.Skills filters)))
     && negb (let jobSkills :=
                foldl (λ m skill, <[ToLower skill := true]> m) (∅ : gmap string bool)
                      (Job.Skills job) in
              forallb (λ requiredSkill, lookup_bool jobSkills (ToLower requiredSkill))
                      (SearchFilters.Skills filters))
  then false else
  true.

(** [sortedData[i]].  [percentile] is called on slices of at least two
    elements and its indices are then within bounds
    (see [percentile_index_bounds]). *)
Definition at_index {F} `{Float64 F} (data : list F) (i : Z) : F :=
  nth (Z.to_nat i) data (f_of_int 0).

Definition percentile {F} `{Float64 F} (sortedData : list F) (p : F) : F :=
  let n := Z.of_nat (length sortedData) in
  if n =? 0 then f_of_int 0 else
  if n =? 1 then at_index sortedData 0 else
  let index := f_mul (f_div p (f_of_int 100)) (f_of_int (n - 1)) in
  let lower := f_to_int index in
  let upper := lower + 1 in
  if upper >=? n then at_index sortedData (n - 1) else
  let weight := f_sub index (f_of_int lower) in
  f_add (f_mul (at_index sortedData lower) (f_sub (f_of_int 1) weight))
        (f_mul (at_index sortedData upper) weight).

(** [sort.Float64s]: ascending order by [<] (no NaN arises from salaries). *)
Definition sort_Float64s {F} `{Float64 F} (rt : GoRuntime) (x : list F) : list F :=
  sort_Slice rt f_ltb x.

Definition getTopCounts (rt : GoRuntime) (counts : gmap string Z) (limit : Z)
    : list SkillCount.t :=
  let pairs := map_range rt counts in
  let pairs := sort_Slice rt (λ a b : string * Z, a.2 >? b.2) pairs in
  (λ pair, {| SkillCount.Skill := pair.1; SkillCount.Count := pair.2 |})
    <$> take (Z.to_nat limit) pairs.

Definition getTopCompanies (rt : GoRuntime) (counts : gmap string Z) (limit : Z)
    : list CompanyCount.t :=
  let pairs := map_range rt counts in
  let pairs := sort_Slice rt (λ a b : string * Z, a.2 >? b.2) pairs in
  (λ pair, {| CompanyCount.Company := pair.1; CompanyCount.Count := pair.2 |})
    <$> take (Z.to_nat limit) pairs.

(** The variables the loop of [GetAnalytics] updates. *)
Record analytics_loop (F : Type) : Type := {
  experienceLevels : gmap string Z;
  remoteOptions : gmap string Z;
  degreeRequirements : gmap string Z;
  locationDistribution : gmap string Z;
  industryDistribution : gmap string Z;
  skillCounts : gmap string Z;
  companyCounts : gmap string Z;
  salaries : list F
}.
Arguments experienceLevels {F} _.
Arguments remoteOptions {F} _.
Arguments degreeRequirements {F} _.
Arguments locationDistribution {F} _.
Arguments industryDistribution {F} _.
Arguments skillCounts {F} _.
Arguments companyCounts {F} _.
Arguments salaries {F} _.

Definition analytics_loop_init {F} : analytics_loop F := {|
  experienceLevels := ∅;
  remoteOptions := ∅;
  degreeRequirements := ∅;
  locationDistribution := ∅;
  industryDistribution := ∅;
  skillCounts := ∅;
  companyCounts := ∅;
  salaries := []
|}.

(** One iteration of the loop over [jobs]. *)
Definition analytics_step {F} `{Float64 F} (st : analytics_loop F) (job : Job.t)
    : analytics_loop F := {|
  experienceLevels :=
    if nonempty_string (Job.ExperienceLevel job)
    then incr (experienceLevels st) (Job.ExperienceLevel job)
    else experienceLevels st;
  remoteOptions :=
    if nonempty_string (Job.RemoteOption job)
    then incr (remoteOptions st) (Job.RemoteOption job)
    else remoteOptions st;
  degreeRequirements :=
    if Job.DegreeRequired job
    then incr (degreeRequirements st) "Required"
    else incr (degreeRequirements st) "Not Required";
  locationDistribution :=
    if nonempty_string (Job.Location job)
    then incr (locationDistribution st) (Job.Location job)
    else locationDistribution st;
  industryDistribution :=
    if nonempty_string (Job.Industry job)
    then incr (industryDistribution st) (Job.Industry job)
    else industryDistribution st;
  skillCounts := foldl incr (skillCounts st) (Job.Skills job);
  companyCounts :=
    if nonempty_string (Job.Company job)
    then incr (companyCounts st) (Job.Company job)
    else companyCounts st;
  salaries :=
    if (Job.SalaryMin job >? 0) && (Job.SalaryMax job >? 0)
    then salaries st ++
           [f_div (f_of_int (wrap64 (Job.SalaryMin job + Job.SalaryMax job))) (f_of_int 2)]
    else if Job.SalaryMin job >? 0
    then salaries st ++ [f_of_int (Job.SalaryMin job)]
    else if Job.SalaryMax job >? 0
    then salaries st ++ [f_of_int (Job.SalaryMax job)]
    else salaries st
|}.

(** [models.SalaryRange{}] and [models.JobAnalytics{}]. *)
Definition SalaryRange_zero {F} `{Float64 F} : SalaryRange.t F := {|
  SalaryRange.Min := 0;
  SalaryRange.Max := 0;
  SalaryRange.Median := f_of_int 0;
  SalaryRange.P25 := f_of_int 0;
  SalaryRange.P75 := f_of_int 0
|}.

Definition JobAnalytics_zero {F} `{Float64 F} : JobAnalytics.t F := {|
  JobAnalytics.TotalJobs := 0;
  JobAnalytics.AverageSalary := f_of_int 0;
  JobAnalytics.SalaryRange := SalaryRange_zero;
  JobAnalytics.TopSkills := [];
  JobAnalytics.TopCompanies := [];
  JobAnalytics.ExperienceLevels := ∅;
  JobAnalytics.RemoteOptions := ∅;
  JobAnalytics.DegreeRequirements := ∅;
  JobAnalytics.LocationDistribution := ∅;
  JobAnalytics.IndustryDistribution := ∅
|}.

(** The salary statistics of a non-empty sample. *)
Definition salary_statistics {F} `{Float64 F} (rt : GoRuntime) (salaries : list F)
    : F * SalaryRange.t F :=
  let salaries := sort_Float64s rt salaries in
  let sum := foldl f_add (f_of_int 0) salaries in
  (f_div sum (f_of_int (Z.of_nat (length salaries))),
   {| SalaryRange.Min := f_to_int (at_index salaries 0);
      SalaryRange.Max := f_to_int (at_index salaries (Z.of_nat (length salaries) - 1));
      SalaryRange.Median := percentile salaries (f_of_int 50);
      SalaryRange.P25 := percentile salaries (f_of_int 25);
      SalaryRange.P75 := percentile salaries (f_of_int 75) |}).

Definition GetAnalytics {F} `{Float64 F} (rt : GoRuntime) (jobs : list Job.t)
    : JobAnalytics.t F :=
  if Z.of_nat (length jobs) =? 0 then JobAnalytics_zero else
  let st := foldl analytics_step analytics_loop_init jobs in
  let stats :=
    if Z.of_nat (length (salaries st)) >? 0
    then salary_statistics rt (salaries st)
    else (f_of_int 0, SalaryRange_zero) in
  {| JobAnalytics.TotalJobs := Z.of_nat (length jobs);
     JobAnalytics.AverageSalary := stats.1;
     JobAnalytics.SalaryRange := stats.2;
     JobAnalytics.TopSkills := getTopCounts rt (skillCounts st) 10;
     JobAnalytics.TopCompanies := getTopCompanies rt (companyCounts st) 10;
     JobAnalytics.ExperienceLevels := experienceLevels st;
     JobAnalytics.RemoteOptions := remoteOptions st;
     JobAnalytics.DegreeRequirements := degreeRequirements st;
     JobAnalytics.LocationDistribution := locationDistribution st;
     JobAnalytics.IndustryDistribution := industryDistribution st |}.

(** [a.PostedDate.After(b.PostedDate)] *)
Definition posted_after (a b : Job.t) : bool := Job.PostedDate a >? Job.PostedDate b.

(** The jobs that pass the filters, newest first: [filteredJobs] after the
    sort. *)
Definition filteredJobs (rt : GoRuntime) (s : InMemoryStorage) (filters : SearchFilters.t)
    : list Job.t :=
  sort_Slice rt posted_after (filter (λ job, matchesFilters job filters = true) (jobs s)).

Definition Search {F} `{Float64 F} (rt : GoRuntime) (s : InMemoryStorage)
    (filters : SearchFilters.t) : result (SearchResponse.t F * error) :=
  let filteredJobs := filteredJobs rt s filters in
  let total := Z.of_nat (length filteredJobs) in
  (* Apply pagination *)
  let start := SearchFilters.Offset filters in
  let end_ := wrap64 (start + SearchFilters.Limit filters) in
  let end_ := if SearchFilters.Limit filters =? 0 then total else end_ in
  let start := if start >? total then total else start in
  let end_ := if end_ >? total then total else end_ in
  paginatedJobs ← slice filteredJobs start end_;
  Ok ({| SearchResponse.Jobs := paginatedJobs;
         SearchResponse.Total := total;
         SearchResponse.Analytics := GetAnalytics rt filteredJobs;
         SearchResponse.Filters := filters |}, None).

(** ** Package [scraper] *)

(** A [context.Context] as far as [Wait] looks at it: the instant from
    which its [Done] channel is closed ([None]: never) and the error [Err]
    reports from then on. *)
Record Context : Type := {
  done_at : option Z;
  ctx_err : string
}.

Record JobScraper : Type := {
  Name : string;
  Scrape : Context → SearchFilters.t → list Job.t * error;
  GetBaseURL : string
}.

Record RateLimiter : Type := {
  rate : Z;
  interval : Z;
  tokens : Z;
  lastTime : Z
}.

(** [now] is the reading of [time.Now()]. *)
Definition NewRateLimiter (rate interval : Z) (now : Z) : result RateLimiter :=
  Ok {| rate := rate; interval := interval; tokens := rate; lastTime := now |}.

(** [t.Sub(u)] saturates at the ends of the [Duration] range. *)
Definition time_Sub (t u : Z) : Z := Z.max (- 2 ^ 63) (Z.min (2 ^ 63 - 1) (t - u)).

(** The [select] of [Wait], entered at instant [now]: the timer fires
    [waitTime] later (at once when [waitTime] is not positive), the context
    is done from [done_at] on. *)
Definition select_wait (rt : GoRuntime) (ctx : Context) (now waitTime : Z) : select_case :=
  let fires := now + Z.max 0 waitTime in
  match done_at ctx with
  | None => TimerFired
  | Some d =>
      let d := Z.max d now in
      if d <? fires then CtxDone
      else if fires <? d then TimerFired
      else select_tie rt
  end.

(** The refill at the head of [Wait]: the token count after the clamp. *)
Definition refill (rl : RateLimiter) (now : Z) : result Z :=
  let elapsed := time_Sub now (lastTime rl) in
  q ← go_div elapsed (interval rl);
  let tokensToAdd := wrap64 (q * rate rl) in
  let tokens := wrap64 (tokens rl + tokensToAdd) in
  Ok (if tokens >? rate rl then rate rl else tokens).

Definition Wait (rt : GoRuntime) (rl : RateLimiter) (ctx : Context) (now : Z)
    : result (RateLimiter * error) :=
  tokens ← refill rl now;
  let rl := {| rate := rate rl; interval := interval rl; tokens := tokens; lastTime := now |} in
  if tokens >? 0 then
    Ok ({| rate := rate rl; interval := interval rl;
           tokens := wrap64 (tokens - 1); lastTime := lastTime rl |}, None)
  else
    (* Calculate wait time *)
    waitTime ← go_div (interval rl) (rate rl);
    match select_wait rt ctx now waitTime with
    | TimerFired =>
        Ok ({| rate := rate rl; interval := interval rl;
               tokens := wrap64 (rate rl - 1); lastTime := lastTime rl |}, None)
    | CtxDone => Ok (rl, Some (ctx_err ctx))
    end.

(** The duration [Wait] passes to [time.After] when it finds the bucket
    empty. *)
Definition waitTime (rl : RateLimiter) : result Z := go_div (interval rl) (rate rl).

(** Every goroutine of [ScrapeAll] fills the slot of its own scraper, and
    [wg.Wait] returns once all have: the results are in the order of the
    scrapers.  What [rateLimiter.Wait] returns is dropped. *)
Definition ScrapeAll (scrapers : list JobScraper) (ctx : Context)
    (filters : SearchFilters.t) : list ScrapingResult.t :=
  (λ s, let '(jobs, err) := Scrape s ctx filters in
        {| ScrapingResult.Jobs := jobs;
           ScrapingResult.Source := Name s;
           ScrapingResult.Error := err |}) <$> scrapers.

Definition GetAllJobs (results : list ScrapingResult.t) : list Job.t :=
  foldl (λ allJobs result,
           match ScrapingResult.Error result with
           | None => allJobs ++ ScrapingResult.Jobs result
           | Some _ => allJobs
           end) [] results.

(** An outcome without an error. *)
Definition succeeded (r : ScrapingResult.t) : Prop := ScrapingResult.Error r = None.

#[export] Instance succeeded_dec (r : ScrapingResult.t) : Decision (succeeded r) :=
  decide (ScrapingResult.Error r = None).

(** ** Runtimes and data for the examples *)

(** A runtime that sorts by insertion and visits a map in the given order. *)
Definition runtime_with (order : gmap string Z → list (string * Z)) : GoRuntime := {|
  sort_Slice := @insertionSort;
  map_range := order;
  select_tie := TimerFired
|}.

Definition range_forward (m : gmap string Z) : list (string * Z) := map_to_list m.

Definition rt_forward : GoRuntime := runtime_with range_forward.

(** A job with the given fields and the zero value everywhere else. *)
Definition job_of (url title : string) (skills : list string) (salaryMin salaryMax : Z)
    (posted : Z) : Job.t := {|
  Job.ID := ""; Job.Title := title; Job.Company := ""; Job.Location := "";
  Job.Description := ""; Job.Requirements := []; Job.Skills := skills;
  Job.SalaryMin := salaryMin; Job.SalaryMax := salaryMax; Job.SalaryCurrency := "";
  Job.DegreeRequired := false; Job.ExperienceLevel := ""; Job.RemoteOption := "";
  Job.PostedDate := posted; Job.URL := url; Job.Source := ""; Job.CompanySize := "";
  Job.Industry := ""; Job.Benefits := []
|}.

(** [models.SearchFilters{}]: no constraint, no pagination. *)
Definition no_filters : SearchFilters.t := {|
  SearchFilters.JobTitle := ""; SearchFilters.Keywords := [];
  SearchFilters.Location := ""; SearchFilters.Locations := [];
  SearchFilters.RemoteOnly := false; SearchFilters.MinSalary := 0;
  SearchFilters.MaxSalary := 0; SearchFilters.ExperienceLevel := "";
  SearchFilters.DegreeRequired := None; SearchFilters.Skills := [];
  SearchFilters.CompanySize := ""; SearchFilters.Industry := "";
  SearchFilters.JobCategory := ""; SearchFilters.JobSites := [];
  SearchFilters.Limit := 0; SearchFilters.Offset := 0
|}.

Definition with_paging (filters : SearchFilters.t) (offset limit : Z) : SearchFilters.t := {|
  SearchFilters.JobTitle := SearchFilters.JobTitle filters;
  SearchFilters.Keywords := SearchFilters.Keywords filters;
  SearchFilters.Location := SearchFilters.Location filters;
  SearchFilters.Locations := SearchFilters.Locations filters;
  SearchFilters.RemoteOnly := SearchFilters.RemoteOnly filters;
  SearchFilters.MinSalary := SearchFilters.MinSalary filters;
  SearchFilters.MaxSalary := SearchFilters.MaxSalary filters;
  SearchFilters.ExperienceLevel := SearchFilters.ExperienceLevel filters;
  SearchFilters.DegreeRequired := SearchFilters.DegreeRequired filters;
  SearchFilters.Skills := SearchFilters.Skills filters;
  SearchFilters.CompanySize := SearchFilters.CompanySize filters;
  SearchFilters.Industry := SearchFilters.Industry filters;
  SearchFilters.JobCategory := SearchFilters.JobCategory filters;
  SearchFilters.JobSites := SearchFilters.JobSites filters;
  SearchFilters.Limit := limit; SearchFilters.Offset := offset
|}.

Definition with_skills (filters : SearchFilters.t) (skills : list string) : SearchFilters.t := {|
  SearchFilters.JobTitle := SearchFilters.JobTitle filters;
  SearchFilters.Keywords := SearchFilters.Keywords filters;
  SearchFilters.Location := SearchFilters.Location filters;
  SearchFilters.Locations := SearchFilters.Locations filters;
  SearchFilters.RemoteOnly := SearchFilters.RemoteOnly filters;
  SearchFilters.MinSalary := SearchFilters.MinSalary filters;
  SearchFilters.MaxSalary := SearchFilters.MaxSalary filters;
  SearchFilters.ExperienceLevel := SearchFilters.ExperienceLevel filters;
  SearchFilters.DegreeRequired := SearchFilters.DegreeRequired filters;
  SearchFilters.Skills := skills;
  SearchFilters.CompanySize := SearchFilters.CompanySize filters;
  SearchFilters.Industry := SearchFilters.Industry filters;
  SearchFilters.JobCategory := SearchFilters.JobCategory filters;
  SearchFilters.JobSites := SearchFilters.JobSites filters;
  SearchFilters.Limit := SearchFilters.Limit filters;
  SearchFilters.Offset := SearchFilters.Offset filters
|}.

Definition with_keywords (filters : SearchFilters.t) (keywords : list string)
    : SearchFilters.t := {|
  SearchFilters.JobTitle := SearchFilters.JobTitle filters;
  SearchFilters.Keywords := keywords;
  SearchFilters.Location := SearchFilters.Location filters;
  SearchFilters.Locations := SearchFilters.Locations filters;
  SearchFilters.RemoteOnly := SearchFilters.RemoteOnly filters;
  SearchFilters.MinSalary := SearchFilters.MinSalary filters;
  SearchFilters.MaxSalary := SearchFilters.MaxSalary filters;
  SearchFilters.ExperienceLevel := SearchFilters.ExperienceLevel filters;
  SearchFilters.DegreeRequired := SearchFilters.DegreeRequired filters;
  SearchFilters.Skills := SearchFilters.Skills filters;
  SearchFilters.CompanySize := SearchFilters.CompanySize filters;
  SearchFilters.Industry := SearchFilters.Industry filters;
  SearchFilters.JobCategory := SearchFilters.JobCategory filters;
  SearchFilters.JobSites := SearchFilters.JobSites filters;
  SearchFilters.Limit := SearchFilters.Limit filters;
  SearchFilters.Offset := SearchFilters.Offset filters
|}.

Definition with_salary (filters : SearchFilters.t) (minSalary maxSalary : Z)
    : SearchFilters.t := {|
  SearchFilters.JobTitle := SearchFilters.JobTitle filters;
  SearchFilters.Keywords := SearchFilters.Keywords filters;
  SearchFilters.Location := SearchFilters.Location filters;
  SearchFilters.Locations := SearchFilters.Locations filters;
  SearchFilters.RemoteOnly := SearchFilters.RemoteOnly filters;
  SearchFilters.MinSalary := minSalary;
  SearchFilters.MaxSalary := maxSalary;
  SearchFilters.ExperienceLevel := SearchFilters.ExperienceLevel filters;
  SearchFilters.DegreeRequired := SearchFilters.DegreeRequired filters;
  SearchFilters.Skills := SearchFilters.Skills filters;
  SearchFilters.CompanySize := SearchFilters.CompanySize filters;
  SearchFilters.Industry := SearchFilters.Industry filters;
  SearchFilters.JobCategory := SearchFilters.JobCategory filters;
  SearchFilters.JobSites := SearchFilters.JobSites filters;
  SearchFilters.Limit := SearchFilters.Limit filters;
  SearchFilters.Offset := SearchFilters.Offset filters
|}.

(** Four jobs whose representative salaries are 120000, 60000, 100000 and
    80000: one with both bounds equal, one with only a minimum, one with
    only a maximum, one with two different bounds. *)
Definition salary_jobs : list Job.t := [
  job_of "u1" "a" [] 120000 120000 4;
  job_of "u2" "b" [] 60000 0 3;
  job_of "u3" "c" [] 0 100000 2;
  job_of "u4" "d" [] 70000 90000 1
].

(** The text the keywords filter searches: [jobText] before lower-casing. *)
Definition searchable_text (job : Job.t) : string :=
  Job.Title job +:+ " " +:+ Job.Description job +:+ " " +:+ Join (Job.Skills job) " ".

(** Jobs for the filter examples. *)
Definition go_docker_job : Job.t := job_of "u1" "Backend engineer" ["Go"; "Docker"] 0 0 3.
Definition go_only_job : Job.t := job_of "u2" "Platform engineer" ["Go"] 0 0 2.
Definition java_job : Job.t := job_of "u3" "Senior Java developer" [] 0 90000 1.

(** The filters with the skills and the keywords filter switched off. *)
Definition without_skills_and_keywords (filters : SearchFilters.t) : SearchFilters.t :=
  with_keywords (with_skills filters []) [].

(** The limiter of [NewScraperManager], five requests per second, found
    empty half a second after its last use. *)
Definition empty_limiter : RateLimiter :=
  {| rate := 5; interval := 1000000000; tokens := 0; lastTime := 0 |}.

(** A full limiter, and a context cancelled before the call. *)
Definition full_limiter : RateLimiter :=
  {| rate := 5; interval := 1000000000; tokens := 5; lastTime := 0 |}.

Definition cancelled_ctx : Context :=
  {| done_at := Some 0; ctx_err := "context canceled" |}.



(** A store of three jobs. *)
Definition example_store : InMemoryStorage :=
  {| jobs := [go_docker_job; go_only_job; java_job] |}.

(** ** The statements of the specification, in its own words *)

(** [sub] occurs in [s]. *)
Definition is_substring (sub s : string) : Prop := ∃ pre post, s = pre +:+ sub +:+ post.

(** Following the spec's words: the record contains ALL requested skills,
    case-insensitively. *)
Definition has_all_skills (job : Job.t) (requested : list string) : Prop :=
  ∀ r, r ∈ requested → ∃ s, s ∈ Job.Skills job ∧ ToLower s = ToLower r.

(** Following the spec's words: ANY keyword is a case-insensitive substring
    of title+description+skills. *)
Definition has_any_keyword (job : Job.t) (keywords : list string) : Prop :=
  ∃ kw, kw ∈ keywords ∧ is_substring (ToLower kw) (ToLower (searchable_text job)).

(** Following the spec's words: the salary bound a positive [min_salary]
    (respectively [max_salary]) looks at is absent or outside the request.
    A bound is absent when it is zero. *)
Definition fails_min_salary (job : Job.t) (filters : SearchFilters.t) : Prop :=
  0 < SearchFilters.MinSalary filters
  ∧ (Job.SalaryMin job = 0 ∨ Job.SalaryMin job < SearchFilters.MinSalary filters).

Definition fails_max_salary (job : Job.t) (filters : SearchFilters.t) : Prop :=
  0 < SearchFilters.MaxSalary filters
  ∧ (Job.SalaryMax job = 0 ∨ SearchFilters.MaxSalary filters < Job.SalaryMax job).

(** Following the spec's words: a record is inserted only if its URL is
    absent; a repeated URL is a no-op and the first entry wins.  [seen] are
    the URLs present so far. *)
Fixpoint first_by_URL (seen : list string) (incoming : list Job.t) : list Job.t :=
  match incoming with
  | [] => []
  | job :: rest =>
      if bool_decide (Job.URL job ∈ seen) then first_by_URL seen rest
      else job :: first_by_URL (Job.URL job :: seen) rest
  end.




(** Following the spec's words: the refill
    [tokens = min(capacity, tokens + floor(elapsed / interval * capacity))]
    after [elapsed] nanoseconds. *)
Definition refill_spec (rl : RateLimiter) (elapsed : Z) : Z :=
  Z.min (rate rl)
        (tokens rl + Qfloor (inject_Z elapsed / inject_Z (interval rl) * inject_Z (rate rl))%Q).


Definition occurrences (k : string) (keys : list string) : Z :=
  Z.of_nat (length (filter (λ k', k' = k) keys)).



(** Following the spec's words, the per-field rules of [search], all ANDed:
    an absent field (empty string, empty list, zero, unset) is no
    constraint. *)
Definition title_rule (job : Job.t) (filters : SearchFilters.t) : bool :=
  if nonempty_string (SearchFilters.JobTitle filters)
  then Contains (ToLower (Job.Title job)) (ToLower (SearchFilters.JobTitle filters))
  else true.

Definition keywords_rule (job : Job.t) (filters : SearchFilters.t) : bool :=
  match SearchFilters.Keywords filters with
  | [] => true
  | keywords =>
      existsb (λ kw, Contains (ToLower (searchable_text job)) (ToLower kw)) keywords
  end.

Definition location_rule (job : Job.t) (filters : SearchFilters.t) : bool :=
  if nonempty_string (SearchFilters.Location filters)
  then Contains (ToLower (Job.Location job)) (ToLower (SearchFilters.Location filters))
  else true.

Definition locations_rule (job : Job.t) (filters : SearchFilters.t) : bool :=
  match SearchFilters.Locations filters with
  | [] => true
  | locations =>
      existsb (λ loc, Contains (ToLower (Job.Location job)) (ToLower loc)) locations
  end.

Definition remote_rule (job : Job.t) (filters : SearchFilters.t) : bool :=
  if SearchFilters.RemoteOnly filters
  then Contains (ToLower (Job.RemoteOption job)) "remote"
  else true.

Definition min_salary_rule (job : Job.t) (filters : SearchFilters.t) : bool :=
  if 0 <? SearchFilters.MinSalary filters
  then negb (Job.SalaryMin job =? 0)
       && (SearchFilters.MinSalary filters <=? Job.SalaryMin job)
  else true.

Definition max_salary_rule (job : Job.t) (filters : SearchFilters.t) : bool :=
  if 0 <? SearchFilters.MaxSalary filters
  then negb (Job.SalaryMax job =? 0)
       && (Job.SalaryMax job <=? SearchFilters.MaxSalary filters)
  else true.

Definition experience_rule (job : Job.t) (filters : SearchFilters.t) : bool :=
  if nonempty_string (SearchFilters.ExperienceLevel filters)
  then String.eqb (ToLower (Job.ExperienceLevel job))
                  (ToLower (SearchFilters.ExperienceLevel filters))
  else true.

Definition degree_rule (job : Job.t) (filters : SearchFilters.t) : bool :=
  match SearchFilters.DegreeRequired filters with
  | None => true
  | Some wanted => Bool.eqb (Job.DegreeRequired job) wanted
  end.

Definition skills_rule (job : Job.t) (filters : SearchFilters.t) : bool :=
  match SearchFilters.Skills filters with
  | [] => true
  | requested =>
      forallb (λ r, bool_decide (ToLower r ∈ ToLower <$> Job.Skills job)) requested
  end.







(** ** Counting jobs, and runs of [Wait] *)

(** The number of jobs of a list with a property. *)
Definition count_jobs (P : Job.t → Prop) `{∀ job, Decision (P job)} (jobs : list Job.t) : Z :=
  Z.of_nat (length (filter P jobs)).

(** A run of [Wait] calls, one at each of the instants [times], on the same
    limiter and with the same context: the limiter after the last call and
    what each call returned. *)
Fixpoint Wait_each (rt : GoRuntime) (rl : RateLimiter) (ctx : Context) (times : list Z)
    : result (RateLimiter * list error) :=
  match times with
  | [] => Ok (rl, [])
  | now :: later =>
      '(rl', err) ← Wait rt rl ctx now;
      '(rl'', errs) ← Wait_each rt rl' ctx later;
      Ok (rl'', err :: errs)
  end.

(** Every call comes less than one [interval] after the one before it, the
    first one after [previous]. *)
Fixpoint within_interval (interval previous : Z) (times : list Z) : Prop :=
  match times with
  | [] => True
  | now :: later => 0 ≤ now - previous < interval ∧ within_interval interval now later
  end.

(** A context that is never done. *)
Definition background_ctx : Context := {| done_at := None; ctx_err := "" |}.

(** ** The scraper registry *)

Module ScraperConfig.
Record t : Type := {
  Name : string;
  Enabled : bool;
  URL : string;
  Type_ : string;
  RateLimit : Z;
  Timeout : Z;
  Headers : gmap string string;
  RequiresAuth : bool;
  Credentials : gmap string string
}.

(** [config.Enabled = enabled] on a copy of [config] *)
Definition with_Enabled (config : t) (enabled : bool) : t := {|
  Name := Name config; Enabled := enabled; URL := URL config; Type_ := Type_ config;
  RateLimit := RateLimit config; Timeout := Timeout config; Headers := Headers config;
  RequiresAuth := RequiresAuth config; Credentials := Credentials config
|}.

(** [ScraperConfig{}] *)
Definition zero : t := {|
  Name := ""; Enabled := false; URL := ""; Type_ := ""; RateLimit := 0; Timeout := 0;
  Headers := ∅; RequiresAuth := false; Credentials := ∅
|}.
End ScraperConfig.

(** The registry without its HTTP client. *)
Record ScraperRegistry : Type := { configs : gmap string ScraperConfig.t }.

(** [time.Second], in nanoseconds *)
Definition Second : Z := 1000000000.

(** The scrapers [CreateScraper] can build, by the constructor it calls. *)
Inductive scraper_impl : Type :=
  | RemoteOK_impl
  | WeWorkRemotely_impl
  | LinkedIn_impl
  | JobStreet_impl (country : string).

Definition loadDefaultConfigs (sr : ScraperRegistry) : ScraperRegistry :=
  (* RemoteOK configuration *)
  let configs := <["remoteok" := {|
    ScraperConfig.Name := "RemoteOK"; ScraperConfig.Enabled := true;
    ScraperConfig.URL := "https://remoteok.io"; ScraperConfig.Type_ := "api";
    ScraperConfig.RateLimit := 30; ScraperConfig.Timeout := 30 * Second;
    ScraperConfig.Headers := {["Accept" := "application/json"]};
    ScraperConfig.RequiresAuth := false; ScraperConfig.Credentials := ∅ |}]> (configs sr) in
  (* WeWorkRemotely configuration *)
  let configs := <["weworkremotely" := {|
    ScraperConfig.Name := "WeWorkRemotely"; ScraperConfig.Enabled := true;
    ScraperConfig.URL := "https://weworkremotely.com"; ScraperConfig.Type_ := "public";
    ScraperConfig.RateLimit := 20; ScraperConfig.Timeout := 30 * Second;
    ScraperConfig.Headers := {["Accept" := "text/html"]};
    ScraperConfig.RequiresAuth := false; ScraperConfig.Credentials := ∅ |}]> configs in
  (* LinkedIn configuration (requires authentication) *)
  let configs := <["linkedin" := {|
    ScraperConfig.Name := "LinkedIn"; ScraperConfig.Enabled := false;
    ScraperConfig.URL := "https://linkedin.com"; ScraperConfig.Type_ := "authenticated";
    ScraperConfig.RateLimit := 10; ScraperConfig.Timeout := 30 * Second;
    ScraperConfig.Headers := {["Accept" := "text/html"]};
    ScraperConfig.RequiresAuth := true; ScraperConfig.Credentials := ∅ |}]> configs in
  (* JobStreet configuration (requires authentication) *)
  let configs := <["jobstreet" := {|
    ScraperConfig.Name := "JobStreet"; ScraperConfig.Enabled := false;
    ScraperConfig.URL := "https://id.jobstreet.com"; ScraperConfig.Type_ := "authenticated";
    ScraperConfig.RateLimit := 15; ScraperConfig.Timeout := 30 * Second;
    ScraperConfig.Headers := {["Accept" := "text/html"]};
    ScraperConfig.RequiresAuth := true; ScraperConfig.Credentials := ∅ |}]> configs in
  (* Indeed configuration (public RSS feeds only) *)
  let configs := <["indeed" := {|
    ScraperConfig.Name := "Indeed"; ScraperConfig.Enabled := true;
    ScraperConfig.URL := "https://indeed.com"; ScraperConfig.Type_ := "public";
    ScraperConfig.RateLimit := 10; ScraperConfig.Timeout := 30 * Second;
    ScraperConfig.Headers := {["Accept" := "application/rss+xml"]};
    ScraperConfig.RequiresAuth := false; ScraperConfig.Credentials := ∅ |}]> configs in
  {| configs := configs |}.

Definition NewScraperRegistry : ScraperRegistry := loadDefaultConfigs {| configs := ∅ |}.

(** The [switch] of [CreateScraper]. *)
Definition implementation (name : string) : option scraper_impl :=
  if String.eqb name "remoteok" then Some RemoteOK_impl
  else if String.eqb name "weworkremotely" then Some WeWorkRemotely_impl
  else if String.eqb name "linkedin" then Some LinkedIn_impl
  else if String.eqb name "jobstreet" then Some (JobStreet_impl "id")
  else None.

Definition CreateScraper (sr : ScraperRegistry) (name : string) : option scraper_impl * error :=
  match configs sr !! name with
  | None => (None, Some ("scraper configuration not found: " +:+ name))
  | Some config =>
      if negb (ScraperConfig.Enabled config)
      then (None, Some ("scraper is disabled: " +:+ name))
      else match implementation name with
           | Some scraper => (Some scraper, None)
           | None => (None, Some ("scraper implementation not found: " +:+ name))
           end
  end.

(** [range_configs] is the order in which the [range] loop visits the
    configurations. *)
Definition GetEnabledScrapers
    (range_configs : gmap string ScraperConfig.t → list (string * ScraperConfig.t))
    (sr : ScraperRegistry) : list scraper_impl :=
  foldl (λ scrapers '(name, config),
           if ScraperConfig.Enabled config then
             match CreateScraper sr name with
             | (Some scraper, None) => scrapers ++ [scraper]
             | _ => scrapers
             end
           else scrapers) [] (range_configs (configs sr)).

Definition EnableScraper (sr : ScraperRegistry) (name : string) : ScraperRegistry * error :=
  match configs sr !! name with
  | None => (sr, Some ("scraper not found: " +:+ name))
  | Some config =>
      ({| configs := <[name := ScraperConfig.with_Enabled config true]> (configs sr) |}, None)
  end.

Definition DisableScraper (sr : ScraperRegistry) (name : string) : ScraperRegistry * error :=
  match configs sr !! name with
  | None => (sr, Some ("scraper not found: " +:+ name))
  | Some config =>
      ({| configs := <[name := ScraperConfig.with_Enabled config false]> (configs sr) |}, None)
  end.

Definition GetScraperConfig (sr : ScraperRegistry) (name : string) : ScraperConfig.t * error :=
  match configs sr !! name with
  | None => (ScraperConfig.zero, Some ("scraper not found: " +:+ name))
  | Some config => (config, None)
  end.

Definition AddCustomScraper (sr : ScraperRegistry) (name : string) (config : ScraperConfig.t)
    : ScraperRegistry :=
  {| configs := <[name := config]> (configs sr) |}.


(** The [range] order is some order of the entries of the map. *)
Definition range_ok {V} (range : gmap string V → list (string * V)) : Prop :=
  ∀ m, range m ≡ₚ map_to_list m.

(** The scraper [GetEnabledScrapers] appends for one entry of the map. *)
Definition enabled_scraper (entry : string * ScraperConfig.t) : option scraper_impl :=
  if ScraperConfig.Enabled entry.2 then implementation entry.1 else None.

(** ** The LinkedIn scraper *)

Module LinkedInScraper.
Record t : Type := {
  name : string;
  baseURL : string;
  sessionCookies : gmap string string;
  authenticated : bool
}.

(** [Authenticate] prints its warning and returns an error; the scraper is
    returned as the call leaves it. *)
Definition Authenticate (l : t) (username password : string) : t * error :=
  (l, Some "LinkedIn scraping requires proper authentication - use official API instead").

(** [posted] is [time.Now().AddDate(0, 0, -2)]. *)
Definition generateLinkedInDemoJobs (l : t) (filters : SearchFilters.t) (posted : Z)
    : list Job.t := [
  {| Job.ID := "linkedin-demo-1"; Job.Title := "Senior Software Engineer";
     Job.Company := "Microsoft"; Job.Location := "Seattle, WA";
     Job.Description := "We're looking for a Senior Software Engineer to join our team...";
     Job.Requirements := []; Job.Skills := ["C#"; "Azure"; "JavaScript"; "React"];
     Job.SalaryMin := 120000; Job.SalaryMax := 180000; Job.SalaryCurrency := "USD";
     Job.DegreeRequired := true; Job.ExperienceLevel := "senior";
     Job.RemoteOption := "hybrid"; Job.PostedDate := posted;
     Job.URL := "https://linkedin.com/jobs/view/demo-1";
     Job.Source := name l; Job.CompanySize := "";
     Job.Industry := "Technology"; Job.Benefits := [] |}
].

Definition Scrape (l : t) (posted : Z) (ctx : Context) (filters : SearchFilters.t)
    : list Job.t * error :=
  if negb (authenticated l)
  then ([], Some "LinkedIn scraper requires authentication")
  else (generateLinkedInDemoJobs l filters posted, None).

(** Any number of [Authenticate] calls. *)
Definition Authenticate_each (l : t) (credentials : list (string * string)) : t :=
  foldl (λ l '(username, password), (Authenticate l username password).1) l credentials.

End LinkedInScraper.

Definition NewLinkedInScraper : LinkedInScraper.t := {|
  LinkedInScraper.name := "LinkedIn";
  LinkedInScraper.baseURL := "https://linkedin.com";
  LinkedInScraper.sessionCookies := ∅;
  LinkedInScraper.authenticated := false
|}.

(** The scraper behind the [JobScraper] interface. *)
Definition LinkedIn_JobScraper (l : LinkedInScraper.t) (posted : Z) : JobScraper := {|
  Name := LinkedInScraper.name l;
  Scrape := LinkedInScraper.Scrape l posted;
  GetBaseURL := LinkedInScraper.baseURL l
|}.

(** ** More of packages [strings] and [strconv], on ASCII text *)

(** The ASCII bytes [unicode.IsSpace] accepts: tab, line feed, vertical tab,
    form feed, carriage return and space. *)
Definition isSpace (c : ascii) : bool :=
  let n := nat_of_ascii c in
  ((9 <=? n) && (n <=? 13) || (n =? 32))%nat.

Fixpoint TrimLeft_space (s : string) : string :=
  match s with
  | EmptyString => EmptyString
  | String c s' => if isSpace c then TrimLeft_space s' else s
  end.

Fixpoint TrimRight_space (s : string) : string :=
  match s with
  | EmptyString => EmptyString
  | String c s' =>
      match TrimRight_space s' with
      | EmptyString => if isSpace c then EmptyString else String c EmptyString
      | kept => String c kept
      end
  end.

Definition TrimSpace (s : string) : string := TrimRight_space (TrimLeft_space s).

(** [strings.Split] with a separator of one byte: [piece] is the piece read
    so far. *)
Fixpoint Split_from (piece s : string) (sep : ascii) : list string :=
  match s with
  | EmptyString => [piece]
  | String c s' =>
      if Ascii.eqb c sep then piece :: Split_from "" s' sep
      else Split_from (piece +:+ String c "") s' sep
  end.

Definition Split (s : string) (sep : ascii) : list string := Split_from "" s sep.

(** [strings.ReplaceAll] for a non-empty [old]: the occurrences are taken
    from the left and do not overlap; [skip] bytes of the occurrence just
    replaced are still to be passed over. *)
Fixpoint ReplaceAll_from (skip : nat) (s old new : string) : string :=
  match s with
  | EmptyString => EmptyString
  | String c s' =>
      match skip with
      | S skip' => ReplaceAll_from skip' s' old new
      | O =>
          if String.prefix old s
          then new +:+ ReplaceAll_from (String.length old - 1) s' old new
          else String c (ReplaceAll_from 0 s' old new)
      end
  end.

Definition ReplaceAll (s old new : string) : string := ReplaceAll_from 0 s old new.

(** The value of a string of decimal digits after the digits [acc]. *)
Fixpoint digits_value (acc : Z) (s : string) : option Z :=
  match s with
  | EmptyString => Some acc
  | String c s' =>
      let n := nat_of_ascii c in
      if ((48 <=? n) && (n <=? 57))%nat
      then digits_value (acc * 10 + Z.of_nat (n - 48)) s'
      else None
  end.

(** [strconv.Atoi]: an optional sign and at least one decimal digit, the
    value within the range of [int]; [None] stands for an error. *)
Definition Atoi (s : string) : option Z :=
  let signed (negative : bool) (body : string) : option Z :=
    match body with
    | EmptyString => None
    | _ =>
        match digits_value 0 body with
        | Some n =>
            let val := if negative then - n else n in
            if (- 2 ^ 63 <=? val) && (val <? 2 ^ 63) then Some val else None
        | None => None
        end
    end in
  match s with
  | EmptyString => None
  | String c s' =>
      if Ascii.eqb c "-" then signed true s'
      else if Ascii.eqb c "+" then signed false s'
      else signed false s
  end.

(** ** The helpers of [BaseScraper] *)

Definition commonSkills : list string := [
  (* Programming Languages *)
  "go"; "golang"; "python"; "javascript"; "typescript"; "java"; "c++"; "c#"; "rust"; "php";
  "ruby"; "swift"; "kotlin";
  (* Frameworks *)
  "react"; "angular"; "vue"; "node.js"; "express"; "django"; "flask"; "spring"; "gin";
  "fiber"; "echo";
  (* Databases *)
  "mysql"; "postgresql"; "mongodb"; "redis"; "elasticsearch"; "cassandra"; "sqlite";
  (* Cloud & DevOps *)
  "aws"; "azure"; "gcp"; "docker"; "kubernetes"; "jenkins"; "gitlab"; "github"; "terraform";
  "ansible";
  (* Other Technologies *)
  "git"; "linux"; "unix"; "sql"; "nosql"; "rest"; "graphql"; "microservices"; "api"; "json";
  "xml";
  (* Methodologies *)
  "agile"; "scrum"; "devops"; "ci/cd"; "tdd"; "bdd"
].

(** The loop shared by the skill extractors: a candidate is appended when
    [found] holds of it and its [key] is not in the set yet. *)
Definition collect_skills (found : string → bool) (key : string → string)
    (candidates : list string) : list string :=
  (foldl (λ '(skills, skillSet) candidate,
            if found candidate && negb (lookup_bool skillSet (key candidate))
            then (skills ++ [candidate], <[key candidate := true]> skillSet)
            else (skills, skillSet))
         ([], (∅ : gmap string bool)) candidates).1.

Definition ExtractSkills (description : string) : list string :=
  let description := ToLower description in
  collect_skills (λ skill, Contains description (ToLower skill)) id commonSkills.

Definition DetermineExperienceLevel (title description : string) : string :=
  let titleLower := ToLower title in
  let descLower := ToLower description in
  (* Senior/Lead indicators *)
  if Contains titleLower "senior" || Contains titleLower "lead"
     || Contains titleLower "principal" || Contains titleLower "architect"
     || Contains descLower "5+ years" || Contains descLower "7+ years"
  then "senior" else
  (* Entry level indicators *)
  if Contains titleLower "junior" || Contains titleLower "entry"
     || Contains titleLower "graduate" || Contains titleLower "intern"
     || Contains descLower "0-2 years" || Contains descLower "no experience"
  then "entry" else
  (* Mid-level indicators *)
  if Contains descLower "2-5 years" || Contains descLower "3+ years"
  then "mid"
  else "mid".

Definition degreeRequired : list string := [
  "bachelor's degree required";
  "master's degree required";
  "degree required";
  "university degree required";
  "college degree required"
].

Definition flexibleReqs : list string := [
  "degree preferred";
  "or equivalent experience";
  "degree or experience";
  "education or experience"
].

Definition CheckDegreeRequirement (description : string) : bool :=
  let descLower := ToLower description in
  if existsb (λ req, Contains descLower req) degreeRequired then true
  else if existsb (λ req, Contains descLower req) flexibleReqs then false
  else Contains descLower "degree" || Contains descLower "bachelor"
       || Contains descLower "master".

(** ** The RemoteOK scraper *)

Module RemoteOKJob.
Record t : Type := {
  ID : string;
  URL : string;
  Position : string;
  Company : string;
  CompanyLogo : string;
  Location : string;
  Tags : list string;
  Date : string;
  Description : string;
  Apply : string;
  Salary : string
}.
End RemoteOKJob.

Module RemoteOKScraper.

Definition parseSalary (salaryStr : string) : Z * Z :=
  (* Remove common currency symbols and formatting *)
  let cleaned := ReplaceAll salaryStr "$" "" in
  let cleaned := ReplaceAll cleaned "," "" in
  let cleaned := ReplaceAll cleaned "k" "000" in
  let cleaned := ReplaceAll cleaned "K" "000" in
  (* Single salary value *)
  let single :=
    match Atoi (TrimSpace cleaned) with
    | Some val => (val, val)
    | None => (0, 0)
    end in
  if Contains cleaned "-" then
    match Split cleaned "-" with
    | [part0; part1] =>
        match Atoi (TrimSpace part0), Atoi (TrimSpace part1) with
        | Some min, Some max => (min, max)
        | _, _ => single
        end
    | _ => single
    end
  else single.

Definition technicalSkills : list string := [
  "javascript"; "python"; "java"; "go"; "golang"; "rust"; "php"; "ruby"; "swift"; "kotlin";
  "react"; "angular"; "vue"; "node"; "django"; "flask"; "spring"; "express";
  "mysql"; "postgresql"; "mongodb"; "redis"; "elasticsearch";
  "aws"; "azure"; "gcp"; "docker"; "kubernetes"; "jenkins";
  "git"; "linux"; "sql"; "nosql"; "api"; "rest"; "graphql"
].

Definition isTechnicalSkill (tag : string) : bool :=
  existsb (λ skill, Contains tag skill) technicalSkills.

Definition extractSkillsFromTags (tags : list string) : list string :=
  collect_skills (λ tag, isTechnicalSkill (ToLower tag)) ToLower tags.

(** [time_Parse] is [time.Parse] with the layout of the scraper, [None] for
    an error; [now] is [time.Now()]. *)
Definition convertRemoteOKJob (time_Parse : string → option Z) (now : Z)
    (rJob : RemoteOKJob.t) : Job.t :=
  (* Parse salary from string *)
  let '(salaryMin, salaryMax) :=
    if nonempty_string (RemoteOKJob.Salary rJob)
    then parseSalary (RemoteOKJob.Salary rJob) else (0, 0) in
  (* Determine experience level from tags and position *)
  let expLevel :=
    DetermineExperienceLevel (RemoteOKJob.Position rJob) (Join (RemoteOKJob.Tags rJob) " ") in
  (* Extract skills from tags *)
  let skills := extractSkillsFromTags (RemoteOKJob.Tags rJob) in
  (* Parse date *)
  let postedDate :=
    if nonempty_string (RemoteOKJob.Date rJob)
    then default now (time_Parse (RemoteOKJob.Date rJob)) else now in
  {| Job.ID := "remoteok-" +:+ RemoteOKJob.ID rJob;
     Job.Title := RemoteOKJob.Position rJob;
     Job.Company := RemoteOKJob.Company rJob;
     Job.Location := "Remote";
     Job.Description := RemoteOKJob.Description rJob;
     Job.Requirements := [];
     Job.Skills := skills;
     Job.SalaryMin := salaryMin;
     Job.SalaryMax := salaryMax;
     Job.SalaryCurrency := "USD";
     Job.DegreeRequired := CheckDegreeRequirement (RemoteOKJob.Description rJob);
     Job.ExperienceLevel := expLevel;
     Job.RemoteOption := "remote";
     Job.PostedDate := postedDate;
     Job.URL := "https://remoteok.io/remote-jobs/" +:+ RemoteOKJob.ID rJob;
     Job.Source := "RemoteOK";
     Job.CompanySize := "";
     Job.Industry := "Technology";
     Job.Benefits := [] |}.

Definition matchesFilters (job : Job.t) (filters : SearchFilters.t) : bool :=
  (* Job title filter *)
  if nonempty_string (SearchFilters.JobTitle filters)
     && negb (Contains (ToLower (Job.Title job)) (ToLower (SearchFilters.JobTitle filters)))
  then false else
  (* Keywords filter *)
  if (0 <? Z.of_nat (length (SearchFilters.Keywords filters)))
     && negb (let jobText := ToLower (Job.Title job +:+ " " +:+ Job.Description job
                                      +:+ " " +:+ Join (Job.Skills job) " ") in
              existsb (λ keyword, Contains jobText (ToLower keyword))
                      (SearchFilters.Keywords filters))
  then false else
  (* Salary filters *)
  if (SearchFilters.MinSalary filters >? 0)
     && ((Job.SalaryMin job =? 0) || (Job.SalaryMin job <? SearchFilters.MinSalary filters))
  then false else
  if (SearchFilters.MaxSalary filters >? 0)
     && ((Job.SalaryMax job =? 0) || (Job.SalaryMax job >? SearchFilters.MaxSalary filters))
  then false else
  (* Experience level filter *)
  if nonempty_string (SearchFilters.ExperienceLevel filters)
     && negb (EqualFold (Job.ExperienceLevel job) (SearchFilters.ExperienceLevel filters))
  then false else
  (* Degree requirement filter *)
  if match SearchFilters.DegreeRequired filters with
     | Some wanted => negb (Bool.eqb (Job.DegreeRequired job) wanted)
     | None => false
     end
  then false else
  (* Skills filter *)
  if (0 <? Z.of_nat (length (SearchFilters.Skills filters)))
     && negb (let jobSkills :=
                foldl (λ m skill, <[ToLower skill := true]> m) (∅ : gmap string bool)
                      (Job.Skills job) in
              forallb (λ requiredSkill, lookup_bool jobSkills (ToLower requiredSkill))
                      (SearchFilters.Skills filters))
  then false else
  true.

(** The loop of [Scrape] over the decoded response; [nows] holds the reading
    of [time.Now()] for each item, [0] where the list is too short. *)
Definition scraped_jobs (time_Parse : string → option Z) (nows : list Z)
    (remoteJobs : list RemoteOKJob.t) (filters : SearchFilters.t) : list Job.t :=
  foldl (λ jobs '(i, rJob),
           (* Skip the first item which is usually metadata *)
           if negb (nonempty_string (RemoteOKJob.ID rJob)) then jobs
           else
             let job := convertRemoteOKJob time_Parse (nows !!! i) rJob in
             (* Apply basic filtering *)
             if matchesFilters job filters then jobs ++ [job] else jobs)
        [] (imap pair remoteJobs).

End RemoteOKScraper.

(** ** The WeWorkRemotely scraper *)

Module WeWorkRemotelyScraper.

Definition matchesFilters (job : Job.t) (filters : SearchFilters.t) : bool :=
  (* Job title filter *)
  if nonempty_string (SearchFilters.JobTitle filters)
     && negb (Contains (ToLower (Job.Title job)) (ToLower (SearchFilters.JobTitle filters)))
  then false else
  (* Keywords filter *)
  if (0 <? Z.of_nat (length (SearchFilters.Keywords filters)))
     && negb (let jobText := ToLower (Job.Title job +:+ " " +:+ Job.Description job
                                      +:+ " " +:+ Join (Job.Skills job) " ") in
              existsb (λ keyword, Contains jobText (ToLower keyword))
                      (SearchFilters.Keywords filters))
  then false else
  (* Salary filters *)
  if (SearchFilters.MinSalary filters >? 0)
     && ((Job.SalaryMin job =? 0) || (Job.SalaryMin job <? SearchFilters.MinSalary filters))
  then false else
  if (SearchFilters.MaxSalary filters >? 0)
     && ((Job.SalaryMax job =? 0) || (Job.SalaryMax job >? SearchFilters.MaxSalary filters))
  then false else
  (* Experience level filter *)
  if nonempty_string (SearchFilters.ExperienceLevel filters)
     && negb (EqualFold (Job.ExperienceLevel job) (SearchFilters.ExperienceLevel filters))
  then false else
  (* Degree requirement filter *)
  if match SearchFilters.DegreeRequired filters with
     | Some wanted => negb (Bool.eqb (Job.DegreeRequired job) wanted)
     | None => false
     end
  then false else
  true.

End WeWorkRemotelyScraper.

(** ** The mock scraper *)

Module MockJobScraper.

Definition matchesBasicFilters (job : Job.t) (filters : SearchFilters.t) : bool :=
  (* Job title filter *)
  if nonempty_string (SearchFilters.JobTitle filters)
     && negb (Contains (ToLower (Job.Title job)) (ToLower (SearchFilters.JobTitle filters)))
  then false else
  (* Location filter (single location) *)
  if nonempty_string (SearchFilters.Location filters)
     && negb (Contains (ToLower (Job.Location job)) (ToLower (SearchFilters.Location filters)))
  then false else
  (* Multiple locations filter *)
  if (0 <? Z.of_nat (length (SearchFilters.Locations filters)))
     && negb (existsb (λ filterLocation,
                         Contains (ToLower (Job.Location job)) (ToLower filterLocation))
                      (SearchFilters.Locations filters))
  then false else
  (* Remote filter *)
  if SearchFilters.RemoteOnly filters
     && negb (Contains (ToLower (Job.RemoteOption job)) "remote")
  then false else
  (* Experience level filter *)
  if nonempty_string (SearchFilters.ExperienceLevel filters)
     && negb (EqualFold (Job.ExperienceLevel job) (SearchFilters.ExperienceLevel filters))
  then false else
  (* Degree requirement filter *)
  if match SearchFilters.DegreeRequired filters with
     | Some wanted => negb (Bool.eqb (Job.DegreeRequired job) wanted)
     | None => false
     end
  then false else
  true.

End MockJobScraper.

(** An item of the RemoteOK response, for the examples. *)
Definition example_RemoteOKJob : RemoteOKJob.t := {|
  RemoteOKJob.ID := "7"; RemoteOKJob.URL := "";
  RemoteOKJob.Position := "Go Team Lead"; RemoteOKJob.Company := "Acme";
  RemoteOKJob.CompanyLogo := ""; RemoteOKJob.Location := "Berlin";
  RemoteOKJob.Tags := ["Golang"; "golang"; "remote"];
  RemoteOKJob.Date := ""; RemoteOKJob.Description := "";
  RemoteOKJob.Apply := ""; RemoteOKJob.Salary := "80k-120k"
|}.

(** ** The API handlers *)

(** What a handler writes: the JSON encoding of a value, or an error with
    its status code. *)
Inductive reply (A : Type) : Type :=
  | Json (body : A)
  | HttpError (message : string) (code : Z).
Arguments Json {A} _.
Arguments HttpError {A} _ _.

Module JobHandler.

(** [Get] is [r.URL.Query().Get]: the first value of a key, the empty string
    for a key that is absent.  A field set under [if value != ""] to [value]
    is [value] in both cases. *)
Definition parseSearchFilters (Get : string → string) : SearchFilters.t := {|
  (* Job title *)
  SearchFilters.JobTitle := Get "title";
  (* Keywords *)
  SearchFilters.Keywords :=
    (let keywords := Get "keywords" in
     if nonempty_string keywords then TrimSpace <$> Split keywords "," else []);
  (* Location *)
  SearchFilters.Location := Get "location";
  (* Multiple locations *)
  SearchFilters.Locations :=
    (let locations := Get "locations" in
     if nonempty_string locations then TrimSpace <$> Split locations "," else []);
  (* Remote only *)
  SearchFilters.RemoteOnly := String.eqb (Get "remote_only") "true";
  (* Salary filters *)
  SearchFilters.MinSalary :=
    (let minSalary := Get "min_salary" in
     if nonempty_string minSalary then default 0 (Atoi minSalary) else 0);
  SearchFilters.MaxSalary :=
    (let maxSalary := Get "max_salary" in
     if nonempty_string maxSalary then default 0 (Atoi maxSalary) else 0);
  (* Experience level *)
  SearchFilters.ExperienceLevel := Get "experience_level";
  (* Degree required *)
  SearchFilters.DegreeRequired :=
    (let degreeReq := Get "degree_required" in
     if nonempty_string degreeReq then
       if String.eqb degreeReq "true" then Some true
       else if String.eqb degreeReq "false" then Some false
       else None
     else None);
  (* Skills *)
  SearchFilters.Skills :=
    (let skills := Get "skills" in
     if nonempty_string skills then TrimSpace <$> Split skills "," else []);
  (* Company size *)
  SearchFilters.CompanySize := Get "company_size";
  (* Industry *)
  SearchFilters.Industry := Get "industry";
  (* Job category *)
  SearchFilters.JobCategory := Get "job_category";
  (* Custom job sites *)
  SearchFilters.JobSites :=
    (let jobSites := Get "job_sites" in
     if nonempty_string jobSites then TrimSpace <$> Split jobSites "," else []);
  (* Pagination *)
  SearchFilters.Limit :=
    (let limit := Get "limit" in
     if nonempty_string limit then
       match Atoi limit with
       | Some val => if val >? 0 then val else 50
       | None => 50
       end
     else 50);
  SearchFilters.Offset :=
    (let offset := Get "offset" in
     if nonempty_string offset then
       match Atoi offset with
       | Some val => if val >=? 0 then val else 0
       | None => 0
       end
     else 0)
|}.

(** [response.Analytics.TotalJobs = n] *)
Definition with_TotalJobs {F} (response : SearchResponse.t F) (n : Z) : SearchResponse.t F := {|
  SearchResponse.Jobs := SearchResponse.Jobs response;
  SearchResponse.Total := SearchResponse.Total response;
  SearchResponse.Analytics := {|
    JobAnalytics.TotalJobs := n;
    JobAnalytics.AverageSalary := JobAnalytics.AverageSalary (SearchResponse.Analytics response);
    JobAnalytics.SalaryRange := JobAnalytics.SalaryRange (SearchResponse.Analytics response);
    JobAnalytics.TopSkills := JobAnalytics.TopSkills (SearchResponse.Analytics response);
    JobAnalytics.TopCompanies := JobAnalytics.TopCompanies (SearchResponse.Analytics response);
    JobAnalytics.ExperienceLevels :=
      JobAnalytics.ExperienceLevels (SearchResponse.Analytics response);
    JobAnalytics.RemoteOptions := JobAnalytics.RemoteOptions (SearchResponse.Analytics response);
    JobAnalytics.DegreeRequirements :=
      JobAnalytics.DegreeRequirements (SearchResponse.Analytics response);
    JobAnalytics.LocationDistribution :=
      JobAnalytics.LocationDistribution (SearchResponse.Analytics response);
    JobAnalytics.IndustryDistribution :=
      JobAnalytics.IndustryDistribution (SearchResponse.Analytics response)
  |};
  SearchResponse.Filters := SearchResponse.Filters response
|}.

(** The part of [SearchJobs] and [AdvancedSearch] after the filters are
    read: scrape, store, search, overwrite [TotalJobs].  The storage is
    returned as the handler leaves it. *)
Definition scrape_and_search {F} `{Float64 F} (rt : GoRuntime) (scrapers : list JobScraper)
    (ctx : Context) (s : InMemoryStorage) (filters : SearchFilters.t)
    : result (InMemoryStorage * reply (SearchResponse.t F)) :=
  (* Scrape jobs from all sources *)
  let results := ScrapeAll scrapers ctx filters in
  let allJobs := GetAllJobs results in
  (* Store jobs in cache *)
  let s := (Store s allJobs).1 in
  (* Search stored jobs *)
  '(response, err) ← Search rt s filters;
  match err with
  | Some _ => Ok (s, HttpError "Error searching jobs" 500)
  | None =>
      (* Add scraping results info *)
      Ok (s, Json (with_TotalJobs response (Z.of_nat (length allJobs))))
  end.

Definition SearchJobs {F} `{Float64 F} (rt : GoRuntime) (scrapers : list JobScraper)
    (ctx : Context) (s : InMemoryStorage) (Get : string → string)
    : result (InMemoryStorage * reply (SearchResponse.t F)) :=
  scrape_and_search rt scrapers ctx s (parseSearchFilters Get).

(** [filters] are the filters of the decoded request body. *)
Definition AdvancedSearch {F} `{Float64 F} (rt : GoRuntime) (scrapers : list JobScraper)
    (ctx : Context) (s : InMemoryStorage) (filters : SearchFilters.t)
    : result (InMemoryStorage * reply (SearchResponse.t F)) :=
  scrape_and_search rt scrapers ctx s filters.

(** The first job of the list with the given ID. *)
Fixpoint find_by_ID (jobs : list Job.t) (jobID : string) : option Job.t :=
  match jobs with
  | [] => None
  | job :: rest => if String.eqb (Job.ID job) jobID then Some job else find_by_ID rest jobID
  end.

(** [F] is the type of the floating-point numbers of the response the
    handler reads the jobs from. *)
Definition GetJob (F : Type) `{Float64 F} (rt : GoRuntime) (s : InMemoryStorage)
    (jobID : string) : result (reply Job.t) :=
  (* Search for the job by ID *)
  let filters := with_paging no_filters 0 1000 in
  '(response, err) ← Search (F:=F) rt s filters;
  match err with
  | Some _ => Ok (HttpError "Error searching jobs" 500)
  | None =>
      (* Find job by ID *)
      match find_by_ID (SearchResponse.Jobs response) jobID with
      | Some job => Ok (Json job)
      | None => Ok (HttpError "Job not found" 404)
      end
  end.

Definition GetAnalytics {F} `{Float64 F} (rt : GoRuntime) (s : InMemoryStorage)
    : result (reply (JobAnalytics.t F)) :=
  let filters := with_paging no_filters 0 1000 in
  '(response, err) ← Search rt s filters;
  match err with
  | Some _ => Ok (HttpError "Error getting analytics" 500)
  | None => Ok (Json (SearchResponse.Analytics response))
  end.

End JobHandler.

(** The query with the given value under every one of [keys] and no other
    parameter. *)
Definition query_of (keys : list string) (value : string) : string → string :=
  λ key, if bool_decide (key ∈ keys) then value else "".

(** ** Interpolation by the index *)


(** ** Properties *)

(** *** [Store] *)

Section Store_facts.

Implicit Types (existing : gmap string bool) (seen : list string).
Implicit Types (stored incoming : list Job.t).

Lemma lookup_bool_insert existing (u v : string) :
  lookup_bool (<[u := true]> existing) v = true ↔ u = v ∨ lookup_bool existing v = true.
Proof.
  unfold lookup_bool. destruct (decide (u = v)) as [->|Hne].
  - rewrite lookup_insert_eq. simpl. tauto.
  - rewrite lookup_insert_ne by done. split; [tauto|]. intros [?|?]; done.
Qed.

Lemma foldl_insert_true {A} (key : A → string) (l : list A) existing (v : string) :
  lookup_bool (foldl (λ m x, <[key x := true]> m) existing l) v = true
  ↔ lookup_bool existing v = true ∨ v ∈ key <$> l.
Proof.
  revert existing. induction l as [|x l IH]; intros existing; simpl.
  - rewrite elem_of_nil. tauto.
  - rewrite IH, lookup_bool_insert, elem_of_cons. intuition congruence.
Qed.

Lemma key_set_spec {A} (key : A → string) (l : list A) (v : string) :
  lookup_bool (foldl (λ m x, <[key x := true]> m) ∅ l) v = true ↔ v ∈ key <$> l.
Proof.
  rewrite foldl_insert_true. unfold lookup_bool. rewrite lookup_empty. simpl.
  intuition discriminate.
Qed.

Lemma first_by_URL_ext seen1 seen2 incoming :
  (∀ u, u ∈ seen1 ↔ u ∈ seen2) →
  first_by_URL seen1 incoming = first_by_URL seen2 incoming.
Proof.
  revert seen1 seen2. induction incoming as [|job rest IH]; intros seen1 seen2 Hs; [done|].
  simpl. rewrite (bool_decide_ext _ _ (Hs (Job.URL job))).
  case_bool_decide; [by apply IH|].
  f_equal. apply IH. intros u. rewrite !elem_of_cons, Hs. done.
Qed.

Lemma Store_loop_spec existing seen stored incoming :
  (∀ u, lookup_bool existing u = true ↔ u ∈ seen) →
  Store_loop existing stored incoming = stored ++ first_by_URL seen incoming.
Proof.
  revert existing seen stored.
  induction incoming as [|job rest IH]; intros existing seen stored Hs; simpl.
  - by rewrite app_nil_r.
  - case_bool_decide as Hin.
    + apply Hs in Hin. rewrite Hin. simpl. by apply IH.
    + destruct (lookup_bool existing (Job.URL job)) eqn:Hl.
      { exfalso. apply Hin, Hs, Hl. }
      simpl. rewrite (IH _ (Job.URL job :: seen)).
      * by rewrite <- app_assoc.
      * intros u. rewrite lookup_bool_insert, elem_of_cons, Hs. intuition congruence.
Qed.

Lemma Store_jobs (s : InMemoryStorage) incoming :
  jobs (Store s incoming).1 = jobs s ++ first_by_URL (Job.URL <$> jobs s) incoming.
Proof.
  unfold Store. simpl. apply Store_loop_spec. intros u.
  apply (key_set_spec Job.URL).
Qed.

Lemma first_by_URL_fresh seen incoming (u : string) :
  u ∈ Job.URL <$> first_by_URL seen incoming → (u ∉ seen) ∧ u ∈ Job.URL <$> incoming.
Proof.
  revert seen. induction incoming as [|job rest IH]; intros seen; simpl.
  - by rewrite elem_of_nil.
  - case_bool_decide as Hin.
    + intros [? ?]%IH. split; [done|]. by right.
    + rewrite fmap_cons, !elem_of_cons. intros [->|Hu].
      * split; [done|by left].
      * apply IH in Hu as [Hn ?]. split; [|by right].
        rewrite elem_of_cons in Hn. tauto.
Qed.

Lemma first_by_URL_NoDup seen incoming :
  NoDup (Job.URL <$> first_by_URL seen incoming).
Proof.
  revert seen. induction incoming as [|job rest IH]; intros seen; simpl.
  - constructor.
  - case_bool_decide; [apply IH|].
    rewrite fmap_cons. constructor; [|apply IH].
    intros [Hn _]%first_by_URL_fresh. apply Hn. by left.
Qed.

Lemma first_by_URL_covers seen incoming (u : string) :
  u ∈ Job.URL <$> incoming → u ∈ seen ∨ u ∈ Job.URL <$> first_by_URL seen incoming.
Proof.
  revert seen. induction incoming as [|job rest IH]; intros seen; simpl.
  - by rewrite elem_of_nil.
  - rewrite elem_of_cons. intros [->|Hu].
    + case_bool_decide; [by left|]. right. rewrite fmap_cons. by left.
    + case_bool_decide.
      * by apply IH.
      * destruct (IH (Job.URL job :: seen) Hu) as [Hs|Hs].
        -- rewrite elem_of_cons in Hs. destruct Hs as [->|Hs]; [|by left].
           right. rewrite fmap_cons. by left.
        -- right. rewrite fmap_cons. by right.
Qed.

Lemma first_by_URL_all_seen seen incoming :
  (∀ job, job ∈ incoming → Job.URL job ∈ seen) → first_by_URL seen incoming = [].
Proof.
  induction incoming as [|job rest IH]; intros Hall; simpl; [done|].
  rewrite bool_decide_eq_true_2 by (apply Hall; by left).
  apply IH. intros j Hj. apply Hall. by right.
Qed.

Lemma first_by_URL_app seen a b :
  first_by_URL seen (a ++ b)
  = first_by_URL seen a ++ first_by_URL (seen ++ (Job.URL <$> first_by_URL seen a)) b.
Proof.
  revert seen. induction a as [|job rest IH]; intros seen; simpl.
  - by rewrite app_nil_r.
  - case_bool_decide; [apply IH|].
    rewrite IH. simpl. f_equal. f_equal. apply first_by_URL_ext.
    intros u. rewrite !elem_of_app, !elem_of_cons, elem_of_app. tauto.
Qed.

Lemma Store_NoDup (s : InMemoryStorage) incoming :
  NoDup (Job.URL <$> jobs s) → NoDup (Job.URL <$> jobs (Store s incoming).1).
Proof.
  intros Hs. rewrite Store_jobs, fmap_app. apply NoDup_app. split; [done|].
  split; [|apply first_by_URL_NoDup].
  intros u Hu [Hn _]%first_by_URL_fresh. done.
Qed.

Lemma Store_Store (s : InMemoryStorage) a b :
  (Store (Store s a).1 b).1 = (Store s (a ++ b)).1.
Proof.
  assert (∀ x y : InMemoryStorage, jobs x = jobs y → x = y) as Hext.
  { intros [x] [y]. simpl. by intros ->. }
  apply Hext. rewrite !Store_jobs, first_by_URL_app, fmap_app, <- app_assoc. done.
Qed.

Lemma Store_nil (s : InMemoryStorage) : (Store s []).1 = s.
Proof. destruct s as [l]. unfold Store. simpl. done. Qed.

Lemma StoreAll_concat (s : InMemoryStorage) (batches : list (list Job.t)) :
  StoreAll s batches = (Store s (concat batches)).1.
Proof.
  revert s. induction batches as [|b rest IH]; intros s.
  - symmetry. apply Store_nil.
  - change (StoreAll s (b :: rest)) with (StoreAll (Store s b).1 rest).
    rewrite IH. apply Store_Store.
Qed.

Lemma StoreAll_NoDup (batches : list (list Job.t)) :
  NoDup (Job.URL <$> jobs (StoreAll NewInMemoryStorage batches)).
Proof.
  rewrite StoreAll_concat. apply Store_NoDup. simpl. constructor.
Qed.

End Store_facts.

(** C1. Whatever batches have been stored, no two records of the store
    share a URL.  A further [Store] returns no error, leaves the records
    already stored where they are and appends, in order, exactly the
    incoming records whose URL is not yet present, the first one for each
    URL; it changes nothing when every incoming URL is already stored; and
    the store reached does not depend on how the records were split into
    batches. *)
Theorem Store_URL_unique (batches : list (list Job.t)) (incoming : list Job.t) :
  let s := StoreAll NewInMemoryStorage batches in
  NoDup (Job.URL <$> jobs s)
  ∧ (Store s incoming).2 = None
  ∧ jobs (Store s incoming).1 = jobs s ++ first_by_URL (Job.URL <$> jobs s) incoming
  ∧ NoDup (Job.URL <$> jobs (Store s incoming).1)
  ∧ (∀ job, job ∈ incoming → Job.URL job ∈ Job.URL <$> jobs (Store s incoming).1)
  ∧ ((∀ job, job ∈ incoming → Job.URL job ∈ Job.URL <$> jobs s) → (Store s incoming).1 = s)
  ∧ s = (Store NewInMemoryStorage (concat batches)).1.
Proof.
  intros s. pose proof (StoreAll_NoDup batches) as Hnd. fold s in Hnd.
  split; [done|]. split; [done|]. split; [apply Store_jobs|].
  split; [by apply Store_NoDup|]. split; [|split].
  - intros job Hjob. rewrite Store_jobs, fmap_app, elem_of_app.
    apply first_by_URL_covers. by apply list_elem_of_fmap_2.
  - intros Hall. destruct s as [l] eqn:Hs.
    assert (jobs (Store {| jobs := l |} incoming).1 = l) as Hj.
    { rewrite Store_jobs. simpl. rewrite first_by_URL_all_seen by done. apply app_nil_r. }
    unfold Store in *. simpl in *. by rewrite Hj.
  - apply StoreAll_concat.
Qed.

(** *** [ScrapeAll] and [GetAllJobs] *)

Section merge_facts.

Implicit Types (results : list ScrapingResult.t) (r : ScrapingResult.t).

Lemma GetAllJobs_acc results (acc : list Job.t) :
  foldl (λ allJobs result,
           match ScrapingResult.Error result with
           | None => allJobs ++ ScrapingResult.Jobs result
           | Some _ => allJobs
           end) acc results
  = acc ++ concat (ScrapingResult.Jobs <$> filter succeeded results).
Proof.
  revert acc. induction results as [|r results IH]; intros acc; simpl.
  - by rewrite app_nil_r.
  - rewrite IH, filter_cons.
    destruct (decide (succeeded r)) as [Hs|Hs]; unfold succeeded in Hs.
    + rewrite Hs. simpl. by rewrite app_assoc.
    + by destruct (ScrapingResult.Error r).
Qed.

Lemma GetAllJobs_spec results :
  GetAllJobs results = concat (ScrapingResult.Jobs <$> filter succeeded results).
Proof. unfold GetAllJobs. by rewrite GetAllJobs_acc. Qed.

Lemma GetAllJobs_app results1 results2 :
  GetAllJobs (results1 ++ results2) = GetAllJobs results1 ++ GetAllJobs results2.
Proof. by rewrite !GetAllJobs_spec, filter_app, fmap_app, concat_app. Qed.

Lemma GetAllJobs_cons r results :
  GetAllJobs (r :: results)
  = (if ScrapingResult.Error r is None then ScrapingResult.Jobs r else [])
    ++ GetAllJobs results.
Proof.
  rewrite !GetAllJobs_spec, filter_cons.
  destruct (decide (succeeded r)) as [Hs|Hs]; unfold succeeded in Hs.
  - by rewrite Hs.
  - by destruct (ScrapingResult.Error r).
Qed.

Lemma ScrapeAll_lookup (scrapers : list JobScraper) ctx filters (i : nat) (s : JobScraper) :
  scrapers !! i = Some s →
  ScrapeAll scrapers ctx filters !! i
  = Some {| ScrapingResult.Jobs := (Scrape s ctx filters).1;
            ScrapingResult.Source := Name s;
            ScrapingResult.Error := (Scrape s ctx filters).2 |}.
Proof.
  intros Hs. unfold ScrapeAll. rewrite list_lookup_fmap, Hs. simpl.
  by destruct (Scrape s ctx filters).
Qed.

End merge_facts.

(** C8. [GetAllJobs] returns the records of the outcomes without an error,
    concatenated in the order of the outcomes, which [ScrapeAll] gives in
    the order of the scrapers, each outcome holding what its scraper
    returned.  Nothing is deduplicated: the length is the sum of the
    lengths.  An outcome with an error adds nothing and takes nothing away
    from the outcomes before and after it. *)
Theorem GetAllJobs_merges_successes (results : list ScrapingResult.t) :
  GetAllJobs results = concat (ScrapingResult.Jobs <$> filter succeeded results)
  ∧ Z.of_nat (length (GetAllJobs results))
    = foldr Z.add 0 ((λ r, Z.of_nat (length (ScrapingResult.Jobs r)))
                       <$> filter succeeded results)
  ∧ (∀ before failed after,
       results = before ++ failed :: after → ¬ succeeded failed →
       GetAllJobs results = GetAllJobs before ++ GetAllJobs after)
  ∧ (∀ r job, r ∈ results → succeeded r → job ∈ ScrapingResult.Jobs r →
       job ∈ GetAllJobs results)
  ∧ (∀ (scrapers : list JobScraper) ctx filters,
       results = ScrapeAll scrapers ctx filters →
       length results = length scrapers
       ∧ ∀ (i : nat) s, scrapers !! i = Some s →
           results !! i = Some {| ScrapingResult.Jobs := (Scrape s ctx filters).1;
                                  ScrapingResult.Source := Name s;
                                  ScrapingResult.Error := (Scrape s ctx filters).2 |}).
Proof.
  split; [apply GetAllJobs_spec|]. split; [|split; [|split]].
  - rewrite GetAllJobs_spec.
    induction (filter succeeded results) as [|r l IH]; [done|].
    rewrite fmap_cons. cbn [concat foldr]. rewrite length_app. rewrite fmap_cons.
    cbn [foldr]. lia.
  - intros before failed after -> Hfail.
    rewrite GetAllJobs_app, GetAllJobs_cons. unfold succeeded in Hfail.
    by destruct (ScrapingResult.Error failed).
  - intros r job Hr Hok Hjob. rewrite GetAllJobs_spec.
    apply list_elem_of_In, in_concat. exists (ScrapingResult.Jobs r).
    split; [|by apply list_elem_of_In].
    apply list_elem_of_In, list_elem_of_fmap_2. by apply list_elem_of_filter.
  - intros scrapers ctx filters ->. split.
    + unfold ScrapeAll. apply length_fmap.
    + intros i s. apply ScrapeAll_lookup.
Qed.

(** *** Package [strings] *)

Section string_facts.

Lemma append_empty (s : string) : "" +:+ s = s.
Proof. reflexivity. Qed.

Lemma append_String (c : ascii) (s t : string) : String c s +:+ t = String c (s +:+ t).
Proof. reflexivity. Qed.

Lemma prefix_spec (p s : string) :
  String.prefix p s = true ↔ ∃ post, s = p +:+ post.
Proof.
  revert s. induction p as [|c p IH]; intros s.
  - destruct s; simpl; (split; [intros _; eexists; by rewrite append_empty|done]).
  - destruct s as [|d s]; simpl.
    + split; [done|]. intros [post Heq]. by rewrite append_String in Heq.
    + destruct (Ascii.ascii_dec c d) as [->|Hne].
      * rewrite IH. split; intros [post Heq]; exists post;
          rewrite append_String in *; congruence.
      * split; [done|]. intros [post Heq]. rewrite append_String in Heq. congruence.
Qed.

Lemma Contains_empty (sub : string) :
  Contains "" sub = String.prefix sub "".
Proof. simpl. by destruct sub. Qed.

Lemma Contains_String (c : ascii) (s sub : string) :
  Contains (String c s) sub = if String.prefix sub (String c s) then true else Contains s sub.
Proof. reflexivity. Qed.

Lemma Contains_spec (s sub : string) :
  Contains s sub = true ↔ is_substring sub s.
Proof.
  unfold is_substring. induction s as [|c s IH];
    [rewrite Contains_empty|rewrite Contains_String].
  - destruct (String.prefix sub "") eqn:Hp.
    + split; [|done]. intros _. apply prefix_spec in Hp as [post Hp].
      by exists "", post.
    + split; [done|]. intros (pre & post & Heq).
      destruct pre; [|by rewrite append_String in Heq].
      rewrite append_empty in Heq.
      assert (String.prefix sub "" = true) as Ht by (apply prefix_spec; eauto).
      congruence.
  - destruct (String.prefix sub (String c s)) eqn:Hp.
    + split; [|done]. intros _. apply prefix_spec in Hp as [post Hp].
      by exists "", post.
    + rewrite IH. split.
      * intros (pre & post & ->). by exists (String c pre), post.
      * intros (pre & post & Heq). destruct pre as [|d pre].
        -- rewrite append_empty in Heq.
           assert (String.prefix sub (String c s) = true) as Ht
             by (apply prefix_spec; eauto).
           congruence.
        -- rewrite append_String in Heq. injection Heq as -> ->. by exists pre, post.
Qed.

End string_facts.

(** *** [matchesFilters] *)

Section filter_facts.

Implicit Types (job : Job.t) (filters : SearchFilters.t).

Lemma if_then_false (c r : bool) : (if c then false else r) = negb c && r.
Proof. by destruct c. Qed.

Lemma length_pos_nonempty {A} (l : list A) :
  (0 <? Z.of_nat (length l)) = if l is [] then false else true.
Proof. by destruct l. Qed.

(** [matchesFilters] is the conjunction of the per-field rules. *)
Lemma matchesFilters_rules job filters :
  matchesFilters job filters
  = title_rule job filters
    && (keywords_rule job filters
    && (location_rule job filters
    && (locations_rule job filters
    && (remote_rule job filters
    && (min_salary_rule job filters
    && (max_salary_rule job filters
    && (experience_rule job filters
    && (degree_rule job filters
    && (skills_rule job filters
    && true))))))))).
Proof.
  unfold matchesFilters. rewrite !if_then_false, !length_pos_nonempty.
  do 10 (apply (f_equal2 andb); [shelve|]). { reflexivity. }
  Unshelve.
  - unfold title_rule. destruct (nonempty_string _); [|done].
    simpl. by rewrite negb_involutive.
  - unfold keywords_rule, searchable_text.
    destruct (SearchFilters.Keywords filters); [done|].
    rewrite andb_true_l. by rewrite negb_involutive.
  - unfold location_rule. destruct (nonempty_string _); [|done].
    simpl. by rewrite negb_involutive.
  - unfold locations_rule.
    destruct (SearchFilters.Locations filters); [done|].
    rewrite andb_true_l. by rewrite negb_involutive.
  - unfold remote_rule. destruct (SearchFilters.RemoteOnly filters); [|done].
    simpl. by rewrite negb_involutive.
  - unfold min_salary_rule. rewrite Z.gtb_ltb.
    destruct (0 <? SearchFilters.MinSalary filters); [|done]. simpl.
    destruct (Job.SalaryMin job =? 0); [done|]. simpl. by rewrite Z.leb_antisym.
  - unfold max_salary_rule. rewrite !Z.gtb_ltb.
    destruct (0 <? SearchFilters.MaxSalary filters); [|done]. simpl.
    destruct (Job.SalaryMax job =? 0); [done|]. simpl. by rewrite Z.leb_antisym.
  - unfold experience_rule, EqualFold. destruct (nonempty_string _); [|done].
    simpl. by rewrite negb_involutive.
  - unfold degree_rule. destruct (SearchFilters.DegreeRequired filters); [|done].
    by rewrite negb_involutive.
  - unfold skills_rule. destruct (SearchFilters.Skills filters) as [|r l]; [done|].
    rewrite andb_true_l, negb_involutive.
    generalize (r :: l). intros requested.
    induction requested as [|r' requested IH]; [done|]. simpl. f_equal; [|done].
    apply eq_true_iff_eq. rewrite bool_decide_eq_true.
    apply (key_set_spec ToLower).
Qed.

Lemma matchesFilters_true job filters :
  matchesFilters job filters = true ↔
    title_rule job filters = true ∧ keywords_rule job filters = true
    ∧ location_rule job filters = true ∧ locations_rule job filters = true
    ∧ remote_rule job filters = true ∧ min_salary_rule job filters = true
    ∧ max_salary_rule job filters = true ∧ experience_rule job filters = true
    ∧ degree_rule job filters = true ∧ skills_rule job filters = true.
Proof.
  rewrite matchesFilters_rules, !andb_true_iff. tauto.
Qed.

Lemma min_salary_rule_false job filters :
  min_salary_rule job filters = false ↔ fails_min_salary job filters.
Proof.
  unfold min_salary_rule, fails_min_salary.
  destruct (Z.ltb_spec 0 (SearchFilters.MinSalary filters)); [|split; [done|lia]].
  destruct (Z.eqb_spec (Job.SalaryMin job) 0),
    (Z.leb_spec (SearchFilters.MinSalary filters) (Job.SalaryMin job));
    simpl; split; (done || lia).
Qed.

Lemma max_salary_rule_false job filters :
  max_salary_rule job filters = false ↔ fails_max_salary job filters.
Proof.
  unfold max_salary_rule, fails_max_salary.
  destruct (Z.ltb_spec 0 (SearchFilters.MaxSalary filters)); [|split; [done|lia]].
  destruct (Z.eqb_spec (Job.SalaryMax job) 0),
    (Z.leb_spec (Job.SalaryMax job) (SearchFilters.MaxSalary filters));
    simpl; split; (done || lia).
Qed.

Lemma skills_rule_spec job filters :
  skills_rule job filters = true
  ↔ SearchFilters.Skills filters = [] ∨ has_all_skills job (SearchFilters.Skills filters).
Proof.
  unfold skills_rule, has_all_skills.
  assert (∀ l, forallb (λ r, bool_decide (ToLower r ∈ ToLower <$> Job.Skills job)) l = true
             ↔ ∀ r, r ∈ l → ∃ s, s ∈ Job.Skills job ∧ ToLower s = ToLower r) as Hall.
  { intros l. rewrite forallb_forall. split; intros Hl r Hr.
    - apply list_elem_of_In, Hl, bool_decide_eq_true, list_elem_of_fmap in Hr
        as (s & Heq & Hs). eauto.
    - apply bool_decide_eq_true, list_elem_of_fmap.
      apply list_elem_of_In, Hl in Hr as (s & Hs & Heq). eauto. }
  destruct (SearchFilters.Skills filters) as [|r l] eqn:Hsk.
  - split; [by left|done].
  - rewrite Hall. split; [by right|]. by intros [?|?].
Qed.

Lemma keywords_rule_spec job filters :
  keywords_rule job filters = true
  ↔ SearchFilters.Keywords filters = []
    ∨ has_any_keyword job (SearchFilters.Keywords filters).
Proof.
  unfold keywords_rule, has_any_keyword.
  assert (∀ l, existsb (λ kw, Contains (ToLower (searchable_text job)) (ToLower kw)) l = true
             ↔ ∃ kw, kw ∈ l ∧ is_substring (ToLower kw) (ToLower (searchable_text job)))
    as Hany.
  { intros l. rewrite existsb_exists. split; intros (kw & Hkw & Hc); exists kw.
    - split; [by apply list_elem_of_In|by apply Contains_spec].
    - split; [by apply list_elem_of_In|by apply Contains_spec]. }
  destruct (SearchFilters.Keywords filters) as [|k l] eqn:Hkw.
  - split; [by left|done].
  - rewrite Hany. split; [by right|]. by intros [?|?].
Qed.

End filter_facts.

(** *** The runtime: insertion sort meets the contract of [sort.Slice] *)

Section runtime_facts.

Context {A : Type} (less : A → A → bool).

Lemma insert_back_perm (x : A) (l : list A) : insert_back less x l ≡ₚ x :: l.
Proof.
  induction l as [|y l IH]; simpl; [done|].
  destruct (less x y); [|done]. rewrite IH. apply Permutation_swap.
Qed.

Lemma insertionSort_perm (l : list A) : insertionSort less l ≡ₚ l.
Proof.
  unfold insertionSort. rewrite reverse_Permutation.
  assert (∀ acc, foldl (λ acc x, insert_back less x acc) acc l ≡ₚ l ++ acc) as Hgen.
  { induction l as [|x l IH]; intros acc; simpl; [done|].
    rewrite IH, insert_back_perm. by rewrite Permutation_middle. }
  by rewrite Hgen, app_nil_r.
Qed.

Lemma insert_back_sorted (x : A) (l : list A) :
  strict_weak less →
  StronglySorted (λ a b, less a b = false) l →
  StronglySorted (λ a b, less a b = false) (insert_back less x l).
Proof.
  intros [Hasym Htrans]. induction l as [|y l IH]; intros Hl; simpl.
  - repeat constructor.
  - apply StronglySorted_cons in Hl as [Hy Hl].
    destruct (less x y) eqn:Hxy.
    + apply StronglySorted_cons. split; [|by apply IH].
      rewrite insert_back_perm. constructor; [by apply Hasym|done].
    + apply StronglySorted_cons. split; [|by apply StronglySorted_cons].
      constructor; [done|]. eapply Forall_impl; [exact Hy|].
      intros z Hz. by apply (Htrans x y z).
Qed.

Lemma insertionSort_sorted (l : list A) :
  strict_weak less → sorted_by less (insertionSort less l).
Proof.
  intros Hsw. unfold insertionSort, sorted_by.
  assert (∀ acc, StronglySorted (λ a b, less a b = false) acc →
                 StronglySorted (λ a b, less a b = false)
                   (foldl (λ acc x, insert_back less x acc) acc l)) as Hgen.
  { induction l as [|x l IH]; intros acc Hacc; simpl; [done|].
    by apply IH, insert_back_sorted. }
  specialize (Hgen [] (SSorted_nil _)).
  revert Hgen. generalize (foldl (λ acc x, insert_back less x acc) [] l).
  intros acc. induction acc as [|y acc IH]; intros Hacc; [constructor|].
  apply StronglySorted_cons in Hacc as [Hy Hacc]. rewrite reverse_cons.
  apply StronglySorted_app_2; [|by apply IH|repeat constructor].
  intros a b Ha Hb. apply list_elem_of_singleton in Hb as ->.
  rewrite Forall_forall in Hy. apply Hy. by apply elem_of_reverse.
Qed.

End runtime_facts.

Lemma runtime_with_ok (order : gmap string Z → list (string * Z)) :
  (∀ m, order m ≡ₚ map_to_list m) → runtime_ok (runtime_with order).
Proof.
  intros Horder. split; [|done]. intros A less l. split.
  - apply insertionSort_perm.
  - apply insertionSort_sorted.
Qed.

Lemma rt_forward_ok : runtime_ok rt_forward.
Proof. by apply runtime_with_ok. Qed.


Lemma posted_after_strict_weak : strict_weak posted_after.
Proof. unfold posted_after. split; intros; lia. Qed.


(** *** [Search] *)

Section Search_facts.

Context {F : Type} `{Float64 F}.
Implicit Types (rt : GoRuntime) (s : InMemoryStorage) (filters : SearchFilters.t).

Lemma filteredJobs_perm rt s filters :
  runtime_ok rt →
  filteredJobs rt s filters ≡ₚ filter (λ job, matchesFilters job filters = true) (jobs s).
Proof. intros [Hsort _]. apply Hsort. Qed.

Lemma filteredJobs_elem_of rt s filters job :
  runtime_ok rt →
  job ∈ filteredJobs rt s filters ↔ matchesFilters job filters = true ∧ job ∈ jobs s.
Proof.
  intros Hrt. by rewrite (filteredJobs_perm _ _ _ Hrt), list_elem_of_filter.
Qed.

Lemma filteredJobs_newest_first rt s filters :
  runtime_ok rt → sorted_by posted_after (filteredJobs rt s filters).
Proof. intros [Hsort _]. apply Hsort, posted_after_strict_weak. Qed.

Lemma slice_elem_of {B} (l page : list B) (lo hi : Z) (x : B) :
  slice l lo hi = Ok page → x ∈ page → x ∈ l.
Proof.
  unfold slice. destruct (_ && _); [|done]. intros [= <-] Hx.
  apply elem_of_take in Hx as (i & Hx & _).
  rewrite lookup_drop in Hx. by apply list_elem_of_lookup_2 in Hx.
Qed.

Lemma Search_Jobs_filtered rt s filters (resp : SearchResponse.t F) err job :
  Search rt s filters = Ok (resp, err) →
  job ∈ SearchResponse.Jobs resp → job ∈ filteredJobs rt s filters.
Proof.
  unfold Search.
  destruct (slice _ _ _) as [page|] eqn:Hslice; simpl; [|done].
  intros [= <- <-]. simpl. intros Hjob. by apply (slice_elem_of _ _ _ _ job) in Hslice.
Qed.

Lemma wrap64_small (z : Z) : - 2 ^ 63 ≤ z < 2 ^ 63 → wrap64 z = z.
Proof. intros Hz. unfold wrap64. rewrite Z.mod_small; lia. Qed.

Lemma take_clamped {B} (l : list B) (n m : nat) :
  (n ≤ m)%nat → (length l ≤ n)%nat ∨ n = m → take n l = take m l.
Proof.
  intros Hnm [Hlen| ->]; [|done]. rewrite !take_ge; [done|lia..].
Qed.

(** The pagination of [Search], on its own: the clamped bounds and the
    slice expression. *)
Lemma pagination_slice {B} (l : list B) (off lim : Z) :
  0 ≤ off → 0 ≤ lim → off + lim < 2 ^ 63 →
  let total := Z.of_nat (length l) in
  let end_ := if lim =? 0 then total else wrap64 (off + lim) in
  slice l (if off >? total then total else off) (if end_ >? total then total else end_)
  = Ok (let rest := drop (Z.to_nat off) l in
        if lim =? 0 then rest else take (Z.to_nat lim) rest).
Proof.
  intros Hoff Hlim Hsum total end_. unfold slice.
  set (start := if off >? total then total else off).
  set (stop := if end_ >? total then total else end_).
  assert (start = Z.min off total) as Hstart.
  { unfold start. destruct (Z.gtb_spec off total); lia. }
  assert (stop = if lim =? 0 then total else Z.min (off + lim) total) as Hstop.
  { unfold stop, end_. rewrite wrap64_small by lia.
    destruct (Z.eqb_spec lim 0).
    - destruct (Z.gtb_spec total total); lia.
    - destruct (Z.gtb_spec (off + lim) total); lia. }
  assert (0 ≤ total) as Htotal by lia.
  assert (0 ≤ start ∧ start ≤ stop ∧ stop ≤ total) as (H1 & H2 & H3).
  { rewrite Hstart, Hstop. destruct (lim =? 0); lia. }
  assert ((0 <=? start) && (start <=? stop) && (stop <=? Z.of_nat (length l)) = true)
    as -> by (rewrite !andb_true_iff, !Z.leb_le; done).
  f_equal.
  assert (drop (Z.to_nat start) l = drop (Z.to_nat off) l) as ->.
  { destruct (Z.le_gt_cases off total).
    - f_equal. lia.
    - rewrite !drop_ge; [done|lia..]. }
  destruct (Z.eqb_spec lim 0) as [Hz|Hnz].
  - apply take_ge. rewrite length_drop. lia.
  - apply take_clamped; [lia|]. rewrite length_drop.
    destruct (Z.le_gt_cases (off + lim) total); lia.
Qed.

(** With an offset and a limit that are not negative and whose sum fits in
    an [int], [Search] returns the page: the jobs from [Offset] on, at most
    [Limit] of them unless [Limit] is zero. *)
Lemma Search_page rt s filters :
  0 ≤ SearchFilters.Offset filters → 0 ≤ SearchFilters.Limit filters →
  SearchFilters.Offset filters + SearchFilters.Limit filters < 2 ^ 63 →
  Search (F:=F) rt s filters
  = Ok ({| SearchResponse.Jobs :=
             let rest := drop (Z.to_nat (SearchFilters.Offset filters))
                              (filteredJobs rt s filters) in
             if SearchFilters.Limit filters =? 0 then rest
             else take (Z.to_nat (SearchFilters.Limit filters)) rest;
           SearchResponse.Total := Z.of_nat (length (filteredJobs rt s filters));
           SearchResponse.Analytics := GetAnalytics rt (filteredJobs rt s filters);
           SearchResponse.Filters := filters |}, None).
Proof.
  intros Hoff Hlim Hsum. unfold Search.
  pose proof (pagination_slice (filteredJobs rt s filters) _ _ Hoff Hlim Hsum) as Hp.
  simpl in Hp. by rewrite Hp.
Qed.

(** An offset at or beyond the total gives an empty page and the total of
    all the filtered jobs. *)
Lemma Search_offset_beyond_total rt s filters (resp : SearchResponse.t F) err :
  Z.of_nat (length (filteredJobs rt s filters)) ≤ SearchFilters.Offset filters →
  0 ≤ SearchFilters.Limit filters →
  SearchFilters.Offset filters + SearchFilters.Limit filters < 2 ^ 63 →
  Search rt s filters = Ok (resp, err) →
  SearchResponse.Jobs resp = []
  ∧ SearchResponse.Total resp = Z.of_nat (length (filteredJobs rt s filters)).
Proof.
  intros Hoff Hlim Hsum. rewrite Search_page by lia. intros [= <- <-]. simpl.
  split; [|done]. rewrite drop_ge by lia.
  destruct (SearchFilters.Limit filters =? 0); [done|apply take_nil].
Qed.

End Search_facts.

(** C3. [Search] paginates after the filter and the sort and clamps the
    offset from above only: with a negative offset, whatever the limit, the
    criteria and the store, the slice expression panics instead of giving a
    page.  (For an offset and a limit that are not negative, [Search_page]
    gives the page: the jobs from the offset on, at most [Limit] of them
    unless [Limit] is zero, and none when the offset is beyond the total.) *)
Theorem Search_negative_offset_panics {F : Type} `{Float64 F} (rt : GoRuntime)
    (s : InMemoryStorage) (filters : SearchFilters.t) :
  SearchFilters.Offset filters < 0 →
  Search (F:=F) rt s filters = Panicked SliceBoundsOutOfRange.
Proof.
  intros Hneg. unfold Search, slice.
  set (total := Z.of_nat (length (filteredJobs rt s filters))).
  assert (0 ≤ total) by lia.
  destruct (Z.gtb_spec (SearchFilters.Offset filters) total); [lia|].
  destruct (Z.leb_spec 0 (SearchFilters.Offset filters)); [lia|]. done.
Qed.

Lemma Search_negative_offset_panics_witness :
  SearchFilters.Offset (with_paging no_filters (-1) 0) < 0
  ∧ Search (F:=float) rt_forward {| jobs := salary_jobs |} (with_paging no_filters (-1) 0)
    = Panicked SliceBoundsOutOfRange.
Proof.
  split; [simpl; lia|].
  apply (Search_negative_offset_panics rt_forward {| jobs := salary_jobs |}
           (with_paging no_filters (-1) 0)).
  simpl; lia.
Defined.

(** C6. A job whose salary bound is absent (zero) or outside a positive
    [min_salary] (respectively [max_salary]) does not match the filters: it
    is not among the filtered jobs, and so in no page [Search] returns. *)
Theorem Search_excludes_missing_salary {F : Type} `{Float64 F} (rt : GoRuntime)
    (s : InMemoryStorage) (filters : SearchFilters.t) (job : Job.t) :
  runtime_ok rt →
  fails_min_salary job filters ∨ fails_max_salary job filters →
  matchesFilters job filters = false
  ∧ (job ∉ filteredJobs rt s filters)
  ∧ ∀ (resp : SearchResponse.t F) err,
      Search rt s filters = Ok (resp, err) → job ∉ SearchResponse.Jobs resp.
Proof.
  intros Hrt Hfails.
  assert (matchesFilters job filters = false) as Hno.
  { rewrite matchesFilters_rules.
    destruct Hfails as [Hmin%min_salary_rule_false|Hmax%max_salary_rule_false].
    - rewrite Hmin. by rewrite !andb_false_r.
    - rewrite Hmax. by rewrite !andb_false_r. }
  assert (job ∉ filteredJobs rt s filters) as Hout.
  { rewrite filteredJobs_elem_of by done. rewrite Hno. by intros [? _]. }
  split; [done|]. split; [done|].
  intros resp err Hs Hin. apply Hout. by eapply Search_Jobs_filtered.
Qed.

Lemma Search_excludes_missing_salary_witness :
  runtime_ok rt_forward
  ∧ (fails_min_salary go_only_job (with_salary no_filters 50000 0)
     ∨ fails_max_salary go_only_job (with_salary no_filters 50000 0))
  ∧ matchesFilters go_only_job (with_salary no_filters 50000 0) = false
  ∧ (go_only_job ∉ filteredJobs rt_forward
                      {| jobs := [go_docker_job; go_only_job; java_job] |}
                      (with_salary no_filters 50000 0))
  ∧ ∀ (resp : SearchResponse.t float) err,
      Search rt_forward {| jobs := [go_docker_job; go_only_job; java_job] |}
             (with_salary no_filters 50000 0) = Ok (resp, err) →
      go_only_job ∉ SearchResponse.Jobs resp.
Proof.
  split; [exact rt_forward_ok|].
  split; [left; unfold fails_min_salary; simpl; lia|].
  apply (Search_excludes_missing_salary rt_forward).
  - exact rt_forward_ok.
  - left. unfold fails_min_salary. simpl. lia.
Defined.

(** C7. A job matches the filters exactly when it matches them with the
    skills and keywords filters switched off, and, if skills are requested,
    its skills contain ALL of them up to letter case, and, if keywords are
    given, ANY one of them occurs, up to letter case, in its title,
    description and skills.  So skills [Go, Docker] match a job with skills
    Go and Docker and not one with only Go, and keywords [Go, Java] match a
    job that has either. *)
Theorem skills_all_keywords_any (job : Job.t) (filters : SearchFilters.t) :
  (matchesFilters job filters = true
   ↔ matchesFilters job (without_skills_and_keywords filters) = true
     ∧ (SearchFilters.Skills filters = []
        ∨ has_all_skills job (SearchFilters.Skills filters))
     ∧ (SearchFilters.Keywords filters = []
        ∨ has_any_keyword job (SearchFilters.Keywords filters)))
  ∧ matchesFilters go_docker_job (with_skills no_filters ["Go"; "Docker"]) = true
  ∧ matchesFilters go_docker_job (with_skills no_filters ["go"; "DOCKER"]) = true
  ∧ matchesFilters go_only_job (with_skills no_filters ["Go"; "Docker"]) = false
  ∧ matchesFilters go_only_job (with_keywords no_filters ["Go"; "Java"]) = true
  ∧ matchesFilters java_job (with_keywords no_filters ["Go"; "Java"]) = true
  ∧ matchesFilters java_job (with_keywords no_filters ["Go"; "Docker"]) = false.
Proof.
  split; [|by vm_compute].
  rewrite !matchesFilters_true, <- skills_rule_spec, <- keywords_rule_spec.
  change (title_rule job (without_skills_and_keywords filters))
    with (title_rule job filters).
  change (location_rule job (without_skills_and_keywords filters))
    with (location_rule job filters).
  change (locations_rule job (without_skills_and_keywords filters))
    with (locations_rule job filters).
  change (remote_rule job (without_skills_and_keywords filters))
    with (remote_rule job filters).
  change (min_salary_rule job (without_skills_and_keywords filters))
    with (min_salary_rule job filters).
  change (max_salary_rule job (without_skills_and_keywords filters))
    with (max_salary_rule job filters).
  change (experience_rule job (without_skills_and_keywords filters))
    with (experience_rule job filters).
  change (degree_rule job (without_skills_and_keywords filters))
    with (degree_rule job filters).
  change (keywords_rule job (without_skills_and_keywords filters)) with true.
  change (skills_rule job (without_skills_and_keywords filters)) with true.
  tauto.
Qed.

(** *** [RateLimiter] *)

Section RateLimiter_facts.

Implicit Types (rt : GoRuntime) (rl : RateLimiter) (ctx : Context) (now : Z).

Lemma go_div_zero (a : Z) : go_div a 0 = Panicked IntegerDivideByZero.
Proof. reflexivity. Qed.

Lemma go_div_nonzero (a b : Z) : b ≠ 0 → go_div a b = Ok (wrap64 (a ÷ b)).
Proof. intros Hb. unfold go_div. by destruct (Z.eqb_spec b 0). Qed.

(** The refill never leaves more tokens than the capacity. *)
Lemma refill_le_rate rl now (tokens' : Z) :
  refill rl now = Ok tokens' → tokens' ≤ rate rl.
Proof.
  unfold refill. destruct (go_div _ _) as [q|]; simpl; [|done].
  intros [= <-].
  destruct (Z.gtb_spec (wrap64 (tokens rl + wrap64 (q * rate rl))) (rate rl)); lia.
Qed.

(** After a [Wait] that returns, the rate and the interval are unchanged and
    the tokens do not exceed the capacity. *)
Lemma Wait_tokens_le_rate rt rl ctx now rl' err :
  - 2 ^ 63 < rate rl < 2 ^ 63 →
  Wait rt rl ctx now = Ok (rl', err) →
  rate rl' = rate rl ∧ interval rl' = interval rl ∧ tokens rl' ≤ rate rl'.
Proof.
  intros Hrate. unfold Wait.
  destruct (refill rl now) as [t|] eqn:Hrefill; simpl; [|done].
  apply refill_le_rate in Hrefill.
  destruct (Z.gtb_spec t 0).
  - intros [= <- <-]. simpl. rewrite wrap64_small; lia.
  - destruct (go_div _ _) as [w|]; simpl; [|done].
    destruct (select_wait _ _ _ _); intros [= <- <-]; simpl.
    + rewrite wrap64_small; lia.
    + lia.
Qed.

(** With an empty bucket, the timer of [Wait] is set to [interval / rate]. *)
Lemma waitTime_quotient rl :
  rate rl ≠ 0 → - 2 ^ 63 < interval rl < 2 ^ 63 →
  waitTime rl = Ok (interval rl ÷ rate rl).
Proof.
  intros Hrate Hint. unfold waitTime. rewrite go_div_nonzero by done.
  f_equal. apply wrap64_small.
  assert (Z.abs (interval rl ÷ rate rl) ≤ Z.abs (interval rl)).
  { rewrite <- Z.quot_abs by done.
    apply Z.quot_le_upper_bound; [lia|nia]. }
  lia.
Qed.

Lemma Wait_zero_rate rt rl ctx now :
  rate rl = 0 → Wait rt rl ctx now = Panicked IntegerDivideByZero.
Proof.
  destruct rl as [r i t l]. simpl. intros ->. unfold Wait, refill. simpl.
  destruct (go_div (time_Sub now l) i) as [q|p] eqn:Hq; simpl.
  - rewrite Z.mul_0_r.
    destruct (Z.gtb_spec (wrap64 (t + wrap64 0)) 0) as [Hpos|Hle].
    + destruct (Z.gtb_spec 0 0); [lia|done].
    + destruct (Z.gtb_spec (wrap64 (t + wrap64 0)) 0); [lia|done].
  - unfold go_div in Hq. destruct (i =? 0); by inversion Hq.
Qed.

End RateLimiter_facts.

(** Less than one whole interval after the previous acquisition the refill
    adds nothing, however large the capacity. *)
Lemma refill_within_interval (rl : RateLimiter) (now : Z) :
  0 ≤ now - lastTime rl < interval rl → interval rl < 2 ^ 63 →
  - 2 ^ 63 ≤ tokens rl < 2 ^ 63 →
  refill rl now = Ok (Z.min (rate rl) (tokens rl)).
Proof.
  intros Hel Hint Htok. unfold refill, time_Sub.
  rewrite go_div_nonzero by lia. simpl.
  replace (Z.max (- 2 ^ 63) (Z.min (2 ^ 63 - 1) (now - lastTime rl)))
    with (now - lastTime rl) by lia.
  rewrite Z.quot_small by lia.
  rewrite (wrap64_small 0) by lia. rewrite Z.mul_0_l, (wrap64_small 0) by lia.
  rewrite Z.add_0_r, wrap64_small by lia.
  destruct (Z.gtb_spec (tokens rl) (rate rl)); f_equal; lia.
Qed.

(** With a monotonic clock, a positive rate and interval and no overflow, a
    limiter that holds a token still holds one after the refill. *)
Lemma refill_keeps_token (rl : RateLimiter) (now : Z) :
  0 < interval rl → 0 < rate rl → 0 < tokens rl →
  0 ≤ now - lastTime rl < 2 ^ 63 →
  tokens rl + (now - lastTime rl) ÷ interval rl * rate rl < 2 ^ 63 →
  ∃ available, refill rl now = Ok available ∧ 0 < available.
Proof.
  intros Hint Hrate Htok Hel Hfit. unfold refill, time_Sub.
  rewrite go_div_nonzero by lia. simpl.
  replace (Z.max (- 2 ^ 63) (Z.min (2 ^ 63 - 1) (now - lastTime rl)))
    with (now - lastTime rl) by lia.
  set (q := (now - lastTime rl) ÷ interval rl) in *.
  assert (0 ≤ q) as Hq0 by (apply Z.quot_pos; lia).
  assert (q ≤ now - lastTime rl) as Hq1.
  { apply Z.quot_le_upper_bound; [lia|nia]. }
  assert (0 ≤ q * rate rl) by nia.
  rewrite (wrap64_small q) by lia.
  rewrite (wrap64_small (q * rate rl)) by lia.
  rewrite wrap64_small by lia.
  eexists. split; [reflexivity|].
  destruct (Z.gtb_spec (tokens rl + q * rate rl) (rate rl)); lia.
Qed.

(** C4. The refill of [Wait] divides the elapsed time by the interval in
    integers before it multiplies by the capacity.  For the limiter of five
    requests per second, empty, half a second after the previous
    acquisition, the formula [min(capacity, tokens + floor(elapsed /
    interval * capacity))] gives 2 tokens and [Wait] adds none: the caller
    is sent to the timer, after which the bucket is set to capacity - 1. *)
Theorem refill_truncates_elapsed_intervals :
  refill_spec empty_limiter 500000000 = 2
  ∧ refill empty_limiter 500000000 = Ok 0
  ∧ waitTime empty_limiter = Ok 200000000
  ∧ Wait rt_forward empty_limiter {| done_at := None; ctx_err := "" |} 500000000
    = Ok ({| rate := 5; interval := 1000000000; tokens := 4; lastTime := 500000000 |},
          None).
Proof. by vm_compute. Qed.

(** C5. [NewRateLimiter] has no failure to report: with [rate = 0] it
    returns a limiter of capacity zero holding no token.  That limiter is
    of no use: every [Wait] on it panics on a division by zero, at any
    time and with any context. *)
Theorem NewRateLimiter_zero_rate_unusable (interval now : Z) :
  ∃ rl, NewRateLimiter 0 interval now = Ok rl
        ∧ rate rl = 0 ∧ tokens rl = 0
        ∧ ∀ rt ctx now', Wait rt rl ctx now' = Panicked IntegerDivideByZero.
Proof.
  eexists. split; [reflexivity|]. split; [done|]. split; [done|].
  intros rt ctx now'. by apply Wait_zero_rate.
Qed.

Lemma NewRateLimiter_zero_rate_returns :
  NewRateLimiter 0 1000000000 0
  = Ok {| rate := 0; interval := 1000000000; tokens := 0; lastTime := 0 |}.
Proof. reflexivity. Qed.

(** C10. When the refill leaves at least one token, [Wait] takes one and
    returns [nil] without looking at the context: a context that is
    already cancelled makes no difference. *)
Theorem Wait_takes_token_before_context (rt : GoRuntime) (rl : RateLimiter)
    (ctx : Context) (now available : Z) :
  refill rl now = Ok available → 0 < available →
  Wait rt rl ctx now
  = Ok ({| rate := rate rl; interval := interval rl;
           tokens := available - 1; lastTime := now |}, None).
Proof.
  intros Hrefill Hpos. unfold Wait. rewrite Hrefill. simpl.
  destruct (Z.gtb_spec available 0); [|lia].
  pose proof (refill_le_rate _ _ _ Hrefill) as Hle.
  assert (- 2 ^ 63 ≤ available < 2 ^ 63) as Hrange.
  { unfold refill in Hrefill. destruct (go_div _ _) as [q|]; simpl in Hrefill; [|done].
    injection Hrefill as <-.
    set (t := wrap64 (tokens rl + wrap64 (q * rate rl))) in *.
    assert (- 2 ^ 63 ≤ t < 2 ^ 63).
    { unfold t, wrap64. pose proof (Z.mod_pos_bound (tokens rl + ((q * rate rl + 2 ^ 63) `mod` 2 ^ 64 - 2 ^ 63) + 2 ^ 63) (2 ^ 64)). lia. }
    destruct (Z.gtb_spec t (rate rl)); lia. }
  rewrite wrap64_small by lia. done.
Qed.

Lemma Wait_takes_token_before_context_witness :
  refill full_limiter 10 = Ok 5 ∧ 0 < 5
  ∧ Wait rt_forward full_limiter cancelled_ctx 10
    = Ok ({| rate := 5; interval := 1000000000; tokens := 5 - 1; lastTime := 10 |}, None).
Proof.
  split; [reflexivity|]. split; [lia|].
  apply (Wait_takes_token_before_context rt_forward full_limiter cancelled_ctx 10 5).
  - reflexivity.
  - lia.
Defined.

(** On the empty-bucket path a context that is already done wins over a
    timer that still has to run: [Wait] returns the context's error and
    takes nothing. *)
Lemma Wait_empty_cancelled (rt : GoRuntime) (rl : RateLimiter) (ctx : Context)
    (now available w d : Z) :
  refill rl now = Ok available → available ≤ 0 →
  waitTime rl = Ok w → 0 < w → done_at ctx = Some d → d ≤ now →
  Wait rt rl ctx now
  = Ok ({| rate := rate rl; interval := interval rl;
           tokens := available; lastTime := now |}, Some (ctx_err ctx)).
Proof.
  intros Hrefill Hle Hw Hpos Hd Hdn. unfold Wait. rewrite Hrefill. simpl.
  destruct (Z.gtb_spec available 0); [lia|].
  unfold waitTime in Hw. rewrite Hw. simpl.
  unfold select_wait. rewrite Hd.
  destruct (Z.ltb_spec (Z.max d now) (now + Z.max 0 w)); [done|lia].
Qed.

(** *** [percentile] and the salary statistics, in exact arithmetic *)

Section percentile_facts.

Implicit Types (x y : Qc) (data : list Qc).












End percentile_facts.



(** The same jobs in IEEE 754 binary64: every operation is exact on these
    values and the percentiles are the same numbers. *)
Lemma percentiles_binary64 :
  let range := JobAnalytics.SalaryRange (GetAnalytics (F:=float) rt_forward salary_jobs) in
  SalaryRange.Median range = 90000%float ∧ SalaryRange.P25 range = 75000%float
  ∧ SalaryRange.P75 range = 105000%float.
Proof. by vm_compute. Qed.


(** *** The count maps and the rankings *)

Section ranking_facts.

Implicit Types (m counts : gmap string Z) (keys : list string) (k : string).

Lemma occurrences_nil k : occurrences k [] = 0.
Proof. reflexivity. Qed.

Lemma occurrences_cons k k' keys :
  occurrences k (k' :: keys) = (if decide (k' = k) then 1 else 0) + occurrences k keys.
Proof.
  unfold occurrences. rewrite filter_cons. destruct (decide (k' = k)); simpl; lia.
Qed.

Lemma occurrences_app k keys1 keys2 :
  occurrences k (keys1 ++ keys2) = occurrences k keys1 + occurrences k keys2.
Proof. unfold occurrences. rewrite filter_app, length_app. lia. Qed.

Lemma occurrences_nonneg k keys : 0 ≤ occurrences k keys.
Proof. unfold occurrences. lia. Qed.

Lemma occurrences_pos k keys : 0 < occurrences k keys ↔ k ∈ keys.
Proof.
  induction keys as [|k' keys IH].
  - rewrite occurrences_nil, elem_of_nil. lia.
  - rewrite occurrences_cons, elem_of_cons. pose proof (occurrences_nonneg k keys).
    destruct (decide (k' = k)) as [->|Hne].
    + split; [by left|lia].
    + rewrite Z.add_0_l, IH. split; [by right|]. intros [?|?]; [congruence|done].
Qed.

Lemma incr_lookup m k k' :
  incr m k !! k' = if decide (k = k') then Some (lookup_int m k + 1) else m !! k'.
Proof.
  unfold incr. destruct (decide (k = k')) as [->|Hne].
  - by rewrite lookup_insert_eq.
  - by rewrite lookup_insert_ne.
Qed.

Lemma foldl_incr_lookup m keys k :
  foldl incr m keys !! k
  = if decide (k ∈ keys) then Some (lookup_int m k + occurrences k keys) else m !! k.
Proof.
  revert m. induction keys as [|k' keys IH]; intros m.
  - by rewrite decide_False by apply not_elem_of_nil.
  - cbn [foldl]. rewrite IH, occurrences_cons. unfold lookup_int at 1.
    rewrite incr_lookup.
    destruct (decide (k' = k)) as [->|Hne].
    + rewrite (decide_True (P := k ∈ k :: keys)) by (by left). simpl.
      destruct (decide (k ∈ keys)) as [Hin|Hnin]; f_equal; [lia|].
      pose proof (occurrences_nonneg k keys) as Hnn.
      pose proof (occurrences_pos k keys) as Hpos.
      destruct (Z.eq_dec (occurrences k keys) 0); [lia|].
      exfalso. apply Hnin, Hpos. lia.
    + destruct (decide (k ∈ keys)) as [Hin|Hnin].
      * rewrite (decide_True (P := k ∈ k' :: keys)) by (by right).
        f_equal; unfold lookup_int; lia.
      * rewrite (decide_False (P := k ∈ k' :: keys)); [done|].
        rewrite elem_of_cons. intros [?|?]; [congruence|done].
Qed.

(** The count map of [keys] gives every key its number of occurrences. *)
Lemma counts_lookup keys k c :
  foldl incr ∅ keys !! k = Some c ↔ c = occurrences k keys ∧ k ∈ keys.
Proof.
  rewrite foldl_incr_lookup. unfold lookup_int. rewrite lookup_empty. simpl.
  destruct (decide (k ∈ keys)); split; try done.
  - intros [= <-]. done.
  - intros [-> _]. done.
  - intros [_ ?]. done.
Qed.









End ranking_facts.

Section determinism.

Context {F : Type} `{Float64 F}.




End determinism.





(** ** Further properties *)

(** *** More on [Search]: panics, pages, order *)

Section Search_more.

Context {F : Type} `{Float64 F}.
Implicit Types (rt : GoRuntime) (s : InMemoryStorage) (filters : SearchFilters.t).

Lemma filteredJobs_paging rt s filters (offset limit : Z) :
  filteredJobs rt s (with_paging filters offset limit) = filteredJobs rt s filters.
Proof. reflexivity. Qed.

Lemma StronglySorted_take_drop {A} (R : relation A) (l : list A) (n m : nat) :
  StronglySorted R l → StronglySorted R (take n (drop m l)).
Proof.
  intros Hl. rewrite <- (take_drop m l) in Hl. apply StronglySorted_app_1_r in Hl.
  rewrite <- (take_drop n (drop m l)) in Hl. by apply StronglySorted_app_1_l in Hl.
Qed.

Lemma slice_sorted {A} (R : relation A) (l page : list A) (lo hi : Z) :
  slice l lo hi = Ok page → StronglySorted R l → StronglySorted R page.
Proof.
  unfold slice. destruct (_ && _); [|done]. intros [= <-]. apply StronglySorted_take_drop.
Qed.

Lemma wrap64_le (z : Z) : - 2 ^ 63 ≤ z → wrap64 z ≤ z.
Proof.
  intros Hz. unfold wrap64.
  pose proof (Z.mod_le (z + 2 ^ 63) (2 ^ 64)). lia.
Qed.

Lemma slice_length {A} (l page : list A) (lo hi : Z) :
  slice l lo hi = Ok page → Z.of_nat (length page) = hi - lo.
Proof.
  unfold slice. destruct (_ && _) eqn:Hb; [|done]. intros [= <-].
  rewrite !andb_true_iff, !Z.leb_le in Hb. rewrite length_take, length_drop. lia.
Qed.

End Search_more.

(** X1. [Search] returns exactly when the offset is not negative and, for a
    limit other than zero, the clamped start does not exceed the wrapped sum
    [offset + limit].  It then returns no error and the number of matching
    jobs as the total; in every other case the slice expression panics. *)
Theorem Search_returns_iff {F : Type} `{Float64 F} (rt : GoRuntime) (s : InMemoryStorage)
    (filters : SearchFilters.t) :
  let total := Z.of_nat (length (filteredJobs rt s filters)) in
  let offset := SearchFilters.Offset filters in
  let limit := SearchFilters.Limit filters in
  let in_bounds := 0 ≤ offset ∧ (limit = 0 ∨ Z.min offset total ≤ wrap64 (offset + limit)) in
  (in_bounds → ∃ resp : SearchResponse.t F,
      Search rt s filters = Ok (resp, None) ∧ SearchResponse.Total resp = total)
  ∧ (¬ in_bounds → Search (F:=F) rt s filters = Panicked SliceBoundsOutOfRange).
Proof.
  intros total offset limit in_bounds. unfold Search, slice.
  fold total offset limit.
  set (start := if offset >? total then total else offset).
  set (stop0 := if limit =? 0 then total else wrap64 (offset + limit)).
  set (stop := if stop0 >? total then total else stop0).
  assert (0 ≤ total) as Htotal by lia.
  assert (start = Z.min offset total) as Hstart.
  { unfold start. destruct (Z.gtb_spec offset total); lia. }
  assert (stop = Z.min stop0 total) as Hstop.
  { unfold stop. destruct (Z.gtb_spec stop0 total); lia. }
  assert ((0 <=? start) && (start <=? stop) && (stop <=? total) = true ↔ in_bounds) as Hiff.
  { rewrite !andb_true_iff, !Z.leb_le, Hstart, Hstop. unfold in_bounds, stop0.
    destruct (Z.eqb_spec limit 0); lia. }
  split.
  - intros Hin. apply Hiff in Hin. rewrite Hin. simpl. eauto.
  - intros Hout. destruct ((0 <=? start) && (start <=? stop) && (stop <=? total)) eqn:Hb;
      [|done]. exfalso. by apply Hout, Hiff.
Qed.

(** X2. Whatever [Search] returns has no error, echoes the filters, counts
    all matching stored jobs in [Total], and its page is ordered by posting
    date, newest first, holds only stored jobs that match the filters and,
    for a positive limit, at most [Limit] of them. *)
Theorem Search_page_newest_first {F : Type} `{Float64 F} (rt : GoRuntime)
    (s : InMemoryStorage) (filters : SearchFilters.t) (resp : SearchResponse.t F)
    (err : error) :
  runtime_ok rt →
  Search rt s filters = Ok (resp, err) →
  err = None
  ∧ SearchResponse.Filters resp = filters
  ∧ SearchResponse.Total resp
    = Z.of_nat (length (filter (λ job, matchesFilters job filters = true) (jobs s)))
  ∧ StronglySorted (λ a b, Job.PostedDate b ≤ Job.PostedDate a) (SearchResponse.Jobs resp)
  ∧ (∀ job, job ∈ SearchResponse.Jobs resp →
       job ∈ jobs s ∧ matchesFilters job filters = true)
  ∧ (0 < SearchFilters.Limit filters →
       Z.of_nat (length (SearchResponse.Jobs resp)) ≤ SearchFilters.Limit filters).
Proof.
  intros Hrt Hs.
  assert (∀ job, job ∈ SearchResponse.Jobs resp →
            job ∈ jobs s ∧ matchesFilters job filters = true) as Hin.
  { intros job Hjob. apply (Search_Jobs_filtered _ _ _ _ _ _ Hs) in Hjob.
    apply filteredJobs_elem_of in Hjob; [tauto|done]. }
  pose proof (filteredJobs_newest_first rt s filters Hrt) as Hsorted.
  pose proof (filteredJobs_perm rt s filters Hrt) as Hperm.
  revert Hs Hin. unfold Search.
  set (total := Z.of_nat (length (filteredJobs rt s filters))).
  set (offset := SearchFilters.Offset filters).
  set (limit := SearchFilters.Limit filters).
  set (start := if offset >? total then total else offset).
  set (stop0 := if limit =? 0 then total else wrap64 (offset + limit)).
  set (stop := if stop0 >? total then total else stop0).
  destruct (slice _ start stop) as [page|] eqn:Hslice; simpl; [|done].
  intros [= <- <-] Hin. simpl in *.
  split; [done|]. split; [done|]. split; [|split; [|split; [done|]]].
  - unfold total. by rewrite Hperm.
  - apply (slice_sorted _ _ _ _ _ Hslice).
    unfold sorted_by, posted_after in Hsorted. revert Hsorted.
    generalize (filteredJobs rt s filters). induction 1 as [|x l Hl IH Hx]; constructor; [done|].
    eapply Forall_impl; [exact Hx|]. intros y Hy. simpl in Hy. lia.
  - intros Hlim. rewrite (slice_length _ _ _ _ Hslice).
    unfold slice in Hslice. destruct (_ && _) eqn:Hb; [|done].
    rewrite !andb_true_iff, !Z.leb_le in Hb.
    assert (0 ≤ total) by lia.
    assert (0 ≤ offset).
    { unfold start in Hb. destruct (Z.gtb_spec offset total); lia. }
    pose proof (wrap64_le (offset + limit)).
    unfold stop, stop0, start in *.
    destruct (Z.eqb_spec limit 0); [lia|].
    destruct (Z.gtb_spec offset total), (Z.gtb_spec (wrap64 (offset + limit)) total); lia.
Qed.

Lemma Search_page_newest_first_witness :
  runtime_ok rt_forward
  ∧ ∃ resp : SearchResponse.t float,
      Search rt_forward example_store (with_paging no_filters 1 2) = Ok (resp, None)
      ∧ SearchResponse.Total resp = 3
      ∧ StronglySorted (λ a b, Job.PostedDate b ≤ Job.PostedDate a) (SearchResponse.Jobs resp)
      ∧ (∀ job, job ∈ SearchResponse.Jobs resp → job ∈ jobs example_store)
      ∧ Z.of_nat (length (SearchResponse.Jobs resp)) ≤ 2.
Proof.
  split; [exact rt_forward_ok|].
  destruct (Search (F:=float) rt_forward example_store (with_paging no_filters 1 2))
    as [[resp err]|p] eqn:Hs; [|by vm_compute in Hs].
  destruct (Search_page_newest_first rt_forward example_store (with_paging no_filters 1 2)
              resp err rt_forward_ok Hs) as (-> & _ & Htotal & Hsorted & Hin & Hlen).
  exists resp. split; [reflexivity|]. split; [exact Htotal|]. split; [exact Hsorted|].
  split; [intros job Hjob; exact (proj1 (Hin job Hjob))|].
  apply Hlen. simpl. lia.
Defined.

(** X3. Consecutive pages fit together: the page of [a] jobs at [offset]
    followed by the page of [b] jobs at [offset + a] is the page of [a + b]
    jobs at [offset].  A second page asked for with limit [0] runs to the
    end, and so does the combined page. *)
Theorem Search_pages_concatenate {F : Type} `{Float64 F} (rt : GoRuntime)
    (s : InMemoryStorage) (filters : SearchFilters.t) (offset a b : Z) :
  0 ≤ offset → 0 < a → 0 ≤ b → offset + a + b < 2 ^ 63 →
  ∃ first rest both : SearchResponse.t F,
    Search rt s (with_paging filters offset a) = Ok (first, None)
    ∧ Search rt s (with_paging filters (offset + a) b) = Ok (rest, None)
    ∧ Search rt s (with_paging filters offset (if b =? 0 then 0 else a + b)) = Ok (both, None)
    ∧ SearchResponse.Jobs first ++ SearchResponse.Jobs rest = SearchResponse.Jobs both.
Proof.
  intros Hoff Ha Hb Hsum.
  rewrite (Search_page rt s (with_paging filters offset a)) by (simpl; lia).
  rewrite (Search_page rt s (with_paging filters (offset + a) b)) by (simpl; lia).
  rewrite (Search_page rt s (with_paging filters offset (if b =? 0 then 0 else a + b)))
    by (simpl; destruct (b =? 0); lia).
  do 3 eexists. split; [reflexivity|]. split; [reflexivity|]. split; [reflexivity|].
  cbn [SearchResponse.Jobs SearchFilters.Offset SearchFilters.Limit with_paging].
  rewrite !filteredJobs_paging.
  set (l := filteredJobs rt s filters).
  destruct (Z.eqb_spec a 0); [lia|].
  replace (Z.to_nat (offset + a)) with (Z.to_nat offset + Z.to_nat a)%nat by lia.
  rewrite <- drop_drop.
  destruct (Z.eqb_spec b 0) as [->|Hb0].
  - simpl. apply take_drop.
  - destruct (Z.eqb_spec (a + b) 0); [lia|].
    replace (Z.to_nat (a + b)) with (Z.to_nat a + Z.to_nat b)%nat by lia.
    apply take_take_drop.
Qed.

Lemma Search_pages_concatenate_witness :
  ∃ first rest both : SearchResponse.t float,
    Search rt_forward example_store (with_paging no_filters 0 1) = Ok (first, None)
    ∧ Search rt_forward example_store (with_paging no_filters 1 2) = Ok (rest, None)
    ∧ Search rt_forward example_store (with_paging no_filters 0 3) = Ok (both, None)
    ∧ SearchResponse.Jobs first ++ SearchResponse.Jobs rest = SearchResponse.Jobs both.
Proof.
  apply (Search_pages_concatenate (F:=float) rt_forward example_store no_filters 0 1 2); lia.
Defined.

Lemma matchesFilters_no_constraint (job : Job.t) (offset limit : Z) :
  matchesFilters job (with_paging no_filters offset limit) = true.
Proof. reflexivity. Qed.

Lemma filter_no_constraint (l : list Job.t) (offset limit : Z) :
  filter (λ job, matchesFilters job (with_paging no_filters offset limit) = true) l = l.
Proof.
  induction l as [|job l IH]; [done|].
  rewrite filter_cons_True by apply matchesFilters_no_constraint. by rewrite IH.
Qed.

Lemma GetAnalytics_nil {F : Type} `{Float64 F} (rt : GoRuntime) :
  GetAnalytics (F:=F) rt [] = JobAnalytics_zero.
Proof. reflexivity. Qed.

(** X4. [Clear] returns no error and leaves a storage in which every search
    finds nothing and reports zero analytics; a job stored before can be
    stored again afterwards. *)
Theorem Clear_forgets_everything {F : Type} `{Float64 F} (rt : GoRuntime)
    (s : InMemoryStorage) (filters : SearchFilters.t) (incoming : list Job.t) :
  runtime_ok rt →
  0 ≤ SearchFilters.Offset filters → 0 ≤ SearchFilters.Limit filters →
  SearchFilters.Offset filters + SearchFilters.Limit filters < 2 ^ 63 →
  (Clear s).2 = None
  ∧ Search (F:=F) rt (Clear s).1 filters
    = Ok ({| SearchResponse.Jobs := []; SearchResponse.Total := 0;
             SearchResponse.Analytics := JobAnalytics_zero;
             SearchResponse.Filters := filters |}, None)
  ∧ jobs (Store (Clear s).1 incoming).1 = first_by_URL [] incoming
  ∧ (∀ job, job ∈ jobs s → jobs (Store (Clear s).1 [job]).1 = [job]).
Proof.
  intros [Hsort _] Hoff Hlim Hsum. split; [done|].
  assert (filteredJobs rt (Clear s).1 filters = []) as Hnil.
  { unfold filteredJobs. simpl. apply Permutation_nil_r.
    destruct (Hsort Job.t posted_after []) as [Hp _]. by rewrite Hp. }
  split; [|split].
  - rewrite Search_page by done. rewrite Hnil. cbn [length Z.of_nat].
    rewrite drop_nil, GetAnalytics_nil.
    by destruct (SearchFilters.Limit filters =? 0); rewrite ?take_nil.
  - by rewrite Store_jobs.
  - intros job _. by rewrite Store_jobs.
Qed.

Lemma Clear_forgets_everything_witness :
  runtime_ok rt_forward
  ∧ (Clear example_store).2 = None
  ∧ Search (F:=float) rt_forward (Clear example_store).1 (with_paging no_filters 0 10)
    = Ok ({| SearchResponse.Jobs := []; SearchResponse.Total := 0;
             SearchResponse.Analytics := JobAnalytics_zero;
             SearchResponse.Filters := with_paging no_filters 0 10 |}, None)
  ∧ jobs (Store (Clear example_store).1 [java_job; java_job]).1
    = first_by_URL [] [java_job; java_job]
  ∧ (∀ job, job ∈ jobs example_store → jobs (Store (Clear example_store).1 [job]).1 = [job]).
Proof.
  split; [exact rt_forward_ok|].
  apply (Clear_forgets_everything (F:=float) rt_forward example_store
           (with_paging no_filters 0 10) [java_job; java_job] rt_forward_ok); simpl; lia.
Defined.

(** X5. With offset and limit both zero, [Search] returns every stored job
    that matches the filters, each as often as it is stored, and [Total] is
    the length of the page. *)
Theorem Search_unpaged_returns_all_matches {F : Type} `{Float64 F} (rt : GoRuntime)
    (s : InMemoryStorage) (filters : SearchFilters.t) :
  runtime_ok rt →
  SearchFilters.Offset filters = 0 → SearchFilters.Limit filters = 0 →
  ∃ resp : SearchResponse.t F,
    Search rt s filters = Ok (resp, None)
    ∧ SearchResponse.Jobs resp ≡ₚ filter (λ job, matchesFilters job filters = true) (jobs s)
    ∧ SearchResponse.Total resp = Z.of_nat (length (SearchResponse.Jobs resp))
    ∧ ∀ job, job ∈ SearchResponse.Jobs resp
             ↔ job ∈ jobs s ∧ matchesFilters job filters = true.
Proof.
  intros Hrt Hoff Hlim. rewrite Search_page by (rewrite ?Hoff, ?Hlim; lia).
  eexists. split; [reflexivity|]. rewrite Hoff, Hlim.
  cbn [SearchResponse.Jobs SearchResponse.Total Z.eqb].
  change (Z.to_nat 0) with 0%nat. rewrite drop_0.
  split; [by apply filteredJobs_perm|]. split; [done|].
  intros job. rewrite filteredJobs_elem_of by done. tauto.
Qed.

Lemma Search_unpaged_returns_all_matches_witness :
  runtime_ok rt_forward
  ∧ ∃ resp : SearchResponse.t float,
      Search rt_forward example_store (with_salary no_filters 0 100000) = Ok (resp, None)
      ∧ SearchResponse.Jobs resp
        ≡ₚ filter (λ job, matchesFilters job (with_salary no_filters 0 100000) = true)
                  (jobs example_store)
      ∧ SearchResponse.Total resp = Z.of_nat (length (SearchResponse.Jobs resp))
      ∧ ∀ job, job ∈ SearchResponse.Jobs resp
               ↔ job ∈ jobs example_store
                 ∧ matchesFilters job (with_salary no_filters 0 100000) = true.
Proof.
  split; [exact rt_forward_ok|].
  apply (Search_unpaged_returns_all_matches (F:=float) rt_forward example_store
           (with_salary no_filters 0 100000) rt_forward_ok); reflexivity.
Defined.

(** X6. After any sequence of [Store] calls on a new storage, an
    unconstrained [Search] lists every URL that was stored, each once. *)
Theorem Store_then_Search_lists_each_URL_once {F : Type} `{Float64 F} (rt : GoRuntime)
    (batches : list (list Job.t)) :
  runtime_ok rt →
  ∃ resp : SearchResponse.t F,
    Search rt (StoreAll NewInMemoryStorage batches) no_filters = Ok (resp, None)
    ∧ NoDup (Job.URL <$> SearchResponse.Jobs resp)
    ∧ (∀ batch job, batch ∈ batches → job ∈ batch →
         Job.URL job ∈ Job.URL <$> SearchResponse.Jobs resp)
    ∧ SearchResponse.Total resp
      = Z.of_nat (length (jobs (StoreAll NewInMemoryStorage batches))).
Proof.
  intros Hrt. rewrite Search_page by (simpl; lia).
  eexists. split; [reflexivity|].
  cbn [SearchResponse.Jobs SearchResponse.Total SearchFilters.Offset SearchFilters.Limit
       no_filters Z.eqb].
  change (Z.to_nat 0) with 0%nat. rewrite drop_0.
  pose proof (filteredJobs_perm rt (StoreAll NewInMemoryStorage batches) no_filters Hrt)
    as Hperm.
  rewrite (filter_no_constraint _ 0 0) in Hperm.
  split; [|split].
  - rewrite Hperm. apply StoreAll_NoDup.
  - intros batch job Hbatch Hjob. rewrite Hperm, StoreAll_concat, Store_jobs. simpl.
    destruct (first_by_URL_covers [] (concat batches) (Job.URL job)) as [Hin|Hin];
      [|by apply elem_of_nil in Hin|done].
    apply list_elem_of_fmap_2, list_elem_of_In, in_concat.
    exists batch. by rewrite <- !list_elem_of_In.
  - by rewrite Hperm.
Qed.

Lemma Store_then_Search_lists_each_URL_once_witness :
  runtime_ok rt_forward
  ∧ ∃ resp : SearchResponse.t float,
      Search rt_forward
             (StoreAll NewInMemoryStorage [[go_docker_job; go_only_job]; [go_only_job; java_job]])
             no_filters = Ok (resp, None)
      ∧ NoDup (Job.URL <$> SearchResponse.Jobs resp)
      ∧ (∀ batch job,
           batch ∈ [[go_docker_job; go_only_job]; [go_only_job; java_job]] → job ∈ batch →
           Job.URL job ∈ Job.URL <$> SearchResponse.Jobs resp)
      ∧ SearchResponse.Total resp
        = Z.of_nat (length (jobs (StoreAll NewInMemoryStorage
                                    [[go_docker_job; go_only_job]; [go_only_job; java_job]]))).
Proof.
  split; [exact rt_forward_ok|].
  apply (Store_then_Search_lists_each_URL_once (F:=float) rt_forward
           [[go_docker_job; go_only_job]; [go_only_job; java_job]] rt_forward_ok).
Defined.

(** *** The distributions of [GetAnalytics] *)

Section distribution_facts.

Context {F : Type} `{Float64 F}.
Implicit Types (st : analytics_loop F) (jobs : list Job.t) (k : string).

(** The keys a distribution counts: the values of [field] that are set. *)
Lemma counted_loop (field : Job.t → string) (proj : analytics_loop F → gmap string Z) :
  (∀ st job, proj (analytics_step st job)
             = if nonempty_string (field job) then incr (proj st) (field job) else proj st) →
  ∀ st jobs,
    proj (foldl analytics_step st jobs)
    = foldl incr (proj st) (filter (λ v, v ≠ "") (field <$> jobs)).
Proof.
  intros Hstep st jobs. revert st. induction jobs as [|job jobs IH]; intros st; [done|].
  cbn [foldl]. rewrite IH, Hstep, fmap_cons, filter_cons. unfold nonempty_string.
  destruct (String.eqb_spec (field job) "") as [Heq|Hne].
  - by rewrite decide_False by (by intros ?).
  - by rewrite decide_True by done.
Qed.

Lemma occurrences_field (field : Job.t → string) jobs k :
  k ≠ "" →
  occurrences k (filter (λ v, v ≠ "") (field <$> jobs)) = count_jobs (λ job, field job = k) jobs.
Proof.
  intros Hk. unfold count_jobs. induction jobs as [|job jobs IH]; [done|].
  rewrite fmap_cons, !filter_cons.
  destruct (decide (field job = k)) as [Heq|Hne].
  - rewrite decide_True by congruence. rewrite occurrences_cons, decide_True by done.
    cbn [length]. lia.
  - destruct (decide (field job ≠ "")); [|done].
    rewrite occurrences_cons, decide_False by done. lia.
Qed.

Lemma distribution_lookup (field : Job.t → string) jobs k (c : Z) :
  foldl incr ∅ (filter (λ v, v ≠ "") (field <$> jobs)) !! k = Some c
  ↔ k ≠ "" ∧ 0 < c ∧ c = count_jobs (λ job, field job = k) jobs.
Proof.
  rewrite counts_lookup. split.
  - intros [-> Hin]. pose proof Hin as Hpos%occurrences_pos.
    apply list_elem_of_filter in Hin as [Hk _].
    by rewrite <- occurrences_field.
  - intros (Hk & Hpos & ->). rewrite <- (occurrences_field field) in * by done.
    split; [done|]. by apply occurrences_pos.
Qed.

Lemma degree_loop st jobs :
  degreeRequirements (foldl analytics_step st jobs)
  = foldl incr (degreeRequirements st)
          ((λ job, if Job.DegreeRequired job then "Required" else "Not Required") <$> jobs).
Proof.
  revert st. induction jobs as [|job jobs IH]; intros st; [done|].
  cbn [foldl]. rewrite IH, fmap_cons. cbn [foldl analytics_step degreeRequirements].
  by destruct (Job.DegreeRequired job).
Qed.

Lemma occurrences_degree (wanted : bool) jobs :
  occurrences (if wanted then "Required" else "Not Required")
    ((λ job, if Job.DegreeRequired job then "Required" else "Not Required") <$> jobs)
  = count_jobs (λ job, Job.DegreeRequired job = wanted) jobs.
Proof.
  unfold count_jobs. induction jobs as [|job jobs IH]; [done|].
  rewrite fmap_cons, occurrences_cons, filter_cons, IH.
  destruct (Job.DegreeRequired job), wanted; simpl; lia.
Qed.

End distribution_facts.

Lemma counts_lookup_int (keys : list string) (k : string) :
  lookup_int (foldl incr ∅ keys) k = occurrences k keys.
Proof.
  unfold lookup_int at 1. rewrite foldl_incr_lookup.
  destruct (decide (k ∈ keys)) as [Hin|Hnin]; simpl.
  - unfold lookup_int. by rewrite lookup_empty.
  - rewrite lookup_empty. simpl.
    pose proof (occurrences_nonneg k keys).
    destruct (Z.eq_dec (occurrences k keys) 0); [done|]. exfalso. apply Hnin.
    apply occurrences_pos. lia.
Qed.

Lemma GetAnalytics_loop {F : Type} `{Float64 F} (rt : GoRuntime) (job : Job.t)
    (jobs : list Job.t) :
  let st := foldl analytics_step analytics_loop_init (job :: jobs) in
  JobAnalytics.TotalJobs (GetAnalytics (F:=F) rt (job :: jobs)) = Z.of_nat (length (job :: jobs))
  ∧ JobAnalytics.ExperienceLevels (GetAnalytics (F:=F) rt (job :: jobs)) = experienceLevels st
  ∧ JobAnalytics.RemoteOptions (GetAnalytics (F:=F) rt (job :: jobs)) = remoteOptions st
  ∧ JobAnalytics.DegreeRequirements (GetAnalytics (F:=F) rt (job :: jobs))
    = degreeRequirements st
  ∧ JobAnalytics.LocationDistribution (GetAnalytics (F:=F) rt (job :: jobs))
    = locationDistribution st
  ∧ JobAnalytics.IndustryDistribution (GetAnalytics (F:=F) rt (job :: jobs))
    = industryDistribution st.
Proof.
  intros st. unfold GetAnalytics.
  destruct (Z.eqb_spec (Z.of_nat (length (job :: jobs))) 0) as [Hz|_];
    [simpl in Hz; lia|]. done.
Qed.

(** X7. Every distribution of [GetAnalytics] (experience levels, remote
    options, locations, industries) has exactly the non-empty values of its
    field as keys, each with the number of jobs that carry it. *)
Theorem GetAnalytics_distributions {F : Type} `{Float64 F} (rt : GoRuntime)
    (jobs : list Job.t) (k : string) (c : Z) :
  let a := GetAnalytics (F:=F) rt jobs in
  (JobAnalytics.ExperienceLevels a !! k = Some c
   ↔ k ≠ "" ∧ 0 < c ∧ c = count_jobs (λ job, Job.ExperienceLevel job = k) jobs)
  ∧ (JobAnalytics.RemoteOptions a !! k = Some c
     ↔ k ≠ "" ∧ 0 < c ∧ c = count_jobs (λ job, Job.RemoteOption job = k) jobs)
  ∧ (JobAnalytics.LocationDistribution a !! k = Some c
     ↔ k ≠ "" ∧ 0 < c ∧ c = count_jobs (λ job, Job.Location job = k) jobs)
  ∧ (JobAnalytics.IndustryDistribution a !! k = Some c
     ↔ k ≠ "" ∧ 0 < c ∧ c = count_jobs (λ job, Job.Industry job = k) jobs).
Proof.
  intros a. unfold a. destruct jobs as [|job jobs].
  { unfold GetAnalytics, count_jobs. simpl. rewrite lookup_empty.
    split_and!; (split; [done|lia]). }
  destruct (GetAnalytics_loop (F:=F) rt job jobs) as (_ & -> & -> & _ & -> & ->).
  rewrite (counted_loop Job.ExperienceLevel experienceLevels) by done.
  rewrite (counted_loop Job.RemoteOption remoteOptions) by done.
  rewrite (counted_loop Job.Location locationDistribution) by done.
  rewrite (counted_loop Job.Industry industryDistribution) by done.
  cbn [analytics_loop_init experienceLevels remoteOptions locationDistribution
       industryDistribution].
  split_and!; apply distribution_lookup.
Qed.

Lemma count_jobs_degree (jobs : list Job.t) :
  count_jobs (λ job, Job.DegreeRequired job = true) jobs
  + count_jobs (λ job, Job.DegreeRequired job = false) jobs
  = Z.of_nat (length jobs).
Proof.
  unfold count_jobs. induction jobs as [|job jobs IH]; [done|].
  rewrite !filter_cons. destruct (Job.DegreeRequired job); simpl in *; lia.
Qed.

(** X8. [GetAnalytics] counts every job under exactly one of the keys
    [Required] and [Not Required]: the two counts add up to [TotalJobs], and
    the map has no other key. *)
Theorem GetAnalytics_degree_counts {F : Type} `{Float64 F} (rt : GoRuntime)
    (jobs : list Job.t) :
  let a := GetAnalytics (F:=F) rt jobs in
  JobAnalytics.TotalJobs a = Z.of_nat (length jobs)
  ∧ lookup_int (JobAnalytics.DegreeRequirements a) "Required"
    = count_jobs (λ job, Job.DegreeRequired job = true) jobs
  ∧ lookup_int (JobAnalytics.DegreeRequirements a) "Not Required"
    = count_jobs (λ job, Job.DegreeRequired job = false) jobs
  ∧ lookup_int (JobAnalytics.DegreeRequirements a) "Required"
    + lookup_int (JobAnalytics.DegreeRequirements a) "Not Required"
    = JobAnalytics.TotalJobs a
  ∧ ∀ k, k ≠ "Required" → k ≠ "Not Required" →
         JobAnalytics.DegreeRequirements a !! k = None.
Proof.
  intros a.
  assert (JobAnalytics.TotalJobs a = Z.of_nat (length jobs)
          ∧ JobAnalytics.DegreeRequirements a
            = foldl incr ∅ ((λ job, if Job.DegreeRequired job then "Required"
                                    else "Not Required") <$> jobs)) as [Htotal Hmap].
  { unfold a. destruct jobs as [|job jobs]; [done|].
    destruct (GetAnalytics_loop (F:=F) rt job jobs) as (-> & _ & _ & -> & _).
    by rewrite degree_loop. }
  rewrite Hmap, Htotal, !counts_lookup_int.
  rewrite (occurrences_degree true), (occurrences_degree false).
  split; [done|]. split; [done|]. split; [done|]. split; [apply count_jobs_degree|].
  intros k Ht Hf. rewrite foldl_incr_lookup, lookup_empty.
  rewrite decide_False; [done|].
  intros (job & -> & _)%list_elem_of_fmap. by destruct (Job.DegreeRequired job).
Qed.

(** *** More on the rate limiter *)

Section Wait_more.

Implicit Types (rt : GoRuntime) (rl : RateLimiter) (ctx : Context) (now : Z).

Lemma refill_Ok rl now :
  interval rl ≠ 0 → ∃ t, refill rl now = Ok t ∧ t ≤ rate rl.
Proof.
  intros Hint. destruct (refill rl now) as [t|p] eqn:Hrefill.
  - exists t. split; [done|]. by eapply refill_le_rate.
  - unfold refill in Hrefill. by rewrite go_div_nonzero in Hrefill by done.
Qed.

Lemma Wait_token_held rt rl ctx now (t : Z) :
  refill rl now = Ok t → 0 < t →
  Wait rt rl ctx now
  = Ok ({| rate := rate rl; interval := interval rl;
           tokens := wrap64 (t - 1); lastTime := now |}, None).
Proof.
  intros Hrefill Ht. unfold Wait. rewrite Hrefill. simpl.
  by destruct (Z.gtb_spec t 0); [|lia].
Qed.

End Wait_more.

(** X9. [Wait] panics exactly when the interval or the rate of the limiter
    is zero, in both cases on an integer division by zero.  In every other
    case it returns and leaves the rate and the interval as they were and
    the time of the call as [lastTime]. *)
Theorem Wait_panics_iff (rt : GoRuntime) (rl : RateLimiter) (ctx : Context) (now : Z) :
  (interval rl = 0 ∨ rate rl = 0 → Wait rt rl ctx now = Panicked IntegerDivideByZero)
  ∧ (interval rl ≠ 0 → rate rl ≠ 0 →
     ∃ rl' err, Wait rt rl ctx now = Ok (rl', err)
                ∧ rate rl' = rate rl ∧ interval rl' = interval rl ∧ lastTime rl' = now).
Proof.
  split.
  - intros [Hint|Hrate]; [|by apply Wait_zero_rate].
    unfold Wait, refill. by rewrite Hint, go_div_zero.
  - intros Hint Hrate. unfold Wait.
    destruct (refill_Ok rl now Hint) as (t & -> & _). simpl.
    destruct (t >? 0); [by eauto 10|].
    rewrite go_div_nonzero by done. simpl.
    destruct (select_wait _ _ _ _); by eauto 10.
Qed.

(** X10. The only error [Wait] returns is the error of its context, and only
    for a context that is done at some time.  It then found the bucket empty
    and has taken no token: the token count is what the refill left. *)
Theorem Wait_error_is_cancellation (rt : GoRuntime) (rl rl' : RateLimiter) (ctx : Context)
    (now : Z) (e : string) :
  Wait rt rl ctx now = Ok (rl', Some e) →
  e = ctx_err ctx
  ∧ (∃ d, done_at ctx = Some d)
  ∧ refill rl now = Ok (tokens rl')
  ∧ tokens rl' ≤ 0
  ∧ rl' = {| rate := rate rl; interval := interval rl;
             tokens := tokens rl'; lastTime := now |}.
Proof.
  unfold Wait. destruct (refill rl now) as [t|] eqn:Hrefill; simpl; [|done].
  destruct (Z.gtb_spec t 0); [done|].
  destruct (go_div _ _) as [w|]; simpl; [|done].
  unfold select_wait. destruct (done_at ctx) as [d|] eqn:Hd; [|done].
  destruct (_ <? _); [|destruct (_ <? _); [done|destruct (select_tie rt); [done|]]];
    intros [= <- <-]; simpl; eauto 10.
Qed.

Lemma Wait_error_is_cancellation_witness :
  Wait rt_forward empty_limiter cancelled_ctx 10
  = Ok ({| rate := 5; interval := 1000000000; tokens := 0; lastTime := 10 |},
        Some "context canceled")
  ∧ "context canceled" = ctx_err cancelled_ctx
  ∧ (∃ d, done_at cancelled_ctx = Some d)
  ∧ refill empty_limiter 10 = Ok 0.
Proof.
  split; [reflexivity|].
  destruct (Wait_error_is_cancellation rt_forward empty_limiter
              {| rate := 5; interval := 1000000000; tokens := 0; lastTime := 10 |}
              cancelled_ctx 10 "context canceled" eq_refl) as (He & Hd & Hr & _).
  split; [exact He|]. split; [exact Hd|exact Hr].
Defined.

(** X11. With a context that is never done, a non-zero interval and a
    positive rate, [Wait] returns without an error and leaves a token count
    from [0] to [rate - 1]. *)
Theorem Wait_never_fails_without_cancellation (rt : GoRuntime) (rl : RateLimiter)
    (ctx : Context) (now : Z) :
  done_at ctx = None → interval rl ≠ 0 → 0 < rate rl < 2 ^ 63 →
  ∃ rl', Wait rt rl ctx now = Ok (rl', None)
         ∧ 0 ≤ tokens rl' < rate rl
         ∧ rate rl' = rate rl ∧ interval rl' = interval rl ∧ lastTime rl' = now.
Proof.
  intros Hnever Hint Hrate. unfold Wait.
  destruct (refill_Ok rl now Hint) as (t & -> & Ht). simpl.
  destruct (Z.gtb_spec t 0).
  - eexists. split; [reflexivity|]. simpl. rewrite wrap64_small by lia. lia.
  - rewrite go_div_nonzero by lia. simpl. unfold select_wait. rewrite Hnever.
    eexists. split; [reflexivity|]. simpl. rewrite wrap64_small by lia. lia.
Qed.

Lemma Wait_never_fails_without_cancellation_witness :
  done_at background_ctx = None
  ∧ interval empty_limiter ≠ 0 ∧ 0 < rate empty_limiter < 2 ^ 63
  ∧ ∃ rl', Wait rt_forward empty_limiter background_ctx 10 = Ok (rl', None)
           ∧ 0 ≤ tokens rl' < rate empty_limiter
           ∧ rate rl' = rate empty_limiter ∧ interval rl' = interval empty_limiter
           ∧ lastTime rl' = 10.
Proof.
  split; [reflexivity|]. split; [simpl; lia|]. split; [simpl; lia|].
  apply (Wait_never_fails_without_cancellation rt_forward empty_limiter
           background_ctx 10); simpl; (reflexivity || lia).
Defined.

Lemma Wait_each_drains (rt : GoRuntime) (rl : RateLimiter) (ctx : Context) (times : list Z) :
  0 < interval rl < 2 ^ 63 → tokens rl ≤ rate rl → rate rl < 2 ^ 63 →
  Z.of_nat (length times) ≤ tokens rl →
  within_interval (interval rl) (lastTime rl) times →
  Wait_each rt rl ctx times
  = Ok ({| rate := rate rl; interval := interval rl;
           tokens := tokens rl - Z.of_nat (length times);
           lastTime := default (lastTime rl) (last times) |},
        replicate (length times) None).
Proof.
  revert rl. induction times as [|now later IH]; intros rl Hint Htok Hrate Hlen Hgaps.
  - destruct rl. simpl. by rewrite Z.sub_0_r.
  - destruct Hgaps as [Hgap Hgaps]. cbn [Wait_each length replicate].
    assert (refill rl now = Ok (tokens rl)) as Hrefill.
    { rewrite refill_within_interval by (cbn [length] in Hlen; lia).
      f_equal. lia. }
    rewrite (Wait_token_held rt rl ctx now (tokens rl) Hrefill)
      by (cbn [length] in Hlen; lia).
    rewrite wrap64_small by (cbn [length] in Hlen; lia).
    cbn [mbind result_bind].
    rewrite IH; cbn [rate interval tokens lastTime length] in *; try lia; [|done].
    cbn [mbind result_bind].
    replace (default (lastTime rl) (last (now :: later))) with (default now (last later))
      by (rewrite last_cons; by destruct (last later)).
    do 3 f_equal. lia.
Qed.

Lemma Wait_each_app (rt : GoRuntime) (rl : RateLimiter) (ctx : Context) (a b : list Z) :
  Wait_each rt rl ctx (a ++ b)
  = '(rl', errs) ← Wait_each rt rl ctx a;
    '(rl'', errs') ← Wait_each rt rl' ctx b;
    Ok (rl'', errs ++ errs').
Proof.
  revert rl. induction a as [|now a IH]; intros rl; simpl.
  - by destruct (Wait_each rt rl ctx b) as [[? ?]|].
  - destruct (Wait rt rl ctx now) as [[rl' err]|]; simpl; [|done].
    rewrite IH. destruct (Wait_each rt rl' ctx a) as [[rl'' errs]|]; simpl; [|done].
    by destruct (Wait_each rt rl'' ctx b) as [[? ?]|].
Qed.

Lemma within_interval_app (interval last_ : Z) (a b : list Z) :
  within_interval interval last_ (a ++ b)
  ↔ within_interval interval last_ a ∧ within_interval interval (default last_ (last a)) b.
Proof.
  revert last_. induction a as [|now a IH]; intros last_; simpl; [tauto|].
  rewrite IH. replace (default last_ (last (now :: a))) with (default now (last a))
    by (rewrite last_cons; by destruct (last a)).
  tauto.
Qed.

(** X12. A limiter from [NewRateLimiter] serves up to [rate] calls that
    follow each other within less than one interval, each without an error
    and without regard to the context, and takes one token for each. *)
Theorem NewRateLimiter_serves_rate_calls_at_once (rt : GoRuntime) (ctx : Context)
    (r i t0 : Z) (times : list Z) :
  0 < i < 2 ^ 63 → r < 2 ^ 63 → Z.of_nat (length times) ≤ r →
  within_interval i t0 times →
  ∃ rl, NewRateLimiter r i t0 = Ok rl
        ∧ Wait_each rt rl ctx times
          = Ok ({| rate := r; interval := i;
                   tokens := r - Z.of_nat (length times);
                   lastTime := default t0 (last times) |},
                replicate (length times) None).
Proof.
  intros Hint Hrate Hlen Hgaps. eexists. split; [reflexivity|].
  by rewrite Wait_each_drains; simpl; try lia.
Qed.

Lemma NewRateLimiter_serves_rate_calls_at_once_witness :
  ∃ rl, NewRateLimiter 5 1000000000 0 = Ok rl
        ∧ Wait_each rt_forward rl cancelled_ctx [1; 2; 3; 4; 5]
          = Ok ({| rate := 5; interval := 1000000000; tokens := 0; lastTime := 5 |},
                [None; None; None; None; None]).
Proof.
  apply (NewRateLimiter_serves_rate_calls_at_once rt_forward cancelled_ctx
           5 1000000000 0 [1; 2; 3; 4; 5]); simpl; lia.
Defined.

(** X13. When the timer of [Wait] fires on an empty bucket, the whole
    bucket is refilled at once: after the [rate] calls that empty a new
    limiter, the next call and [rate - 1] more return without an error,
    although no call comes a whole interval after the one before it. *)
Theorem Wait_timer_refills_whole_bucket (rt : GoRuntime) (ctx : Context)
    (r i t0 now : Z) (burst more : list Z) :
  done_at ctx = None →
  0 < i < 2 ^ 63 → 0 < r < 2 ^ 63 →
  Z.of_nat (length burst) = r → Z.of_nat (length more) = r - 1 →
  within_interval i t0 (burst ++ now :: more) →
  ∃ rl, NewRateLimiter r i t0 = Ok rl
        ∧ Wait_each rt rl ctx (burst ++ now :: more)
          = Ok ({| rate := r; interval := i;
                   tokens := 0; lastTime := default now (last more) |},
                replicate (length burst + 1 + length more) None).
Proof.
  intros Hnever Hint Hrate Hburst Hmore [Hgaps [Hgap Hgaps']]%within_interval_app.
  eexists. split; [reflexivity|].
  rewrite Wait_each_app, Wait_each_drains by (simpl; (lia || done)).
  cbn [mbind result_bind rate interval tokens lastTime Wait_each].
  set (rl := {| rate := r |}).
  assert (refill rl now = Ok 0) as Hrefill.
  { rewrite refill_within_interval; subst rl; simpl; [f_equal| | |]; lia. }
  unfold Wait at 1. rewrite Hrefill. cbn [mbind result_bind].
  change (0 >? 0) with false. cbv iota. subst rl. cbn [rate interval tokens lastTime].
  rewrite go_div_nonzero by lia. cbn [mbind result_bind].
  unfold select_wait. rewrite Hnever.
  cbn [mbind result_bind]. rewrite wrap64_small by lia.
  rewrite Wait_each_drains by (simpl; (lia || done)).
  cbn [mbind result_bind rate interval tokens lastTime].
  replace (length burst + 1 + length more)%nat
    with (length burst + S (length more))%nat by lia.
  rewrite replicate_add. do 3 f_equal. lia.
Qed.

Lemma Wait_timer_refills_whole_bucket_witness :
  ∃ rl, NewRateLimiter 3 1000000000 0 = Ok rl
        ∧ Wait_each rt_forward rl background_ctx ([1; 2; 3] ++ 4 :: [5; 6])
          = Ok ({| rate := 3; interval := 1000000000; tokens := 0; lastTime := 6 |},
                [None; None; None; None; None; None]).
Proof.
  apply (Wait_timer_refills_whole_bucket rt_forward background_ctx
           3 1000000000 0 4 [1; 2; 3] [5; 6]); simpl; (reflexivity || lia).
Defined.

(** *** The scraper registry *)

Section registry_facts.

Implicit Types (sr : ScraperRegistry) (name : string) (config : ScraperConfig.t).

Lemma with_Enabled_same config :
  ScraperConfig.with_Enabled config (ScraperConfig.Enabled config) = config.
Proof. by destruct config. Qed.

Lemma implementation_Some name (scraper : scraper_impl) :
  implementation name = Some scraper →
  name ∈ ["remoteok"; "weworkremotely"; "linkedin"; "jobstreet"].
Proof.
  unfold implementation.
  destruct (String.eqb_spec name "remoteok") as [->|_]; [set_solver|].
  destruct (String.eqb_spec name "weworkremotely") as [->|_]; [set_solver|].
  destruct (String.eqb_spec name "linkedin") as [->|_]; [set_solver|].
  destruct (String.eqb_spec name "jobstreet") as [->|_]; [set_solver|done].
Qed.

Lemma implementation_None name :
  implementation name = None ↔
  name ∉ ["remoteok"; "weworkremotely"; "linkedin"; "jobstreet"].
Proof.
  split.
  - intros Hnone Hin.
    repeat (apply elem_of_cons in Hin as [->|Hin]; [by vm_compute in Hnone|]).
    by apply elem_of_nil in Hin.
  - intros Hnot. destruct (implementation name) as [scraper|] eqn:Himpl; [|done].
    by apply implementation_Some in Himpl.
Qed.

Lemma implementation_inj name name' (scraper : scraper_impl) :
  implementation name = Some scraper → implementation name' = Some scraper → name' = name.
Proof.
  intros Hname Hname'.
  pose proof (implementation_Some _ _ Hname) as Hin.
  pose proof (implementation_Some _ _ Hname') as Hin'.
  repeat (apply elem_of_cons in Hin as [->|Hin]);
    repeat (apply elem_of_cons in Hin' as [->|Hin']);
    try done; try (by apply elem_of_nil in Hin); try (by apply elem_of_nil in Hin');
    vm_compute in Hname, Hname'; congruence.
Qed.

Lemma CreateScraper_enabled sr name config :
  configs sr !! name = Some config → ScraperConfig.Enabled config = true →
  CreateScraper sr name
  = match implementation name with
    | Some scraper => (Some scraper, None)
    | None => (None, Some ("scraper implementation not found: " +:+ name))
    end.
Proof. intros Hcfg Hen. unfold CreateScraper. by rewrite Hcfg, Hen. Qed.

Lemma GetEnabledScrapers_loop sr (entries : list (string * ScraperConfig.t))
    (scrapers : list scraper_impl) :
  (∀ name config, (name, config) ∈ entries → configs sr !! name = Some config) →
  foldl (λ scrapers '(name, config),
           if ScraperConfig.Enabled config then
             match CreateScraper sr name with
             | (Some scraper, None) => scrapers ++ [scraper]
             | _ => scrapers
             end
           else scrapers) scrapers entries
  = scrapers ++ omap enabled_scraper entries.
Proof.
  revert scrapers. induction entries as [|[name config] entries IH]; intros scrapers Hin.
  - by rewrite app_nil_r.
  - cbn [foldl]. rewrite IH by (intros n c ?; apply Hin; by right).
    unfold omap at 2; cbn [list_omap]; fold (omap enabled_scraper entries).
    unfold enabled_scraper at 2. cbn [fst snd].
    destruct (ScraperConfig.Enabled config) eqn:Hen; [|done].
    rewrite (CreateScraper_enabled sr name config) by (try apply Hin; by try left).
    destruct (implementation name); [|done]. by rewrite <- app_assoc.
Qed.

Lemma GetEnabledScrapers_omap range_configs sr :
  range_ok range_configs →
  GetEnabledScrapers range_configs sr ≡ₚ omap enabled_scraper (map_to_list (configs sr)).
Proof.
  intros Hrange. unfold GetEnabledScrapers. rewrite GetEnabledScrapers_loop.
  - simpl. by rewrite (Hrange (configs sr)).
  - intros name config Hin. rewrite (Hrange (configs sr)) in Hin.
    by apply elem_of_map_to_list in Hin.
Qed.

End registry_facts.

(** X14. [EnableScraper] and [DisableScraper] fail with [scraper not found]
    on an unknown name and leave the registry as it was; on a known name they
    return no error, change the [Enabled] flag of that configuration and
    nothing else, and undo each other. *)
Theorem EnableScraper_changes_only_the_flag (sr : ScraperRegistry) (name : string) :
  (configs sr !! name = None →
     EnableScraper sr name = (sr, Some ("scraper not found: " +:+ name))
     ∧ DisableScraper sr name = (sr, Some ("scraper not found: " +:+ name))
     ∧ GetScraperConfig sr name
       = (ScraperConfig.zero, Some ("scraper not found: " +:+ name)))
  ∧ (∀ config, configs sr !! name = Some config →
       (EnableScraper sr name).2 = None ∧ (DisableScraper sr name).2 = None
       ∧ GetScraperConfig (EnableScraper sr name).1 name
         = (ScraperConfig.with_Enabled config true, None)
       ∧ GetScraperConfig (DisableScraper sr name).1 name
         = (ScraperConfig.with_Enabled config false, None)
       ∧ (∀ other, other ≠ name →
            GetScraperConfig (EnableScraper sr name).1 other = GetScraperConfig sr other
            ∧ GetScraperConfig (DisableScraper sr name).1 other = GetScraperConfig sr other)
       ∧ (ScraperConfig.Enabled config = false →
            (DisableScraper (EnableScraper sr name).1 name).1 = sr)
       ∧ (ScraperConfig.Enabled config = true →
            (EnableScraper (DisableScraper sr name).1 name).1 = sr)).
Proof.
  split.
  - intros Hnone. unfold EnableScraper, DisableScraper, GetScraperConfig. by rewrite Hnone.
  - intros config Hcfg. unfold EnableScraper, DisableScraper, GetScraperConfig.
    rewrite Hcfg. cbn [fst snd configs]. rewrite !lookup_insert_eq.
    split_and!; try done.
    + intros other Hother. by rewrite !lookup_insert_ne.
    + intros Hen. cbn [fst]. rewrite insert_insert_eq.
      destruct sr as [m]. f_equal. cbn [configs] in *.
      apply insert_id. rewrite Hcfg. f_equal. by destruct config; simplify_eq/=.
    + intros Hen. cbn [fst]. rewrite insert_insert_eq.
      destruct sr as [m]. f_equal. cbn [configs] in *.
      apply insert_id. rewrite Hcfg. f_equal. by destruct config; simplify_eq/=.
Qed.

(** X15. [CreateScraper] returns a scraper exactly for a name that is
    configured, enabled and one of the four names of its [switch]; it returns
    a scraper or an error, never both; a configuration added under any other
    name by [AddCustomScraper] never yields a scraper. *)
Theorem CreateScraper_succeeds_iff (sr : ScraperRegistry) (name : string) :
  ((CreateScraper sr name).2 = None
   ↔ ∃ config, configs sr !! name = Some config ∧ ScraperConfig.Enabled config = true
               ∧ name ∈ ["remoteok"; "weworkremotely"; "linkedin"; "jobstreet"])
  ∧ ((CreateScraper sr name).1 = None ↔ (CreateScraper sr name).2 ≠ None)
  ∧ (∀ custom config, custom ∉ ["remoteok"; "weworkremotely"; "linkedin"; "jobstreet"] →
       (CreateScraper (AddCustomScraper sr custom config) custom).1 = None).
Proof.
  split; [|split].
  - unfold CreateScraper. destruct (configs sr !! name) as [config|] eqn:Hcfg; simpl.
    + destruct (ScraperConfig.Enabled config) eqn:Hen; simpl.
      * destruct (implementation name) as [scraper|] eqn:Himpl; simpl.
        -- split; [|done]. intros _. exists config. split_and!; try done.
           by eapply implementation_Some.
        -- split; [done|]. intros (? & _ & _ & Hin).
           by apply implementation_None in Himpl.
      * split; [done|]. intros (config' & [= <-] & Hen' & _). congruence.
    + split; [done|]. by intros (? & ? & _).
  - unfold CreateScraper. destruct (configs sr !! name) as [config|]; simpl; [|done].
    destruct (ScraperConfig.Enabled config); simpl; [|done].
    by destruct (implementation name).
  - intros custom config Hnot. unfold CreateScraper, AddCustomScraper. cbn [configs].
    rewrite lookup_insert_eq. apply implementation_None in Hnot. rewrite Hnot.
    by destruct (ScraperConfig.Enabled config).
Qed.

(** X16. Whatever the order of the [range] loop, [GetEnabledScrapers]
    returns one scraper for every configured and enabled name that
    [CreateScraper] implements, and none twice.  For a new registry these are
    the RemoteOK and the WeWorkRemotely scraper: the enabled Indeed
    configuration yields none. *)
Theorem GetEnabledScrapers_enabled_and_implemented
    (range_configs : gmap string ScraperConfig.t → list (string * ScraperConfig.t))
    (sr : ScraperRegistry) :
  range_ok range_configs →
  (∀ scraper, scraper ∈ GetEnabledScrapers range_configs sr
              ↔ ∃ name config, configs sr !! name = Some config
                               ∧ ScraperConfig.Enabled config = true
                               ∧ implementation name = Some scraper)
  ∧ NoDup (GetEnabledScrapers range_configs sr)
  ∧ GetEnabledScrapers range_configs NewScraperRegistry
    ≡ₚ [RemoteOK_impl; WeWorkRemotely_impl].
Proof.
  intros Hrange. pose proof (GetEnabledScrapers_omap range_configs sr Hrange) as Hperm.
  split; [|split].
  - intros scraper. rewrite Hperm, list_elem_of_omap. split.
    + intros ([name config] & Hin%elem_of_map_to_list & Hsome).
      unfold enabled_scraper in Hsome. simpl in Hsome.
      destruct (ScraperConfig.Enabled config) eqn:Hen; [|done]. eauto.
    + intros (name & config & Hcfg & Hen & Himpl). exists (name, config).
      split; [by apply elem_of_map_to_list|]. unfold enabled_scraper. simpl. by rewrite Hen.
  - rewrite Hperm. pose proof (NoDup_fst_map_to_list (configs sr)) as Hkeys.
    revert Hkeys. generalize (map_to_list (configs sr)).
    induction l as [|[name config] l IH]; intros Hkeys; [constructor|].
    rewrite fmap_cons in Hkeys. apply NoDup_cons in Hkeys as [Hname Hkeys].
    unfold omap; cbn [list_omap]; fold (omap enabled_scraper l).
    destruct (enabled_scraper (name, config)) as [scraper|] eqn:Hsome; [|by apply IH].
    apply NoDup_cons. split; [|by apply IH].
    intros ([name' config'] & Hin & Hsome')%list_elem_of_omap.
    assert (name' = name) as ->.
    { unfold enabled_scraper in Hsome, Hsome'. simpl in *.
      destruct (ScraperConfig.Enabled config), (ScraperConfig.Enabled config'); try done.
      by eapply implementation_inj. }
    apply Hname. by apply (list_elem_of_fmap_2 fst) in Hin.
  - rewrite (GetEnabledScrapers_omap range_configs NewScraperRegistry Hrange).
    vm_compute. apply perm_swap.
Qed.

Lemma GetEnabledScrapers_enabled_and_implemented_witness :
  range_ok (λ m : gmap string ScraperConfig.t, map_to_list m)
  ∧ NoDup (GetEnabledScrapers map_to_list NewScraperRegistry)
  ∧ GetEnabledScrapers map_to_list NewScraperRegistry
    ≡ₚ [RemoteOK_impl; WeWorkRemotely_impl].
Proof.
  assert (range_ok (λ m : gmap string ScraperConfig.t, map_to_list m)) as Hrange
    by (intros m; reflexivity).
  split; [exact Hrange|].
  exact (proj2 (GetEnabledScrapers_enabled_and_implemented map_to_list NewScraperRegistry
                  Hrange)).
Defined.



(** *** The LinkedIn scraper *)

Lemma LinkedIn_Authenticate_each_keeps (l : LinkedInScraper.t)
    (credentials : list (string * string)) :
  LinkedInScraper.Authenticate_each l credentials = l.
Proof.
  unfold LinkedInScraper.Authenticate_each.
  induction credentials as [|[username password] credentials IH]; [done|]. exact IH.
Qed.

(** X18. [Authenticate] always returns an error and never marks the
    LinkedIn scraper as authenticated, so after any number of calls [Scrape]
    still fails with [LinkedIn scraper requires authentication], and the
    scraper adds no job to what [GetAllJobs] collects. *)
Theorem LinkedIn_never_scrapes (credentials : list (string * string)) (posted : Z)
    (ctx : Context) (filters : SearchFilters.t) (before after : list JobScraper) :
  let l := LinkedInScraper.Authenticate_each NewLinkedInScraper credentials in
  (∀ username password,
     (LinkedInScraper.Authenticate l username password).2 ≠ None
     ∧ LinkedInScraper.authenticated (LinkedInScraper.Authenticate l username password).1 = false)
  ∧ LinkedInScraper.Scrape l posted ctx filters
    = ([], Some "LinkedIn scraper requires authentication")
  ∧ GetAllJobs (ScrapeAll (before ++ LinkedIn_JobScraper l posted :: after) ctx filters)
    = GetAllJobs (ScrapeAll (before ++ after) ctx filters).
Proof.
  intros l. subst l. rewrite LinkedIn_Authenticate_each_keeps.
  split; [done|]. split; [done|].
  unfold ScrapeAll. rewrite !fmap_app, fmap_cons, !GetAllJobs_app, GetAllJobs_cons.
  by simpl.
Qed.

(** *** The filters of the scrapers *)

Lemma RemoteOK_matchesFilters_rules (job : Job.t) (filters : SearchFilters.t) :
  RemoteOKScraper.matchesFilters job filters
  = title_rule job filters
    && (keywords_rule job filters
    && (min_salary_rule job filters
    && (max_salary_rule job filters
    && (experience_rule job filters
    && (degree_rule job filters
    && skills_rule job filters))))).
Proof.
  pose proof (matchesFilters_rules job
                {| SearchFilters.JobTitle := SearchFilters.JobTitle filters;
                   SearchFilters.Keywords := SearchFilters.Keywords filters;
                   SearchFilters.Location := ""; SearchFilters.Locations := [];
                   SearchFilters.RemoteOnly := false;
                   SearchFilters.MinSalary := SearchFilters.MinSalary filters;
                   SearchFilters.MaxSalary := SearchFilters.MaxSalary filters;
                   SearchFilters.ExperienceLevel := SearchFilters.ExperienceLevel filters;
                   SearchFilters.DegreeRequired := SearchFilters.DegreeRequired filters;
                   SearchFilters.Skills := SearchFilters.Skills filters;
                   SearchFilters.CompanySize := ""; SearchFilters.Industry := "";
                   SearchFilters.JobCategory := ""; SearchFilters.JobSites := [];
                   SearchFilters.Limit := 0; SearchFilters.Offset := 0 |}) as Hrules.
  rewrite andb_true_r in Hrules. exact Hrules.
Qed.

Lemma WeWorkRemotely_matchesFilters_rules (job : Job.t) (filters : SearchFilters.t) :
  WeWorkRemotelyScraper.matchesFilters job filters
  = title_rule job filters
    && (keywords_rule job filters
    && (min_salary_rule job filters
    && (max_salary_rule job filters
    && (experience_rule job filters
    && degree_rule job filters)))).
Proof.
  pose proof (matchesFilters_rules job
                {| SearchFilters.JobTitle := SearchFilters.JobTitle filters;
                   SearchFilters.Keywords := SearchFilters.Keywords filters;
                   SearchFilters.Location := ""; SearchFilters.Locations := [];
                   SearchFilters.RemoteOnly := false;
                   SearchFilters.MinSalary := SearchFilters.MinSalary filters;
                   SearchFilters.MaxSalary := SearchFilters.MaxSalary filters;
                   SearchFilters.ExperienceLevel := SearchFilters.ExperienceLevel filters;
                   SearchFilters.DegreeRequired := SearchFilters.DegreeRequired filters;
                   SearchFilters.Skills := [];
                   SearchFilters.CompanySize := ""; SearchFilters.Industry := "";
                   SearchFilters.JobCategory := ""; SearchFilters.JobSites := [];
                   SearchFilters.Limit := 0; SearchFilters.Offset := 0 |}) as Hrules.
  rewrite !andb_true_r in Hrules. exact Hrules.
Qed.

Lemma Mock_matchesBasicFilters_rules (job : Job.t) (filters : SearchFilters.t) :
  MockJobScraper.matchesBasicFilters job filters
  = title_rule job filters
    && (location_rule job filters
    && (locations_rule job filters
    && (remote_rule job filters
    && (experience_rule job filters
    && degree_rule job filters)))).
Proof.
  pose proof (matchesFilters_rules job
                {| SearchFilters.JobTitle := SearchFilters.JobTitle filters;
                   SearchFilters.Keywords := [];
                   SearchFilters.Location := SearchFilters.Location filters;
                   SearchFilters.Locations := SearchFilters.Locations filters;
                   SearchFilters.RemoteOnly := SearchFilters.RemoteOnly filters;
                   SearchFilters.MinSalary := 0;
                   SearchFilters.MaxSalary := 0;
                   SearchFilters.ExperienceLevel := SearchFilters.ExperienceLevel filters;
                   SearchFilters.DegreeRequired := SearchFilters.DegreeRequired filters;
                   SearchFilters.Skills := [];
                   SearchFilters.CompanySize := ""; SearchFilters.Industry := "";
                   SearchFilters.JobCategory := ""; SearchFilters.JobSites := [];
                   SearchFilters.Limit := 0; SearchFilters.Offset := 0 |}) as Hrules.
  rewrite !andb_true_r in Hrules. exact Hrules.
Qed.

Lemma matchesFilters_RemoteOK (job : Job.t) (filters : SearchFilters.t) :
  matchesFilters job filters
  = RemoteOKScraper.matchesFilters job filters
    && (location_rule job filters && locations_rule job filters && remote_rule job filters).
Proof.
  rewrite matchesFilters_rules, RemoteOK_matchesFilters_rules.
  destruct (title_rule job filters), (keywords_rule job filters),
    (location_rule job filters), (locations_rule job filters), (remote_rule job filters),
    (min_salary_rule job filters), (max_salary_rule job filters),
    (experience_rule job filters), (degree_rule job filters), (skills_rule job filters);
    done.
Qed.

(** X19. The filter of the storage is the filter of each scraper together
    with the rules that scraper leaves out: RemoteOK leaves out the location,
    locations and remote rules, WeWorkRemotely also the skills rule, the mock
    scraper the keywords, salary and skills rules.  A job that [Search]
    accepts therefore passes the filter of every scraper. *)
Theorem matchesFilters_refines_scraper_filters (job : Job.t) (filters : SearchFilters.t) :
  matchesFilters job filters
  = RemoteOKScraper.matchesFilters job filters
    && (location_rule job filters && locations_rule job filters && remote_rule job filters)
  ∧ matchesFilters job filters
    = WeWorkRemotelyScraper.matchesFilters job filters
      && (location_rule job filters && locations_rule job filters && remote_rule job filters
          && skills_rule job filters)
  ∧ matchesFilters job filters
    = MockJobScraper.matchesBasicFilters job filters
      && (keywords_rule job filters && min_salary_rule job filters
          && max_salary_rule job filters && skills_rule job filters)
  ∧ RemoteOKScraper.matchesFilters job filters
    = WeWorkRemotelyScraper.matchesFilters job filters && skills_rule job filters.
Proof.
  rewrite matchesFilters_rules, RemoteOK_matchesFilters_rules,
    WeWorkRemotely_matchesFilters_rules, Mock_matchesBasicFilters_rules.
  destruct (title_rule job filters), (keywords_rule job filters),
    (location_rule job filters), (locations_rule job filters), (remote_rule job filters),
    (min_salary_rule job filters), (max_salary_rule job filters),
    (experience_rule job filters), (degree_rule job filters), (skills_rule job filters);
    done.
Qed.

(** *** The helpers of [BaseScraper] *)

Lemma append_assoc3 (a b c : string) : (a +:+ b) +:+ c = a +:+ (b +:+ c).
Proof. induction a as [|x a IH]; [done|]. rewrite !append_String. by rewrite IH. Qed.

(** A substring of a substring is a substring. *)
Lemma Contains_trans (s mid sub : string) :
  Contains s mid = true → Contains mid sub = true → Contains s sub = true.
Proof.
  rewrite !Contains_spec. intros (p2 & q2 & ->) (p1 & q1 & ->).
  exists (p2 +:+ p1), (q1 +:+ q2). by rewrite !append_assoc3.
Qed.

Section collect_skills_facts.

Context (found : string → bool) (key : string → string).

Lemma collect_loop (candidates skills : list string) (skillSet : gmap string bool) :
  (∀ v, lookup_bool skillSet v = true ↔ v ∈ key <$> skills) →
  ∃ added,
    (foldl (λ '(skills, skillSet) candidate,
              if found candidate && negb (lookup_bool skillSet (key candidate))
              then (skills ++ [candidate], <[key candidate := true]> skillSet)
              else (skills, skillSet))
           (skills, skillSet) candidates).1 = skills ++ added
    ∧ added `sublist_of` candidates
    ∧ (∀ x, x ∈ added → found x = true)
    ∧ (NoDup (key <$> skills) → NoDup (key <$> skills ++ added))
    ∧ (∀ x, x ∈ candidates → found x = true → key x ∈ key <$> skills ++ added)
    ∧ ((∀ x, x ∈ candidates → key x ∉ key <$> skills) → NoDup (key <$> candidates) →
       added = filter (λ x, found x = true) candidates).
Proof.
  revert skills skillSet. induction candidates as [|c candidates IH];
    intros skills skillSet Hset.
  - exists []. rewrite app_nil_r. split_and!; try done.
    + intros x Hx. by apply elem_of_nil in Hx.
    + intros x Hx. by apply elem_of_nil in Hx.
  - cbn [foldl].
    destruct (found c) eqn:Hfound; cbn [andb].
    + destruct (lookup_bool skillSet (key c)) eqn:Hseen; cbn [negb].
      * destruct (IH skills skillSet Hset) as (added & Heq & Hsub & Hfnd & Hnd & Hcov & Hall).
        exists added. split_and!; try done.
        -- by apply sublist_cons.
        -- intros x [->|Hx]%elem_of_cons Hx'; [|by apply Hcov].
           rewrite fmap_app. apply elem_of_app. left. by apply Hset.
        -- intros Hfresh _. exfalso. apply (Hfresh c); [by left|]. by apply Hset.
      * destruct (IH (skills ++ [c]) (<[key c := true]> skillSet))
          as (added & Heq & Hsub & Hfnd & Hnd & Hcov & Hall).
        { intros v. rewrite lookup_bool_insert, Hset, fmap_app, elem_of_app.
          simpl. rewrite list_elem_of_singleton. intuition congruence. }
        exists (c :: added). rewrite Heq, <- app_assoc. split_and!; try done.
        -- by apply sublist_skip.
        -- intros x [->|Hx]%elem_of_cons; [done|by apply Hfnd].
        -- intros Hskills. rewrite <- app_assoc in Hnd. apply Hnd.
           rewrite fmap_app. apply NoDup_app. split_and!; try done.
           ++ intros v Hv [->|Hv']%elem_of_cons; [|by apply elem_of_nil in Hv'].
              apply Hset in Hv. congruence.
           ++ simpl. apply NoDup_singleton.
        -- intros x [->|Hx]%elem_of_cons Hx'.
           ++ rewrite fmap_app, fmap_cons. apply elem_of_app. right. by left.
           ++ rewrite <- app_assoc in Hcov. by apply Hcov.
        -- intros Hfresh Hkeys. rewrite fmap_cons in Hkeys.
           apply NoDup_cons in Hkeys as [Hc Hkeys].
           rewrite filter_cons_True by done. f_equal. apply Hall; [|done].
           intros x Hx. rewrite fmap_app, elem_of_app. intros [Hin|Hin].
           ++ by apply (Hfresh x); [right|].
           ++ simpl in Hin. apply list_elem_of_singleton in Hin.
              apply Hc. rewrite <- Hin. by apply list_elem_of_fmap_2.
    + destruct (IH skills skillSet Hset) as (added & Heq & Hsub & Hfnd & Hnd & Hcov & Hall).
      exists added. split_and!; try done.
      * by apply sublist_cons.
      * intros x [->|Hx]%elem_of_cons Hx'; [congruence|by apply Hcov].
      * intros Hfresh Hkeys. rewrite fmap_cons in Hkeys.
        apply NoDup_cons in Hkeys as [Hc Hkeys].
        rewrite filter_cons_False by congruence. apply Hall; [|done].
        intros x Hx. apply Hfresh. by right.
Qed.

(** What the loop of the skill extractors collects. *)
Lemma collect_skills_spec (candidates : list string) :
  collect_skills found key candidates `sublist_of` candidates
  ∧ (∀ x, x ∈ collect_skills found key candidates → found x = true)
  ∧ NoDup (key <$> collect_skills found key candidates)
  ∧ (∀ x, x ∈ candidates → found x = true →
          key x ∈ key <$> collect_skills found key candidates)
  ∧ (NoDup (key <$> candidates) →
     collect_skills found key candidates = filter (λ x, found x = true) candidates).
Proof.
  unfold collect_skills.
  destruct (collect_loop candidates [] ∅) as (added & -> & Hsub & Hfnd & Hnd & Hcov & Hall).
  { intros v. unfold lookup_bool. rewrite lookup_empty. simpl. rewrite elem_of_nil.
    intuition discriminate. }
  simpl. split_and!; try done.
  - apply Hnd. constructor.
  - intros Hkeys. apply Hall; [|done]. intros x _ Hx. by apply elem_of_nil in Hx.
Qed.

End collect_skills_facts.

Lemma filter_ext_elem_of {A} (P1 P2 : A → Prop) `{∀ x, Decision (P1 x)}
    `{∀ x, Decision (P2 x)} (l : list A) :
  (∀ x, x ∈ l → P1 x ↔ P2 x) → filter P1 l = filter P2 l.
Proof.
  induction l as [|x l IH]; intros Hiff; [done|].
  rewrite !filter_cons, IH by (intros y Hy; apply Hiff; by right).
  assert (P1 x ↔ P2 x) as Hx by (apply Hiff; by left).
  destruct (decide (P1 x)) as [H1|H1], (decide (P2 x)) as [H2|H2]; tauto.
Qed.

Lemma commonSkills_lower (skill : string) : skill ∈ commonSkills → ToLower skill = skill.
Proof.
  assert (Forall (λ skill, ToLower skill = skill) commonSkills) as Hall.
  { unfold commonSkills. repeat constructor. }
  intros Hin. by eapply Forall_forall in Hall.
Qed.

Lemma commonSkills_NoDup : NoDup commonSkills.
Proof. apply (bool_decide_unpack _). by vm_compute. Qed.

(** X20. [ExtractSkills] returns the entries of its skill list that occur
    in the lower-cased description, in the order of the list and each once.
    The match is by substring: a listed skill inside a found skill, or inside
    any word of the description, is found as well. *)
Theorem ExtractSkills_substring_matches (description : string) :
  ExtractSkills description
  = filter (λ skill, Contains (ToLower description) skill = true) commonSkills
  ∧ (∀ shorter longer,
       shorter ∈ commonSkills → longer ∈ ExtractSkills description →
       Contains longer shorter = true → shorter ∈ ExtractSkills description)
  ∧ (∀ word skill, skill ∈ commonSkills → Contains (ToLower word) skill = true →
       Contains (ToLower description) (ToLower word) = true →
       skill ∈ ExtractSkills description).
Proof.
  assert (ExtractSkills description
          = filter (λ skill, Contains (ToLower description) skill = true) commonSkills)
    as Heq.
  { unfold ExtractSkills.
    destruct (collect_skills_spec (λ skill, Contains (ToLower description) (ToLower skill))
                id commonSkills) as (_ & _ & _ & _ & ->).
    - apply filter_ext_elem_of. intros skill Hskill.
      rewrite (commonSkills_lower skill) by done. reflexivity.
    - rewrite list_fmap_id. apply commonSkills_NoDup. }
  split; [exact Heq|]. split.
  - intros shorter longer Hshort Hlong Hsub. rewrite Heq in *.
    apply list_elem_of_filter in Hlong as [Hlong _].
    apply list_elem_of_filter. split; [|done]. by eapply Contains_trans.
  - intros word skill Hskill Hword Hdesc. rewrite Heq.
    apply list_elem_of_filter. split; [|done]. by eapply Contains_trans.
Qed.

Lemma Contains_any (s : string) (phrases : list string) (word : string) :
  Forall (λ phrase, Contains phrase word = true) phrases →
  existsb (λ phrase, Contains s phrase) phrases = true → Contains s word = true.
Proof.
  intros Hall. rewrite existsb_exists. intros (phrase & Hin & Hphrase).
  apply list_elem_of_In in Hin. eapply Forall_forall in Hall; [|done].
  by eapply Contains_trans.
Qed.

Lemma DetermineExperienceLevel_elem_of (title description : string) :
  DetermineExperienceLevel title description ∈ ["senior"; "entry"; "mid"].
Proof.
  unfold DetermineExperienceLevel.
  repeat match goal with |- context [if ?c then _ else _] => destruct c end; set_solver.
Qed.

(** X21. [DetermineExperienceLevel] returns [senior], [entry] or [mid] and
    never [lead]: [senior] exactly when a senior indicator is present,
    [entry] exactly when an entry indicator and no senior indicator is
    present, [mid] in every other case. *)
Theorem DetermineExperienceLevel_levels (title description : string) :
  let level := DetermineExperienceLevel title description in
  let senior :=
    Contains (ToLower title) "senior" || Contains (ToLower title) "lead"
    || Contains (ToLower title) "principal" || Contains (ToLower title) "architect"
    || Contains (ToLower description) "5+ years"
    || Contains (ToLower description) "7+ years" in
  let entry :=
    Contains (ToLower title) "junior" || Contains (ToLower title) "entry"
    || Contains (ToLower title) "graduate" || Contains (ToLower title) "intern"
    || Contains (ToLower description) "0-2 years"
    || Contains (ToLower description) "no experience" in
  level ∈ ["senior"; "entry"; "mid"]
  ∧ (level = "senior" ↔ senior = true)
  ∧ (level = "entry" ↔ senior = false ∧ entry = true)
  ∧ (level = "mid" ↔ senior = false ∧ entry = false)
  ∧ EqualFold level "lead" = false.
Proof.
  intros level senior entry. unfold level, DetermineExperienceLevel.
  fold senior entry. destruct senior, entry; cbv iota.
  1,2: split_and!; [set_solver|done|split; [done|by intros [? _]]
                    |split; [done|by intros [? _]]|done].
  - split_and!; [set_solver|done|done|split; [done|by intros [_ ?]]|done].
  - assert ((if Contains (ToLower description) "2-5 years"
                || Contains (ToLower description) "3+ years" then "mid" else "mid") = "mid")
      as -> by (by destruct (_ || _)).
    split_and!; [set_solver|done|split; [done|by intros [_ ?]]|done|done].
Qed.

(** X22. [CheckDegreeRequirement] returns [true] only for a description
    that mentions a degree, a bachelor or a master.  Of its required phrases
    only [degree required] matters, as it is part of all the others; with it
    the result is [true] whatever else is said, and without it a flexible
    phrase makes the result [false]. *)
Theorem CheckDegreeRequirement_mentions_degree (description : string) :
  let mentions (word : string) := Contains (ToLower description) word in
  (CheckDegreeRequirement description = true →
     mentions "degree" = true ∨ mentions "bachelor" = true ∨ mentions "master" = true)
  ∧ (mentions "degree required" = true → CheckDegreeRequirement description = true)
  ∧ (mentions "degree required" = false →
     existsb mentions flexibleReqs = true → CheckDegreeRequirement description = false)
  ∧ (existsb mentions degreeRequired = true ↔ mentions "degree required" = true).
Proof.
  intros mentions.
  assert (existsb mentions degreeRequired = true ↔ mentions "degree required" = true)
    as Hreq.
  { split.
    - apply Contains_any. unfold degreeRequired. by repeat constructor.
    - intros Hm. apply existsb_exists. exists "degree required".
      split; [|done]. apply list_elem_of_In. unfold degreeRequired. set_solver. }
  unfold CheckDegreeRequirement. fold mentions.
  change (existsb (λ req, Contains (ToLower description) req)) with (existsb mentions).
  split_and!; [| | |done].
  - destruct (existsb mentions degreeRequired) eqn:Hd.
    + intros _. left. revert Hd. apply Contains_any.
      unfold degreeRequired. by repeat constructor.
    + destruct (existsb mentions flexibleReqs); [done|].
      rewrite !orb_true_iff. tauto.
  - intros Hm. apply Hreq in Hm. by rewrite Hm.
  - intros Hm Hflex.
    destruct (existsb mentions degreeRequired) eqn:Hd; [|by rewrite Hflex].
    pose proof (proj1 Hreq eq_refl). congruence.
Qed.

(** *** The RemoteOK scraper *)


Lemma scraped_jobs_loop (time_Parse : string → option Z) (nows : list Z) (entries : list (nat * RemoteOKJob.t))
    (filters : SearchFilters.t) (jobs : list Job.t) (job : Job.t) :
  job ∈ foldl (λ jobs '(i, rJob),
                 if negb (nonempty_string (RemoteOKJob.ID rJob)) then jobs
                 else
                   let job := RemoteOKScraper.convertRemoteOKJob time_Parse (nows !!! i) rJob in
                   if RemoteOKScraper.matchesFilters job filters then jobs ++ [job] else jobs)
              jobs entries
  ↔ job ∈ jobs
    ∨ ∃ i rJob, (i, rJob) ∈ entries ∧ RemoteOKJob.ID rJob ≠ ""
                ∧ job = RemoteOKScraper.convertRemoteOKJob time_Parse (nows !!! i) rJob
                ∧ RemoteOKScraper.matchesFilters job filters = true.
Proof.
  revert jobs. induction entries as [|[i rJob] entries IH]; intros jobs.
  - simpl. split; [by left|]. intros [?|(? & ? & Hin & _)]; [done|].
    by apply elem_of_nil in Hin.
  - cbn [foldl]. rewrite IH. clear IH. unfold nonempty_string.
    destruct (String.eqb_spec (RemoteOKJob.ID rJob) "") as [Hid|Hid]; cbn [negb].
    + split; (intros [?|(i' & rJob' & Hin & Hrest)]; [by left|right]).
      * exists i', rJob'. split; [by right|done].
      * apply elem_of_cons in Hin as [Heq|Hin]; [injection Heq as -> ->|]; [by destruct Hrest|].
        by exists i', rJob'.
    + destruct (RemoteOKScraper.matchesFilters _ filters) eqn:Hmatch.
      * rewrite elem_of_app, list_elem_of_singleton. split.
        -- intros [[?| ->]|(i' & rJob' & Hin & Hrest)]; [by left| |].
           ++ right. exists i, rJob. split; [by left|done].
           ++ right. exists i', rJob'. split; [by right|done].
        -- intros [?|(i' & rJob' & Hin & Hrest)]; [by left; left|].
           apply elem_of_cons in Hin as [Heq|Hin]; [injection Heq as -> ->|].
           ++ left. right. by destruct Hrest as (_ & -> & _).
           ++ right. by exists i', rJob'.
      * split; (intros [?|(i' & rJob' & Hin & Hrest)]; [by left|right]).
        -- exists i', rJob'. split; [by right|done].
        -- apply elem_of_cons in Hin as [Heq|Hin]; [injection Heq as -> ->|].
           ++ destruct Hrest as (_ & -> & Hm). congruence.
           ++ by exists i', rJob'.
Qed.

(** X24. Every job the RemoteOK scraper returns comes from an item with an
    ID, passes the filter of the scraper, is located at [Remote] with remote
    option [remote] and has one of the levels [senior], [entry] and [mid].
    So the scraper returns nothing for the experience level [lead], and the
    storage accepts its jobs exactly when the location filters are parts of
    the word [remote]. *)
Theorem RemoteOK_scraped_jobs_are_remote (time_Parse : string → option Z) (nows : list Z)
    (remoteJobs : list RemoteOKJob.t) (filters : SearchFilters.t) (job : Job.t) :
  job ∈ RemoteOKScraper.scraped_jobs time_Parse nows remoteJobs filters →
  (∃ i rJob, remoteJobs !! i = Some rJob ∧ RemoteOKJob.ID rJob ≠ ""
             ∧ job = RemoteOKScraper.convertRemoteOKJob time_Parse (nows !!! i) rJob)
  ∧ RemoteOKScraper.matchesFilters job filters = true
  ∧ Job.Location job = "Remote" ∧ Job.RemoteOption job = "remote"
  ∧ Job.ExperienceLevel job ∈ ["senior"; "entry"; "mid"]
  ∧ EqualFold (SearchFilters.ExperienceLevel filters) "lead" = false
  ∧ matchesFilters job filters
    = (if nonempty_string (SearchFilters.Location filters)
       then Contains "remote" (ToLower (SearchFilters.Location filters)) else true)
      && (if SearchFilters.Locations filters is [] then true
          else existsb (λ loc, Contains "remote" (ToLower loc))
                       (SearchFilters.Locations filters)).
Proof.
  unfold RemoteOKScraper.scraped_jobs. rewrite scraped_jobs_loop.
  intros [Hnil|(i & rJob & Hin & Hid & -> & Hmatch)]; [by apply elem_of_nil in Hnil|].
  apply elem_of_lookup_imap in Hin as (i' & rJob' & [= <- <-] & Hlookup).
  set (job := RemoteOKScraper.convertRemoteOKJob time_Parse (nows !!! i) rJob) in *.
  assert (Job.ExperienceLevel job ∈ ["senior"; "entry"; "mid"]) as Hlevel.
  { unfold job, RemoteOKScraper.convertRemoteOKJob.
    destruct (if nonempty_string _ then _ else _) as [salaryMin salaryMax]. simpl.
    apply DetermineExperienceLevel_elem_of. }
  assert (Job.Location job = "Remote" ∧ Job.RemoteOption job = "remote") as [Hloc Hrem].
  { unfold job, RemoteOKScraper.convertRemoteOKJob.
    by destruct (if nonempty_string _ then _ else _) as [salaryMin salaryMax]. }
  split; [by eauto|]. split; [done|]. split; [done|]. split; [done|]. split; [done|].
  split.
  - rewrite RemoteOK_matchesFilters_rules in Hmatch.
    apply andb_true_iff in Hmatch as [_ Hmatch]. apply andb_true_iff in Hmatch as [_ Hmatch].
    apply andb_true_iff in Hmatch as [_ Hmatch]. apply andb_true_iff in Hmatch as [_ Hmatch].
    apply andb_true_iff in Hmatch as [Hexp _]. unfold experience_rule in Hexp.
    unfold EqualFold. destruct (String.eqb_spec (ToLower (SearchFilters.ExperienceLevel filters))
                                  (ToLower "lead")) as [Heq|Hne]; [|done].
    exfalso. unfold nonempty_string in Hexp.
    destruct (String.eqb_spec (SearchFilters.ExperienceLevel filters) "") as [Hempty|_].
    { rewrite Hempty in Heq. by vm_compute in Heq. }
    simpl in Hexp. rewrite Heq in Hexp. apply String.eqb_eq in Hexp.
    repeat (apply elem_of_cons in Hlevel as [Hl|Hlevel];
            [rewrite Hl in Hexp; by vm_compute in Hexp|]).
    by apply elem_of_nil in Hlevel.
  - rewrite matchesFilters_RemoteOK, Hmatch.
    unfold location_rule, locations_rule, remote_rule. rewrite Hloc, Hrem.
    change (ToLower "Remote") with "remote". change (ToLower "remote") with "remote".
    change (Contains "remote" "remote") with true.
    rewrite andb_true_l.
    destruct (SearchFilters.RemoteOnly filters), (SearchFilters.Locations filters);
      by rewrite andb_true_r.
Qed.

Lemma RemoteOK_scraped_jobs_are_remote_witness :
  RemoteOKScraper.convertRemoteOKJob (λ _, None) 5 example_RemoteOKJob
    ∈ RemoteOKScraper.scraped_jobs (λ _, None) [5] [example_RemoteOKJob] no_filters
  ∧ Job.Location (RemoteOKScraper.convertRemoteOKJob (λ _, None) 5 example_RemoteOKJob)
    = "Remote"
  ∧ Job.ExperienceLevel (RemoteOKScraper.convertRemoteOKJob (λ _, None) 5 example_RemoteOKJob)
    ∈ ["senior"; "entry"; "mid"]
  ∧ matchesFilters (RemoteOKScraper.convertRemoteOKJob (λ _, None) 5 example_RemoteOKJob)
                   no_filters = true.
Proof.
  assert (RemoteOKScraper.convertRemoteOKJob (λ _, None) 5 example_RemoteOKJob
            ∈ RemoteOKScraper.scraped_jobs (λ _, None) [5] [example_RemoteOKJob] no_filters)
    as Hin by (vm_compute; by left).
  destruct (RemoteOK_scraped_jobs_are_remote (λ _, None) [5] [example_RemoteOKJob] no_filters
              _ Hin) as (_ & _ & Hloc & _ & Hlevel & _ & Hmatch).
  split; [exact Hin|]. split; [exact Hloc|]. split; [exact Hlevel|exact Hmatch].
Defined.

(** *** The API handlers *)

Lemma Atoi_range (s : string) (val : Z) : Atoi s = Some val → - 2 ^ 63 ≤ val < 2 ^ 63.
Proof.
  assert (∀ (negative : bool) (body : string),
            match body with
            | EmptyString => None
            | _ =>
                match digits_value 0 body with
                | Some n =>
                    let val := if negative then - n else n in
                    if (- 2 ^ 63 <=? val) && (val <? 2 ^ 63) then Some val else None
                | None => None
                end
            end = Some val → - 2 ^ 63 ≤ val < 2 ^ 63) as Hsigned.
  { intros negative body. destruct body as [|c body]; [done|].
    destruct (digits_value 0 (String c body)) as [n|]; [|done]. cbv zeta.
    destruct (_ && _) eqn:Hrange; [|done]. intros [= <-].
    apply andb_true_iff in Hrange as [?%Z.leb_le ?%Z.ltb_lt]. lia. }
  unfold Atoi. destruct s as [|c s]; [done|].
  destruct (Ascii.eqb c "-"); [exact (Hsigned true s)|].
  destruct (Ascii.eqb c "+"); [exact (Hsigned false s)|exact (Hsigned false (String c s))].
Qed.

Lemma parseSearchFilters_paging (Get : string → string) :
  0 < SearchFilters.Limit (JobHandler.parseSearchFilters Get) < 2 ^ 63
  ∧ 0 ≤ SearchFilters.Offset (JobHandler.parseSearchFilters Get) < 2 ^ 63.
Proof.
  unfold JobHandler.parseSearchFilters. cbn [SearchFilters.Limit SearchFilters.Offset].
  split.
  - destruct (nonempty_string (Get "limit")); [|lia].
    destruct (Atoi (Get "limit")) as [val|] eqn:Hval; [|lia].
    apply Atoi_range in Hval. destruct (Z.gtb_spec val 0); lia.
  - destruct (nonempty_string (Get "offset")); [|lia].
    destruct (Atoi (Get "offset")) as [val|] eqn:Hval; [|lia].
    apply Atoi_range in Hval. destruct (Z.geb_spec val 0); lia.
Qed.

Lemma wrap64_overflow (z : Z) : 2 ^ 63 ≤ z < 2 ^ 64 → wrap64 z = z - 2 ^ 64.
Proof.
  intros Hz. unfold wrap64.
  replace (z + 2 ^ 63) with ((z - 2 ^ 63) + 1 * 2 ^ 64) by lia.
  rewrite Z.mod_add by lia. rewrite Z.mod_small by lia. lia.
Qed.

Lemma Search_overflow_panics {F} `{Float64 F} (rt : GoRuntime) (s : InMemoryStorage)
    (filters : SearchFilters.t) :
  0 ≤ SearchFilters.Offset filters < 2 ^ 63 → 0 < SearchFilters.Limit filters < 2 ^ 63 →
  2 ^ 63 ≤ SearchFilters.Offset filters + SearchFilters.Limit filters →
  Search (F:=F) rt s filters = Panicked SliceBoundsOutOfRange.
Proof.
  intros Hoff Hlim Hsum. unfold Search, slice.
  set (total := Z.of_nat (length (filteredJobs rt s filters))).
  assert (0 ≤ total) by lia.
  rewrite wrap64_overflow by lia.
  destruct (Z.eqb_spec (SearchFilters.Limit filters) 0); [lia|].
  set (start := if SearchFilters.Offset filters >? total then total
                else SearchFilters.Offset filters).
  set (stop := if SearchFilters.Offset filters + SearchFilters.Limit filters - 2 ^ 64 >? total
               then total
               else SearchFilters.Offset filters + SearchFilters.Limit filters - 2 ^ 64).
  assert (0 ≤ start) by (unfold start; destruct (Z.gtb_spec (SearchFilters.Offset filters) total); lia).
  assert (stop < 0).
  { unfold stop.
    destruct (Z.gtb_spec (SearchFilters.Offset filters + SearchFilters.Limit filters - 2 ^ 64)
                total); lia. }
  assert ((0 <=? start) && (start <=? stop) && (stop <=? total) = false) as ->; [|done].
  apply andb_false_iff. left. apply andb_false_iff. right. apply Z.leb_gt. lia.
Qed.

(** X25. [parseSearchFilters] always yields a positive limit and an offset
    that is not negative.  [SearchJobs] then answers with the search
    response as long as offset plus limit stays within [int], and panics on
    the slice bounds when the sum overflows, as it does for the largest
    offset an [int] holds.  [AdvancedSearch] takes the filters of the body as
    they are and panics on a negative offset. *)
Theorem SearchJobs_panics_on_paging_overflow {F : Type} `{Float64 F} (rt : GoRuntime)
    (scrapers : list JobScraper) (ctx : Context) (s : InMemoryStorage)
    (Get : string → string) :
  let filters := JobHandler.parseSearchFilters Get in
  0 < SearchFilters.Limit filters < 2 ^ 63
  ∧ 0 ≤ SearchFilters.Offset filters < 2 ^ 63
  ∧ (SearchFilters.Offset filters + SearchFilters.Limit filters < 2 ^ 63 →
     ∃ s' (response : SearchResponse.t F),
       JobHandler.SearchJobs rt scrapers ctx s Get = Ok (s', Json response))
  ∧ (2 ^ 63 ≤ SearchFilters.Offset filters + SearchFilters.Limit filters →
     JobHandler.SearchJobs (F:=F) rt scrapers ctx s Get = Panicked SliceBoundsOutOfRange)
  ∧ JobHandler.SearchJobs (F:=F) rt scrapers ctx s
      (query_of ["offset"] "9223372036854775807")
    = Panicked SliceBoundsOutOfRange
  ∧ (∀ body : SearchFilters.t, SearchFilters.Offset body < 0 →
       JobHandler.AdvancedSearch (F:=F) rt scrapers ctx s body
       = Panicked SliceBoundsOutOfRange).
Proof.
  intros filters. destruct (parseSearchFilters_paging Get) as [Hlim Hoff].
  fold filters in Hlim, Hoff. split; [done|]. split; [done|].
  unfold JobHandler.SearchJobs, JobHandler.AdvancedSearch, JobHandler.scrape_and_search.
  split; [|split; [|split]].
  - intros Hsum. fold filters. rewrite Search_page by lia. simpl. eauto.
  - intros Hsum. fold filters. by rewrite Search_overflow_panics.
  - rewrite Search_overflow_panics; [done| | |]; vm_compute; try split; congruence.
  - intros body Hneg. unfold Search, slice.
    set (stored := (Store s (GetAllJobs (ScrapeAll scrapers ctx body))).1).
    set (total := Z.of_nat (length (filteredJobs rt stored body))).
    assert (0 ≤ total) by lia.
    destruct (Z.gtb_spec (SearchFilters.Offset body) total); [lia|].
    destruct (Z.leb_spec 0 (SearchFilters.Offset body)); [lia|]. done.
Qed.

Lemma Contains_nothing (s : string) : Contains s "" = true.
Proof. by destruct s. Qed.

Lemma ToLower_empty (s : string) : ToLower s = "" → s = "".
Proof. by destruct s. Qed.

(** X26. A blank item in the [keywords] parameter switches the keyword
    filter off, as the empty keyword occurs in every text; a blank item in
    the [skills] parameter rejects every job that has no empty skill. *)
Theorem blank_items_of_query_lists (Get : string → string) (job : Job.t) :
  let filters := JobHandler.parseSearchFilters Get in
  (∀ piece, piece ∈ Split (Get "keywords") "," → TrimSpace piece = "" →
     matchesFilters job filters = matchesFilters job (with_keywords filters []))
  ∧ (∀ piece, piece ∈ Split (Get "skills") "," → TrimSpace piece = "" →
     Get "skills" ≠ "" → ("" ∉ Job.Skills job) → matchesFilters job filters = false).
Proof.
  intros filters. split.
  - intros piece Hpiece Hblank. rewrite !matchesFilters_rules.
    assert (keywords_rule job filters = keywords_rule job (with_keywords filters []))
      as ->; [|reflexivity].
    unfold filters, keywords_rule, JobHandler.parseSearchFilters.
    cbn [SearchFilters.Keywords with_keywords].
    destruct (nonempty_string (Get "keywords")); [|reflexivity].
    destruct (TrimSpace <$> Split (Get "keywords") ",") as [|kw kws] eqn:Hkws;
      [reflexivity|].
    apply existsb_exists. exists "". split; [|apply Contains_nothing].
    apply list_elem_of_In. rewrite <- Hkws. apply list_elem_of_fmap.
    exists piece. by rewrite Hblank.
  - intros piece Hpiece Hblank Hset Hskill. rewrite matchesFilters_rules.
    assert (skills_rule job filters = false) as ->; [|by rewrite !andb_false_r].
    unfold filters, skills_rule, JobHandler.parseSearchFilters.
    cbn [SearchFilters.Skills]. unfold nonempty_string.
    destruct (String.eqb_spec (Get "skills") "") as [?|_]; [done|]. cbn [negb].
    destruct (TrimSpace <$> Split (Get "skills") ",") as [|r rs] eqn:Hrs.
    { apply (list_elem_of_fmap_2 TrimSpace) in Hpiece. rewrite Hrs in Hpiece.
      by apply elem_of_nil in Hpiece. }
    apply not_true_is_false. rewrite forallb_forall. intros Hall.
    specialize (Hall ""). rewrite bool_decide_eq_true in Hall.
    assert ("" ∈ ToLower <$> Job.Skills job) as (skill & Hlower & Hin)%list_elem_of_fmap.
    { apply Hall, list_elem_of_In. rewrite <- Hrs. apply list_elem_of_fmap.
      exists piece. by rewrite Hblank. }
    symmetry in Hlower. apply ToLower_empty in Hlower. by subst.
Qed.

Lemma GetAnalytics_degree_sum {F : Type} `{Float64 F} (rt : GoRuntime) (jobs : list Job.t) :
  lookup_int (JobAnalytics.DegreeRequirements (GetAnalytics (F:=F) rt jobs)) "Required"
  + lookup_int (JobAnalytics.DegreeRequirements (GetAnalytics (F:=F) rt jobs)) "Not Required"
  = Z.of_nat (length jobs).
Proof.
  assert (JobAnalytics.DegreeRequirements (GetAnalytics (F:=F) rt jobs)
          = foldl incr ∅ ((λ job, if Job.DegreeRequired job then "Required"
                                  else "Not Required") <$> jobs)) as ->.
  { destruct jobs as [|job jobs]; [done|].
    destruct (GetAnalytics_loop (F:=F) rt job jobs) as (_ & _ & _ & -> & _).
    by rewrite degree_loop. }
  rewrite !counts_lookup_int, (occurrences_degree true), (occurrences_degree false).
  apply count_jobs_degree.
Qed.

(** X27. In the response of [SearchJobs] the field [TotalJobs] of the
    analytics is the number of jobs this request scraped, while [Total] and
    the degree counts of the analytics count the stored jobs that match the
    filters. *)
Theorem SearchJobs_TotalJobs_counts_scraped {F : Type} `{Float64 F} (rt : GoRuntime)
    (scrapers : list JobScraper) (ctx : Context) (s s' : InMemoryStorage)
    (Get : string → string) (response : SearchResponse.t F) :
  runtime_ok rt →
  JobHandler.SearchJobs rt scrapers ctx s Get = Ok (s', Json response) →
  let filters := JobHandler.parseSearchFilters Get in
  let allJobs := GetAllJobs (ScrapeAll scrapers ctx filters) in
  jobs s' = jobs s ++ first_by_URL (Job.URL <$> jobs s) allJobs
  ∧ JobAnalytics.TotalJobs (SearchResponse.Analytics response) = Z.of_nat (length allJobs)
  ∧ SearchResponse.Total response
    = count_jobs (λ job, matchesFilters job filters = true) (jobs s')
  ∧ lookup_int (JobAnalytics.DegreeRequirements (SearchResponse.Analytics response))
               "Required"
    + lookup_int (JobAnalytics.DegreeRequirements (SearchResponse.Analytics response))
                 "Not Required"
    = SearchResponse.Total response.
Proof.
  intros Hrt Hs filters allJobs.
  unfold JobHandler.SearchJobs, JobHandler.scrape_and_search in Hs.
  fold filters allJobs in Hs.
  destruct (Search rt (Store s allJobs).1 filters) as [[resp err]|] eqn:Hsearch;
    simpl in Hs; [|done].
  destruct err; [done|]. injection Hs as <- <-.
  split; [apply Store_jobs|]. split; [done|].
  unfold Search in Hsearch.
  destruct (slice _ _ _) as [page|]; simpl in Hsearch; [|done].
  injection Hsearch as <-. cbn [JobHandler.with_TotalJobs SearchResponse.Total
    SearchResponse.Analytics JobAnalytics.DegreeRequirements].
  split.
  - unfold count_jobs. by rewrite (filteredJobs_perm rt _ filters Hrt).
  - apply GetAnalytics_degree_sum.
Qed.

Lemma SearchJobs_TotalJobs_counts_scraped_witness :
  runtime_ok rt_forward
  ∧ ∃ s' (response : SearchResponse.t float),
      JobHandler.SearchJobs rt_forward [LinkedIn_JobScraper NewLinkedInScraper 0]
        background_ctx example_store (query_of [] "") = Ok (s', Json response)
      ∧ jobs s' = jobs example_store
      ∧ JobAnalytics.TotalJobs (SearchResponse.Analytics response) = 0
      ∧ SearchResponse.Total response = 3.
Proof.
  split; [exact rt_forward_ok|].
  destruct (JobHandler.SearchJobs (F:=float) rt_forward
              [LinkedIn_JobScraper NewLinkedInScraper 0] background_ctx example_store
              (query_of [] "")) as [[s' [response|message code]]|p] eqn:Hs;
    [|by vm_compute in Hs..].
  destruct (SearchJobs_TotalJobs_counts_scraped rt_forward
              [LinkedIn_JobScraper NewLinkedInScraper 0] background_ctx example_store s'
              (query_of [] "") response rt_forward_ok Hs) as (Hjobs & Htotal & Hcount & _).
  exists s', response. split; [reflexivity|]. split; [exact Hjobs|].
  split; [exact Htotal|]. rewrite Hcount, Hjobs. reflexivity.
Defined.

Lemma find_by_ID_Some (l : list Job.t) (jobID : string) (job : Job.t) :
  JobHandler.find_by_ID l jobID = Some job → job ∈ l ∧ Job.ID job = jobID.
Proof.
  induction l as [|x l IH]; [done|]. simpl.
  destruct (String.eqb_spec (Job.ID x) jobID) as [Hid|Hid].
  - intros [= <-]. split; [by left|done].
  - intros [Hin ?]%IH. split; [by right|done].
Qed.

Lemma find_by_ID_None (l : list Job.t) (jobID : string) :
  JobHandler.find_by_ID l jobID = None ↔ ∀ job, job ∈ l → Job.ID job ≠ jobID.
Proof.
  induction l as [|x l IH]; simpl.
  - split; [|done]. intros _ job Hin. by apply elem_of_nil in Hin.
  - destruct (String.eqb_spec (Job.ID x) jobID) as [Hid|Hid].
    + split; [done|]. intros Hall. exfalso. apply (Hall x); [by left|done].
    + rewrite IH. split.
      * intros Hall job [->|Hin]%elem_of_cons; [done|by apply Hall].
      * intros Hall job Hin. apply Hall. by right.
Qed.

(** X28. [GetJob] never panics.  It looks for the ID among the thousand
    newest stored jobs only: the job it returns is one of them and has the
    ID, and [Job not found] means that none of them has it, which for a
    storage of at most a thousand jobs means that no stored job has it. *)
Theorem GetJob_looks_at_newest_thousand {F : Type} `{Float64 F} (rt : GoRuntime)
    (s : InMemoryStorage) (jobID : string) :
  runtime_ok rt →
  let newest := take 1000 (filteredJobs rt s no_filters) in
  (∃ found, JobHandler.GetJob F rt s jobID = Ok found)
  ∧ (∀ job, JobHandler.GetJob F rt s jobID = Ok (Json job) →
       job ∈ jobs s ∧ job ∈ newest ∧ Job.ID job = jobID)
  ∧ (JobHandler.GetJob F rt s jobID = Ok (HttpError "Job not found" 404)
     ↔ ∀ job, job ∈ newest → Job.ID job ≠ jobID)
  ∧ (Z.of_nat (length (jobs s)) ≤ 1000 →
     (JobHandler.GetJob F rt s jobID = Ok (HttpError "Job not found" 404)
      ↔ ∀ job, job ∈ jobs s → Job.ID job ≠ jobID)).
Proof.
  intros Hrt newest. unfold JobHandler.GetJob.
  rewrite Search_page by (simpl; lia).
  cbn [mbind result_bind SearchResponse.Jobs SearchFilters.Offset SearchFilters.Limit
       with_paging]. change (Z.to_nat 0) with 0%nat. rewrite drop_0.
  change (1000 =? 0) with false. cbv iota.
  rewrite filteredJobs_paging. change (Z.to_nat 1000) with 1000%nat. fold newest.
  pose proof (filteredJobs_perm rt s (with_paging no_filters 0 0) Hrt) as Hperm.
  rewrite filter_no_constraint in Hperm.
  change (with_paging no_filters 0 0) with no_filters in Hperm.
  assert (∀ job, job ∈ newest → job ∈ jobs s) as Hstored.
  { intros job Hin. rewrite <- Hperm. eapply elem_of_sublist; [done|apply sublist_take]. }
  assert (JobHandler.find_by_ID newest jobID = None
          ↔ ∀ job, job ∈ newest → Job.ID job ≠ jobID) as Hnone
    by apply find_by_ID_None.
  destruct (JobHandler.find_by_ID newest jobID) as [job|] eqn:Hfind.
  - apply find_by_ID_Some in Hfind as [Hin Hid].
    assert (¬ ∀ job, job ∈ newest → Job.ID job ≠ jobID) as Hsome
      by (intros Hall; by apply (Hall job)).
    split; [by eexists|]. split; [by intros job' [= <-]; auto|].
    split; [split; [done|by intros ?]|].
    intros Hlen. split; [done|]. intros Hall. exfalso. apply Hsome.
    intros job' Hin'. by apply Hall, Hstored.
  - assert (∀ job, job ∈ newest → Job.ID job ≠ jobID) as Hall by (by apply Hnone).
    split; [by eexists|]. split; [done|]. split; [done|].
    intros Hlen. split; [|done]. intros _ job Hin. apply Hall.
    unfold newest. rewrite take_ge by (rewrite Hperm; lia). by rewrite Hperm.
Qed.

Lemma GetJob_looks_at_newest_thousand_witness :
  runtime_ok rt_forward
  ∧ JobHandler.GetJob float rt_forward example_store "" = Ok (Json go_docker_job)
  ∧ go_docker_job ∈ jobs example_store.
Proof.
  split; [exact rt_forward_ok|].
  destruct (GetJob_looks_at_newest_thousand (F:=float) rt_forward example_store ""
              rt_forward_ok) as (_ & Hfound & _).
  assert (JobHandler.GetJob float rt_forward example_store "" = Ok (Json go_docker_job))
    as Hget by reflexivity.
  split; [exact Hget|]. exact (proj1 (Hfound go_docker_job Hget)).
Defined.

(** X29. The analytics and the total of a search do not depend on the page
    asked for: they cover all stored jobs that match the filters.  The
    analytics handler therefore reports on every stored job, whatever its
    limit of a thousand. *)
Theorem analytics_cover_all_matches {F : Type} `{Float64 F} (rt : GoRuntime)
    (s : InMemoryStorage) (filters : SearchFilters.t) (offset limit : Z)
    (response : SearchResponse.t F) (err : error) :
  runtime_ok rt →
  Search rt s (with_paging filters offset limit) = Ok (response, err) →
  SearchResponse.Analytics response = GetAnalytics rt (filteredJobs rt s filters)
  ∧ JobAnalytics.TotalJobs (SearchResponse.Analytics response)
    = count_jobs (λ job, matchesFilters job filters = true) (jobs s)
  ∧ SearchResponse.Total response
    = JobAnalytics.TotalJobs (SearchResponse.Analytics response)
  ∧ (∃ analytics : JobAnalytics.t F,
       JobHandler.GetAnalytics rt s = Ok (Json analytics)
       ∧ JobAnalytics.TotalJobs analytics = Z.of_nat (length (jobs s))
       ∧ (filters = no_filters → analytics = SearchResponse.Analytics response)).
Proof.
  intros Hrt Hs. unfold Search in Hs. rewrite filteredJobs_paging in Hs.
  destruct (slice _ _ _) as [page|]; simpl in Hs; [|done]. injection Hs as <- <-.
  cbn [SearchResponse.Analytics SearchResponse.Total].
  assert (∀ jobs : list Job.t,
            JobAnalytics.TotalJobs (GetAnalytics (F:=F) rt jobs) = Z.of_nat (length jobs))
    as Htotal by (by intros [|job jobs]).
  split; [done|]. rewrite Htotal. split; [|split; [done|]].
  - unfold count_jobs. by rewrite (filteredJobs_perm rt s filters Hrt).
  - unfold JobHandler.GetAnalytics. rewrite Search_page by (simpl; lia).
    cbn [mbind result_bind SearchResponse.Analytics]. rewrite filteredJobs_paging.
    eexists. split; [reflexivity|]. rewrite Htotal. split; [|by intros ->].
    pose proof (filteredJobs_perm rt s (with_paging no_filters 0 0) Hrt) as Hperm.
    rewrite filter_no_constraint in Hperm.
    change (with_paging no_filters 0 0) with no_filters in Hperm. by rewrite Hperm.
Qed.

Lemma analytics_cover_all_matches_witness :
  runtime_ok rt_forward
  ∧ ∃ response : SearchResponse.t float,
      Search rt_forward example_store (with_paging no_filters 1 1) = Ok (response, None)
      ∧ JobAnalytics.TotalJobs (SearchResponse.Analytics response) = 3
      ∧ SearchResponse.Total response = 3
      ∧ Z.of_nat (length (SearchResponse.Jobs response)) = 1.
Proof.
  split; [exact rt_forward_ok|].
  destruct (Search (F:=float) rt_forward example_store (with_paging no_filters 1 1))
    as [[response err]|p] eqn:Hs; [|by vm_compute in Hs].
  destruct (analytics_cover_all_matches rt_forward example_store no_filters 1 1 response err
              rt_forward_ok Hs) as (_ & Htotal & Heq & _).
  assert (err = None) as -> by (by vm_compute in Hs; injection Hs).
  exists response. split; [reflexivity|]. split; [exact Htotal|].
  split; [by rewrite Heq, Htotal|].
  vm_compute in Hs. by injection Hs as <-.
Defined.

(** *** The order of the salary statistics *)

Section percentile_order.

Implicit Types (data : list Qc).
















End percentile_order.






